(** * Real-Time-RayTracer: the application layer and its rendering core

    Shallow embedding of [RayTracer/src/WalnutApp.cpp] (class [ExampleLayer])
    together with the Scene, Camera and Renderer it drives.

    - [ExampleLayer] (constructor, [OnUpdate], [OnUIRender], [Render]) is
      translated from the source file.
    - [Renderer.h], [Camera.h] and the Scene declarations are included by the
      source file but are not part of it.  Their operations are modelled from
      the design specification; every such definition says so in its doc
      comment.  What the specification leaves open (ray/sphere intersection
      arithmetic, sky term, scatter direction, generator, display encoding,
      camera motion) is a [Variable] of the section.
    - ImGui and Walnut are third-party libraries; a widget is modelled by what
      it does to the variable it is given, driven by an explicit record of the
      user's interaction in that frame. *)

From Stdlib Require Import ZArith QArith List Bool Lia.
From Stdlib Require Import Floats.SpecFloat.
From Stdlib Require Import Permutation Sorted.
Import ListNotations.
Open Scope Z_scope.

(** ** Numbers *)

(** [float] is IEEE-754 binary32: 24 bits of precision, exponent bound 128. *)
Definition f32 : Type := spec_float.

Definition f32_add : f32 -> f32 -> f32 := SFadd 24 128.
Definition f32_sub : f32 -> f32 -> f32 := SFsub 24 128.
Definition f32_mul : f32 -> f32 -> f32 := SFmul 24 128.
Definition f32_div : f32 -> f32 -> f32 := SFdiv 24 128.
Definition f32_ltb : f32 -> f32 -> bool := SFltb.

Definition f32_of_Z (z : Z) : f32 := binary_normalize 24 128 z 0 false.

(** A decimal literal [d] with suffix [f]: the binary32 value nearest to [d]
    (numerator and denominator are exact, the division rounds once). *)
Definition f32_of_Q (q : Q) : f32 :=
  f32_div (f32_of_Z (Qnum q)) (f32_of_Z (Zpos (Qden q))).

Definition is_nan (x : f32) : bool :=
  match x with S754_nan => true | _ => false end.

(** A number of [[0,1]]: a zero, or [m * 2^e] with [e <= 0] and
    [m <= 2^(-e)]. *)
Definition unit_interval (x : f32) : bool :=
  match x with
  | S754_zero _ => true
  | S754_finite false m e => (e <=? 0) && (Zpos m <=? 2 ^ (- e))
  | _ => false
  end.

(** A zero, a positive number or the positive infinity. *)
Definition not_negative (x : f32) : bool :=
  match x with
  | S754_zero _ | S754_finite false _ _ | S754_infinity false => true
  | _ => false
  end.

(** What [k] right shifts ([shr_1]) leave of a mantissa [m0]: the quotient by
    [2^k], with the sticky bits set only if something was shifted out. *)
Definition shifted (m0 : Z) (k : nat) (mrs : shr_record) : Prop :=
  0 <= shr_m mrs /\
  shr_m mrs * 2 ^ Z.of_nat k <= m0 /\
  (shr_r mrs || shr_s mrs = true -> shr_m mrs * 2 ^ Z.of_nat k < m0).

(** [int] and [uint32_t] conversions, wrap-around written out. *)
Definition to_uint32 (z : Z) : Z := z mod 2 ^ 32.
Definition to_int (z : Z) : Z := (z + 2 ^ 31) mod 2 ^ 32 - 2 ^ 31.

(** ** Vectors (glm::vec3, glm::vec4) *)

Record vec3 : Type := Vec3 { vx : f32; vy : f32; vz : f32 }.
Record vec4 : Type := Vec4 { cr : f32; cg : f32; cb : f32; ca : f32 }.

Definition vec3_map2 (f : f32 -> f32 -> f32) (a b : vec3) : vec3 :=
  Vec3 (f (vx a) (vx b)) (f (vy a) (vy b)) (f (vz a) (vz b)).
Definition vec3_add := vec3_map2 f32_add.
Definition vec3_sub := vec3_map2 f32_sub.
Definition vec3_mul := vec3_map2 f32_mul.
Definition vec3_scale (a : vec3) (k : f32) : vec3 :=
  Vec3 (f32_mul (vx a) k) (f32_mul (vy a) k) (f32_mul (vz a) k).
Definition vec3_div (a : vec3) (k : f32) : vec3 :=
  Vec3 (f32_div (vx a) k) (f32_div (vy a) k) (f32_div (vz a) k).

Definition vec4_add (a b : vec4) : vec4 :=
  Vec4 (f32_add (cr a) (cr b)) (f32_add (cg a) (cg b))
       (f32_add (cb a) (cb b)) (f32_add (ca a) (ca b)).
Definition vec4_div (a : vec4) (k : f32) : vec4 :=
  Vec4 (f32_div (cr a) k) (f32_div (cg a) k) (f32_div (cb a) k) (f32_div (ca a) k).

Definition vec4_nan_free (c : vec4) : bool :=
  negb (is_nan (cr c)) && negb (is_nan (cg c)) && negb (is_nan (cb c)) &&
  negb (is_nan (ca c)).

(** Every channel a number of [[0,1]]; every channel not negative. *)
Definition vec3_unit (a : vec3) : bool :=
  unit_interval (vx a) && unit_interval (vy a) && unit_interval (vz a).
Definition vec4_unit (c : vec4) : bool :=
  unit_interval (cr c) && unit_interval (cg c) && unit_interval (cb c) &&
  unit_interval (ca c).
Definition vec4_not_negative (c : vec4) : bool :=
  not_negative (cr c) && not_negative (cg c) && not_negative (cb c) &&
  not_negative (ca c).

Definition lit3 (x y z : Q) : vec3 := Vec3 (f32_of_Q x) (f32_of_Q y) (f32_of_Q z).

(** ** Scene data *)

Record Material : Type := mkMaterial {
  Albedo : vec3;
  Roughness : f32;
  Metallic : f32
}.

Record Sphere : Type := mkSphere {
  Position : vec3;
  Radius : f32;
  MaterialIndex : Z          (* int *)
}.

Record Scene : Type := mkScene {
  Spheres : list Sphere;
  Materials : list Material
}.

Definition set_Albedo (v : vec3) (m : Material) : Material :=
  mkMaterial v (Roughness m) (Metallic m).
Definition set_Roughness (v : f32) (m : Material) : Material :=
  mkMaterial (Albedo m) v (Metallic m).
Definition set_Metallic (v : f32) (m : Material) : Material :=
  mkMaterial (Albedo m) (Roughness m) v.

Definition set_Position (v : vec3) (s : Sphere) : Sphere :=
  mkSphere v (Radius s) (MaterialIndex s).
Definition set_Radius (v : f32) (s : Sphere) : Sphere :=
  mkSphere (Position s) v (MaterialIndex s).
Definition set_MaterialIndex (v : Z) (s : Sphere) : Sphere :=
  mkSphere (Position s) (Radius s) v.

(** ** Camera state *)

(** Modelled from the spec: the Camera record of the data model (the class
    declaration, Camera.h, is not in the source file). *)
Record Camera : Type := mkCamera {
  position : vec3;
  forwardDirection : vec3;
  verticalFOV : f32;
  nearClip : f32;
  farClip : f32;
  viewportWidth : Z;
  viewportHeight : Z;
  rayDirections : list vec3
}.

(** ** Renderer state *)

Record Settings : Type := mkSettings { Accumulate : bool }.

(** The image object behind the handle returned by [GetFinalImage]:
    its size and one packed RGBA8 word per pixel. *)
Record Image : Type := mkImage {
  Width : Z;
  Height : Z;
  Pixels : list Z
}.

(** Modelled from the spec: the Renderer state of the data model (the class
    declaration, Renderer.h, is not in the source file).  [finalImage] is a
    nullable handle: [None] until a resize has allocated the buffers. *)
Record Renderer : Type := mkRenderer {
  accumulationBuffer : list vec4;
  finalImage : option Image;
  frameIndex : Z;
  settings : Settings
}.

(** ** ImGui widgets

    A widget receives the variable it edits and this frame's interaction with
    it: [None] when the user did not touch it.  A drag field takes a value in
    two ways: the pointer drags it, or the user types it into the field
    (Ctrl+Click or a double click turns the field into a text input). *)

Inductive Entry (A : Type) : Type :=
| Dragged (raw : A)     (* where the drag arrives, before the bounds apply *)
| Typed (raw : A).      (* the number typed into the field *)

Arguments Dragged {A} raw.
Arguments Typed {A} raw.

Definition ImClamp_int (v mn mx : Z) : Z :=
  if v <? mn then mn else if mx <? v then mx else v.

Definition ImClamp_f32 (v mn mx : f32) : f32 :=
  if f32_ltb v mn then mn else if f32_ltb mx v then mx else v.

(** [ImGui::DragInt(label, &v, speed, v_min, v_max)]: a drag is clamped to
    [[v_min, v_max]] when [v_min < v_max]; otherwise the widget is unbounded.
    A typed number is stored as typed: text input is clamped only under
    [ImGuiSliderFlags_AlwaysClamp], and no call of the layer passes flags. *)
Definition ImGui_DragInt (v v_min v_max : Z) (e : option (Entry Z)) : Z :=
  match e with
  | None => v
  | Some (Dragged raw) => if v_min <? v_max then ImClamp_int raw v_min v_max else raw
  | Some (Typed raw) => raw
  end.

(** [ImGui::DragFloat(label, &v, speed, v_min, v_max)], same rules; the
    four-argument-less call has [v_min = v_max = 0.0f]. *)
Definition ImGui_DragFloat (v v_min v_max : f32) (e : option (Entry f32)) : f32 :=
  match e with
  | None => v
  | Some (Dragged raw) =>
      if f32_ltb v_min v_max then ImClamp_f32 raw v_min v_max else raw
  | Some (Typed raw) => raw
  end.

(** [ImGui::DragFloat3(label, ptr, speed)]: three unbounded fields; the three
    floats are replaced by what the user set. *)
Definition ImGui_DragFloat3 (v : vec3) (drag : option vec3) : vec3 :=
  match drag with None => v | Some raw => raw end.

(** [ImGui::ColorEdit3(label, col)] without flags shows the channels as three
    integer fields from 0 to 255, each a [DragInt] with these bounds, and
    writes every channel back as [i / 255.0f] once a field has changed;
    [Fields r g b] are the three fields after the interaction.  The colour
    square beside them opens a picker, whose colours lie in the unit cube:
    [Picked c] is the picked colour, saturated channel by channel. *)
Inductive ColorEntry : Type :=
| Fields (r g b : Entry Z)
| Picked (c : vec3).

Definition ColorEdit3_field (e : Entry Z) : f32 :=
  f32_div (f32_of_Z (ImGui_DragInt 0 0 255 (Some e))) (f32_of_Z 255).

Definition ImSaturate (x : f32) : f32 := ImClamp_f32 x (f32_of_Q 0) (f32_of_Q 1).

Definition ImGui_ColorEdit3 (v : vec3) (e : option ColorEntry) : vec3 :=
  match e with
  | None => v
  | Some (Fields r g b) =>
      Vec3 (ColorEdit3_field r) (ColorEdit3_field g) (ColorEdit3_field b)
  | Some (Picked c) => Vec3 (ImSaturate (vx c)) (ImSaturate (vy c)) (ImSaturate (vz c))
  end.

(** [ImGui::Checkbox(label, &b)]: a click flips the flag. *)
Definition ImGui_Checkbox (b clicked : bool) : bool :=
  if clicked then negb b else b.

Definition touched {A : Type} (d : option A) : bool :=
  match d with Some _ => true | None => false end.

(** The user's interaction with the three widgets of one sphere and of one
    material. *)
Record SphereDrag : Type := mkSphereDrag {
  Drag_Position : option vec3;
  Drag_Radius : option (Entry f32);
  Drag_Material : option (Entry Z)
}.

Record MaterialDrag : Type := mkMaterialDrag {
  Edit_Albedo : option ColorEntry;
  Drag_Roughness : option (Entry f32);
  Drag_Metallic : option (Entry f32)
}.

Definition no_SphereDrag : SphereDrag := mkSphereDrag None None None.
Definition no_MaterialDrag : MaterialDrag := mkMaterialDrag None None None.

(** Everything the user and the layout supply during one [OnUIRender]. *)
Record UIInput : Type := mkUIInput {
  Button_Render : bool;                 (* ImGui::Button("Render") *)
  Checkbox_Accumulate : bool;           (* the checkbox was clicked *)
  Button_Reset : bool;                  (* ImGui::Button("Reset") *)
  Drags_Spheres : list SphereDrag;      (* entry i: widgets under PushID(i) *)
  Drags_Materials : list MaterialDrag;
  ContentRegionAvail : Z * Z;           (* GetContentRegionAvail(), truncated *)
  Elapsed_button : f32;                 (* timer of the button's Render() *)
  Elapsed_frame : f32                   (* timer of the closing Render() *)
}.

(** ** Calls observed from the layer *)

Inductive Field : Type :=
| Sphere_Position | Sphere_Radius | Sphere_MaterialIndex
| Material_Albedo | Material_Roughness | Material_Metallic.

Inductive Call : Type :=
| Call_Camera_OnUpdate (changed : bool)
| Call_ResetFrameIndex
| Call_Renderer_OnResize (w h : Z)
| Call_Camera_OnResize (w h : Z)
| Call_Renderer_Render
| Call_GetFinalImage (null : bool)
| Call_ImGui_Image (w h : Z)
| Call_Edit (f : Field) (i : nat).

Definition is_reset (c : Call) : bool :=
  match c with Call_ResetFrameIndex => true | _ => false end.
Definition is_render (c : Call) : bool :=
  match c with Call_Renderer_Render => true | _ => false end.
Definition is_edit (c : Call) : bool :=
  match c with Call_Edit _ _ => true | _ => false end.
Definition is_draw (c : Call) : bool :=
  match c with Call_ImGui_Image _ _ => true | _ => false end.

(** ** The scene editor (the "Scene" window of [OnUIRender]) *)

Definition edit_log {A : Type} (f : Field) (i : nat) (d : option A) : list Call :=
  if touched d then [Call_Edit f i] else [].

(** Body of the first loop for sphere [i]; [nmat] is [Materials.size()]. *)
Definition edit_Sphere (nmat : Z) (d : SphereDrag) (sphere : Sphere) : Sphere :=
  let sphere := set_Position (ImGui_DragFloat3 (Position sphere) (Drag_Position d)) sphere in
  let sphere := set_Radius
                  (ImGui_DragFloat (Radius sphere) (f32_of_Q 0) (f32_of_Q 0) (Drag_Radius d))
                  sphere in
  set_MaterialIndex
    (ImGui_DragInt (MaterialIndex sphere) 0 (to_int nmat - 1) (Drag_Material d)) sphere.

Definition edit_Sphere_log (i : nat) (d : SphereDrag) : list Call :=
  edit_log Sphere_Position i (Drag_Position d) ++
  edit_log Sphere_Radius i (Drag_Radius d) ++
  edit_log Sphere_MaterialIndex i (Drag_Material d).

(** Body of the second loop for material [i]. *)
Definition edit_Material (d : MaterialDrag) (material : Material) : Material :=
  let material := set_Albedo (ImGui_ColorEdit3 (Albedo material) (Edit_Albedo d)) material in
  let material := set_Roughness
                    (ImGui_DragFloat (Roughness material) (f32_of_Q 0) (f32_of_Q 1)
                                     (Drag_Roughness d)) material in
  set_Metallic
    (ImGui_DragFloat (Metallic material) (f32_of_Q 0) (f32_of_Q 1) (Drag_Metallic d))
    material.

Definition edit_Material_log (i : nat) (d : MaterialDrag) : list Call :=
  edit_log Material_Albedo i (Edit_Albedo d) ++
  edit_log Material_Roughness i (Drag_Roughness d) ++
  edit_log Material_Metallic i (Drag_Metallic d).

(** [for (size_t i = 0; i < v.size(); i++)] over a vector edited in place:
    element [i] meets interaction [i] (none recorded: untouched). *)
Fixpoint for_each {A D : Type} (none : D) (body : D -> A -> A)
         (ds : list D) (v : list A) : list A :=
  match v with
  | [] => []
  | a :: v' => body (hd none ds) a :: for_each none body (tl ds) v'
  end.

Fixpoint for_each_log {A D : Type} (none : D) (log : nat -> D -> list Call)
         (i : nat) (ds : list D) (v : list A) : list Call :=
  match v with
  | [] => []
  | _ :: v' => log i (hd none ds) ++ for_each_log none log (S i) (tl ds) v'
  end.

Definition edit_Scene (ui : UIInput) (sc : Scene) : Scene :=
  let nmat := Z.of_nat (length (Materials sc)) in
  let spheres := for_each no_SphereDrag (edit_Sphere nmat) (Drags_Spheres ui) (Spheres sc) in
  let materials := for_each no_MaterialDrag edit_Material (Drags_Materials ui) (Materials sc) in
  mkScene spheres materials.

Definition edit_Scene_log (ui : UIInput) (sc : Scene) : list Call :=
  for_each_log no_SphereDrag edit_Sphere_log 0 (Drags_Spheres ui) (Spheres sc) ++
  for_each_log no_MaterialDrag edit_Material_log 0 (Drags_Materials ui) (Materials sc).

(** ** Helpers on buffers *)

(** A pass over a buffer that also hands the body the slot's index. *)
Fixpoint mapi {A B : Type} (f : Z -> A -> B) (i : Z) (l : list A) : list B :=
  match l with
  | [] => []
  | a :: l' => f i a :: mapi f (i + 1) l'
  end.

Definition pixel_indices (w h : Z) : list Z :=
  map Z.of_nat (seq 0 (Z.to_nat (w * h))).

Definition f32_zero : f32 := f32_of_Q 0.
Definition f32_one : f32 := f32_of_Q 1.
Definition vec3_zero : vec3 := Vec3 f32_zero f32_zero f32_zero.
Definition vec3_one : vec3 := Vec3 f32_one f32_one f32_one.
Definition vec4_zero : vec4 := Vec4 f32_zero f32_zero f32_zero f32_zero.

(** [below x y]: [x] is [y] or less than [y]. *)
Definition below (x y : f32) : Prop := x = y \/ f32_ltb x y = true.

(** ** The "Advanced Stats" window of [OnUIRender]

    The window keeps its data in function-local statics.  It is modelled as a
    step on a record of those statics that takes the frame time
    ([m_LastRenderTime] when the window runs), the two values [rand()] may
    return and the state of the "Reset Stats" button.  Display calls
    ([Text], [PlotLines], [PlotHistogram], [Separator]) only read the statics;
    the GPU, CPU and memory lines read the operating system into statics and
    locals of their own that nothing else uses. *)

Module AdvancedStats.

(** [double] is IEEE-754 binary64. *)
Definition f64 : Type := spec_float.
Definition f64_mul : f64 -> f64 -> f64 := SFmul 53 1024.
Definition f64_div : f64 -> f64 -> f64 := SFdiv 53 1024.
Definition f64_of_Z (z : Z) : f64 := binary_normalize 53 1024 z 0 false.
Definition f64_of_Q (q : Q) : f64 := f64_div (f64_of_Z (Qnum q)) (f64_of_Z (Zpos (Qden q))).

(** [static_cast<int>(double)]: truncation toward zero, defined when the
    truncated value is an [int]. *)
Definition f64_to_int (x : f64) : option Z :=
  match x with
  | S754_zero _ => Some 0
  | S754_finite s m e =>
      let v := if 0 <=? e then Zpos m * 2 ^ e else Zpos m / 2 ^ (- e) in
      let v := if s then - v else v in
      if (- 2 ^ 31 <=? v) && (v <? 2 ^ 31) then Some v else None
  | _ => None
  end.

(** [FLT_MAX] *)
Definition FLT_MAX : f32 := S754_finite false (2 ^ 24 - 1) 104.

(** [a[i] = v] and [a[i]] on an array or vector: defined inside the bounds. *)
Definition array_set {A : Type} (i : Z) (v : A) (a : list A) : option (list A) :=
  if (0 <=? i) && (i <? Z.of_nat (length a))
  then Some (firstn (Z.to_nat i) a ++ v :: skipn (S (Z.to_nat i)) a)
  else None.
Definition array_get {A : Type} (i : Z) (a : list A) : option A :=
  if 0 <=? i then nth_error a (Z.to_nat i) else None.

(** [std::copy(src, src + n, dst.begin())]: defined when both ranges exist. *)
Definition std_copy {A : Type} (src : list A) (n : nat) (dst : list A) : option (list A) :=
  if (n <=? length src)%nat && (n <=? length dst)%nat
  then Some (firstn n src ++ skipn n dst)
  else None.

Record Statics : Type := mkStatics {
  frameTimes : list f32;             (* static float frameTimes[100] *)
  frameIndex : Z;                    (* static int *)
  maxFrameTime : f32;
  frameTimeMin : f32;
  frameTimeMax : f32;
  frameTimePercentile99 : f32;
  frameTimePercentile95 : f32;
  sortedFrameTimes : list f32;       (* static std::vector<float> *)
  allocSizes : list f32;             (* static std::vector<float> *)
  totalAllocations : Z;              (* static int *)
  maxAllocationSize : f32
}.

(** The statics as their initialisers leave them. *)
Definition initial : Statics :=
  mkStatics (repeat f32_zero 100) 0 f32_zero FLT_MAX f32_zero f32_zero f32_zero
            (repeat f32_zero 100) [] 0 f32_zero.

Record Input : Type := mkInput {
  rand_gate : Z;                     (* the rand() of the if *)
  rand_size : Z;                     (* the rand() of the size *)
  Button_ResetStats : bool           (* ImGui::Button("Reset Stats") *)
}.

(** [frameTimes[frameIndex] = frameTime; frameIndex = (frameIndex + 1) % 100;] *)
Definition record_frame_time (frameTime : f32) (s : Statics) : option Statics :=
  match array_set (frameIndex s) frameTime (frameTimes s) with
  | None => None
  | Some a =>
      Some (mkStatics a (Z.rem (to_int (frameIndex s + 1)) 100)
                      (maxFrameTime s) (frameTimeMin s) (frameTimeMax s)
                      (frameTimePercentile99 s) (frameTimePercentile95 s)
                      (sortedFrameTimes s) (allocSizes s) (totalAllocations s)
                      (maxAllocationSize s))
  end.

(** [maxFrameTime = 0.0f; for (float t : frameTimes) if (t > maxFrameTime)
    maxFrameTime = t;] *)
Definition window_max (ts : list f32) : f32 :=
  fold_left (fun m t => if f32_ltb m t then t else m) ts f32_zero.

Definition scan_max (s : Statics) : Statics :=
  mkStatics (frameTimes s) (frameIndex s) (window_max (frameTimes s))
            (frameTimeMin s) (frameTimeMax s)
            (frameTimePercentile99 s) (frameTimePercentile95 s)
            (sortedFrameTimes s) (allocSizes s) (totalAllocations s)
            (maxAllocationSize s).

(** [if (frameTime < frameTimeMin) frameTimeMin = frameTime;
     if (frameTime > frameTimeMax) frameTimeMax = frameTime;] *)
Definition update_min_max (frameTime : f32) (s : Statics) : Statics :=
  mkStatics (frameTimes s) (frameIndex s) (maxFrameTime s)
            (if f32_ltb frameTime (frameTimeMin s) then frameTime else frameTimeMin s)
            (if f32_ltb (frameTimeMax s) frameTime then frameTime else frameTimeMax s)
            (frameTimePercentile99 s) (frameTimePercentile95 s)
            (sortedFrameTimes s) (allocSizes s) (totalAllocations s)
            (maxAllocationSize s).

(** [static_cast<int>(sortedFrameTimes.size() * p)] for a [double] literal
    [p]. *)
Definition percentile_index (size : nat) (p : Q) : option Z :=
  f64_to_int (f64_mul (f64_of_Z (Z.of_nat size)) (f64_of_Q p)).

(** The percentile block: copy, [std::sort], two indexed reads.  [std_sort]
    is what [std::sort(begin, end)] leaves in the vector. *)
Definition percentiles (std_sort : list f32 -> list f32) (s : Statics) : option Statics :=
  match std_copy (frameTimes s) 100 (sortedFrameTimes s) with
  | None => None
  | Some copied =>
      let sorted := std_sort copied in
      match percentile_index (length sorted) 0.99, percentile_index (length sorted) 0.95 with
      | Some i99, Some i95 =>
          match array_get i99 sorted, array_get i95 sorted with
          | Some p99, Some p95 =>
              Some (mkStatics (frameTimes s) (frameIndex s) (maxFrameTime s)
                              (frameTimeMin s) (frameTimeMax s) p99 p95 sorted
                              (allocSizes s) (totalAllocations s) (maxAllocationSize s))
          | _, _ => None
          end
      | _, _ => None
      end
  end.

(** The simulated allocation tracking. *)
Definition track_allocation (inp : Input) (s : Statics) : Statics :=
  if Z.rem (rand_gate inp) 10 =? 0 then
    let size := f32_of_Z (Z.rem (rand_size inp) 1024 + 1) in
    let sizes := allocSizes s ++ [size] in
    mkStatics (frameTimes s) (frameIndex s) (maxFrameTime s)
              (frameTimeMin s) (frameTimeMax s)
              (frameTimePercentile99 s) (frameTimePercentile95 s)
              (sortedFrameTimes s)
              (if (100 <? length sizes)%nat then tl sizes else sizes)
              (to_int (totalAllocations s + 1))
              (if f32_ltb (maxAllocationSize s) size then size else maxAllocationSize s)
  else s.

(** The body of [if (ImGui::Button("Reset Stats"))]. *)
Definition reset_stats (s : Statics) : Statics :=
  mkStatics (frameTimes s) (frameIndex s) (maxFrameTime s)
            FLT_MAX f32_zero
            (frameTimePercentile99 s) (frameTimePercentile95 s)
            (sortedFrameTimes s) [] 0 f32_zero.

(** One execution of the window; [None] is an access outside an array. *)
Definition Window (std_sort : list f32 -> list f32) (inp : Input) (frameTime : f32)
           (s : Statics) : option Statics :=
  match record_frame_time frameTime s with
  | None => None
  | Some s1 =>
      match percentiles std_sort (update_min_max frameTime (scan_max s1)) with
      | None => None
      | Some s2 =>
          let s3 := track_allocation inp s2 in
          Some (if Button_ResetStats inp then reset_stats s3 else s3)
      end
  end.

(** The window over successive frames, oldest first. *)
Fixpoint run (std_sort : list f32 -> list f32) (frames : list (Input * f32))
         (s : Statics) : option Statics :=
  match frames with
  | [] => Some s
  | (inp, frameTime) :: rest =>
      match Window std_sort inp frameTime s with
      | None => None
      | Some s' => run std_sort rest s'
      end
  end.

(** A reference sort by insertion, ordered by [<]. *)
Fixpoint insert (x : f32) (l : list f32) : list f32 :=
  match l with
  | [] => [x]
  | y :: l' => if f32_ltb y x then y :: insert x l' else x :: l
  end.
Definition insertion_sort (l : list f32) : list f32 := fold_right insert [] l.

(** The shape the statics keep: two buffers of 100 floats and an index into
    them. *)
Definition wf (s : Statics) : Prop :=
  length (frameTimes s) = 100%nat /\ length (sortedFrameTimes s) = 100%nat /\
  0 <= frameIndex s < 100.

(** What is assumed of [std::sort]: it works in place, so the vector keeps
    its size; and on floats without a NaN, for which [<] is a strict weak
    ordering, it leaves a permutation of the input on which [std::is_sorted]
    holds (no element is less than its predecessor). *)
Definition sort_keeps_size (std_sort : list f32 -> list f32) : Prop :=
  forall l, length (std_sort l) = length l.
Definition sort_contract (std_sort : list f32 -> list f32) : Prop :=
  forall l, Forall (fun x => is_nan x = false) l ->
            Permutation l (std_sort l) /\
            Sorted (fun a b => f32_ltb b a = false) (std_sort l).

End AdvancedStats.

(** Three frames of the window: 16 ms with an allocation of size 6 drawn,
    8 ms without a draw, 33 ms with an allocation of size 1024 drawn. *)
Definition sample_frames : list (AdvancedStats.Input * f32) :=
  [ (AdvancedStats.mkInput 0 5 false, f32_of_Q 16);
    (AdvancedStats.mkInput 3 0 false, f32_of_Q 8);
    (AdvancedStats.mkInput 10 2047 false, f32_of_Q 33) ].

(** What the allocation tracking keeps true of its statics: at most 100
    sizes, each the float of an integer from 1 to 1024, none above
    [maxAllocationSize]. *)
Definition allocation_invariant (s : AdvancedStats.Statics) : Prop :=
  (length (AdvancedStats.allocSizes s) <= 100)%nat /\
  Forall (fun x => exists k, 1 <= k <= 1024 /\ x = f32_of_Z k) (AdvancedStats.allocSizes s) /\
  Forall (fun x => f32_ltb (AdvancedStats.maxAllocationSize s) x = false)
         (AdvancedStats.allocSizes s).

(** No frame of the list has the "Reset Stats" button pressed. *)
Definition no_reset (frames : list (AdvancedStats.Input * f32)) : bool :=
  forallb (fun f => negb (AdvancedStats.Button_ResetStats (fst f))) frames.

(** The ring of frame times after any number of windows. *)
Definition ring_invariant (frames : list (AdvancedStats.Input * f32))
           (s : AdvancedStats.Statics) : Prop :=
  let n := length frames in
  AdvancedStats.wf s /\
  AdvancedStats.frameIndex s = Z.of_nat (n mod 100) /\
  (forall k, (k < n)%nat -> (n <= k + 100)%nat ->
             nth_error (AdvancedStats.frameTimes s) (k mod 100) =
             nth_error (map snd frames) k) /\
  (forall i, (n <= i)%nat -> (i < 100)%nat ->
             nth_error (AdvancedStats.frameTimes s) i = Some f32_zero).


(** ** The ImGui calls of a frame

    The calls [OnUIRender] and the menu bar callback of [CreateApplication]
    make into ImGui, in order.  Calls that open or close a scope are kept
    apart; every other call is an [IG_Item]. *)

Inductive ImGuiWindow : Type :=
| Window_Settings | Window_Scene | Window_Viewport | Window_AdvancedStats.

Inductive ImGuiItem : Type :=
| Item_Text | Item_Button | Item_Checkbox | Item_DragFloat3 | Item_DragFloat
| Item_DragInt | Item_ColorEdit3 | Item_Separator | Item_GetContentRegionAvail
| Item_Image | Item_PlotLines | Item_PlotHistogram | Item_MenuItem.

Inductive ImGuiCall : Type :=
| IG_Begin (w : ImGuiWindow)
| IG_End
| IG_PushID (i : nat)
| IG_PopID
| IG_PushStyleVar
| IG_PopStyleVar
| IG_BeginMenu (opened : bool)
| IG_EndMenu
| IG_Item (item : ImGuiItem).

(** Bodies of the two loops of the "Scene" window. *)
Definition Sphere_widgets (i : nat) : list ImGuiCall :=
  [IG_PushID i; IG_Item Item_DragFloat3; IG_Item Item_DragFloat; IG_Item Item_DragInt;
   IG_Item Item_Separator; IG_PopID].
Definition Material_widgets (i : nat) : list ImGuiCall :=
  [IG_PushID i; IG_Item Item_ColorEdit3; IG_Item Item_DragFloat; IG_Item Item_DragFloat;
   IG_Item Item_Separator; IG_PopID].

(** The "Advanced Stats" window; [meminfo] tells whether
    [GetProcessMemoryInfo] succeeded, [allocs] whether [allocSizes] is
    non-empty after the tracking step. *)
Definition AdvancedStats_widgets (meminfo allocs : bool) : list ImGuiCall :=
  [IG_Begin Window_AdvancedStats;
   IG_Item Item_PlotLines; IG_Item Item_Text; IG_Item Item_Text;
   IG_Item Item_Separator;
   IG_Item Item_Text; IG_Item Item_Text; IG_Item Item_Text; IG_Item Item_Text;
   IG_Item Item_Text;
   IG_Item Item_Separator;
   IG_Item Item_Text; IG_Item Item_Text; IG_Item Item_Text;
   IG_Item Item_Separator;
   IG_Item Item_Text; IG_Item Item_Text; IG_Item Item_Text] ++
  (if meminfo then [IG_Item Item_Text; IG_Item Item_Text] else []) ++
  [IG_Item Item_Separator; IG_Item Item_Text; IG_Item Item_PlotHistogram] ++
  (if allocs then [IG_Item Item_PlotHistogram; IG_Item Item_Text] else []) ++
  [IG_Item Item_Separator; IG_Item Item_Button; IG_End].

(** [OnUIRender] for a scene [sc]; [image] tells whether [GetFinalImage]
    returned a non-null handle. *)
Definition OnUIRender_ImGui (sc : Scene) (image meminfo allocs : bool) : list ImGuiCall :=
  [IG_Begin Window_Settings; IG_Item Item_Text; IG_Item Item_Button;
   IG_Item Item_Checkbox; IG_Item Item_Button; IG_End] ++
  [IG_Begin Window_Scene] ++
  flat_map Sphere_widgets (seq 0 (length (Spheres sc))) ++
  flat_map Material_widgets (seq 0 (length (Materials sc))) ++
  [IG_End] ++
  [IG_PushStyleVar; IG_Begin Window_Viewport;
   IG_Item Item_GetContentRegionAvail; IG_Item Item_GetContentRegionAvail] ++
  (if image then [IG_Item Item_Image] else []) ++
  [IG_End] ++
  AdvancedStats_widgets meminfo allocs ++
  [IG_PopStyleVar].

(** The menu bar callback set in [CreateApplication]: its ImGui calls and
    whether it calls [app->Close()]; [opened] and [clicked] are what
    [BeginMenu("File")] and [MenuItem("Exit")] return.  Walnut runs the
    callback inside the menu bar of its main window. *)
Definition Menubar (opened clicked : bool) : list ImGuiCall * bool :=
  if opened
  then ([IG_BeginMenu true; IG_Item Item_MenuItem; IG_EndMenu], clicked)
  else ([IG_BeginMenu false], false).

(** What a call sequence needs to pass ImGui's checks: every [End], [PopID],
    [PopStyleVar] and [EndMenu] closes the scope opened last, which is of its
    kind; [EndMenu] is called only for a menu that opened; widgets are
    submitted inside a window or menu.  The result is the scopes left open. *)
Inductive ImGuiScope : Type := In_Window | In_ID | In_StyleVar | In_Menu.

Definition submits_inside (stack : list ImGuiScope) : bool :=
  existsb (fun s => match s with In_Window | In_Menu => true | _ => false end) stack.

Fixpoint nesting (stack : list ImGuiScope) (calls : list ImGuiCall)
  : option (list ImGuiScope) :=
  match calls with
  | [] => Some stack
  | c :: rest =>
      match c, stack with
      | IG_Begin _, _ => nesting (In_Window :: stack) rest
      | IG_End, In_Window :: st => nesting st rest
      | IG_PushID _, _ => if submits_inside stack then nesting (In_ID :: stack) rest else None
      | IG_PopID, In_ID :: st => nesting st rest
      | IG_PushStyleVar, _ => nesting (In_StyleVar :: stack) rest
      | IG_PopStyleVar, In_StyleVar :: st => nesting st rest
      | IG_BeginMenu true, _ => nesting (In_Menu :: stack) rest
      | IG_BeginMenu false, _ => nesting stack rest
      | IG_EndMenu, In_Menu :: st => nesting st rest
      | IG_Item _, _ => if submits_inside stack then nesting stack rest else None
      | _, _ => None
      end
  end.

(** ** A concrete instance

    Concrete choices for what the section below takes as variables, used to
    run the model on explicit inputs: a camera that never moves and sees the
    same direction through every pixel, spheres that no ray meets, a flat
    sky, a counter as generator. *)

Definition still_Material : Material := mkMaterial (lit3 1 1 1) (f32_of_Q 1) (f32_of_Q 0).
Definition still_Sphere : Sphere := mkSphere (lit3 0 0 0) (f32_of_Q 0.5) 0.
Definition still_Camera (fov near far : f32) : Camera :=
  mkCamera (lit3 0 0 6) (lit3 0 0 (-1)) fov near far 0 0 [].
Definition still_OnUpdate (ts : f32) (inp : unit) (c : Camera) : Camera * bool := (c, false).
Definition still_ray_direction (c : Camera) (x y : Z) : vec3 := forwardDirection c.
Definition still_intersect (origin direction centre : vec3) (radius : f32) : option f32 :=
  None.
Definition still_sky (origin direction : vec3) : vec3 := lit3 0.6 0.7 0.9.
Definition still_seed (pixelIndex fi : Z) : Z := pixelIndex + fi.
Definition still_scatter (m : Material) (direction normal : vec3) (g : Z) : vec3 * Z :=
  (normal, g + 1).
Definition still_encode8 (c : vec4) : Z := 0.

(** No click, no drag, a 2x2 viewport. *)
Definition idle_ui : UIInput :=
  mkUIInput false false false [] [] (2, 2) (f32_of_Q 1) (f32_of_Q 1).

(** As [idle_ui], with the radius of sphere 0 dragged to 2. *)
Definition radius_drag_ui : UIInput :=
  mkUIInput false false false
            [mkSphereDrag None (Some (Dragged (f32_of_Q 2))) None] [] (2, 2)
            (f32_of_Q 1) (f32_of_Q 1).

(** As [idle_ui], with 7 typed into the material field of sphere 0. *)
Definition typed_index_ui : UIInput :=
  mkUIInput false false false
            [mkSphereDrag None None (Some (Typed 7))] [] (2, 2)
            (f32_of_Q 1) (f32_of_Q 1).

(** A scene whose only sphere refers to material 7 of two; a camera at
    (0,0,6) that looks at it through the single pixel of a 1x1 viewport; and
    an intersection test under which rays that start at height 5 or above
    meet the sphere at distance 5 and all other rays miss. *)
Definition stray_sphere : Sphere := mkSphere (lit3 0 0 0) (f32_of_Q 1) 7.
Definition stray_scene : Scene :=
  mkScene [stray_sphere] [still_Material; still_Material].
Definition facing_Camera : Camera :=
  mkCamera (lit3 0 0 6) (lit3 0 0 (-1)) (f32_of_Q 45) (f32_of_Q 0.1) (f32_of_Q 100)
           1 1 [lit3 0 0 (-1)].
Definition facing_intersect (origin direction centre : vec3) (radius : f32) : option f32 :=
  if f32_ltb (vz origin) (f32_of_Q 5) then None else Some (f32_of_Q 5).

Section Application.

(** *** What the source file and the specification leave open *)

(** Values of default-constructed [Material] and [Sphere] objects and the
    [Camera(fov, near, far)] constructor (declared in headers that are not
    part of the source file). *)
Variable Material_ctor : Material.
Variable Sphere_ctor : Sphere.
Variable Camera_ctor : f32 -> f32 -> f32 -> Camera.

(** Initial value of the accumulate setting. *)
Variable Accumulate_default : bool.

(** Keyboard and mouse snapshot read by the camera, and the camera's motion:
    new camera and the "view changed" flag. *)
Variable InputState : Type.
Variable Camera_OnUpdate : f32 -> InputState -> Camera -> Camera * bool.

(** Ray generation for pixel [(x, y)] (unprojection through the inverse
    projection and view matrices). *)
Variable ray_direction : Camera -> Z -> Z -> vec3.

(** Distance along the ray [(origin, direction)] at which it meets the sphere
    with the given centre and radius, when that distance exceeds the
    self-intersection epsilon; [None] on a miss. *)
Variable intersect : vec3 -> vec3 -> vec3 -> f32 -> option f32.

(** Ambient/sky term of a ray that leaves the scene. *)
Variable sky : vec3 -> vec3 -> vec3.

(** Offset of the next ray's origin along the normal, and the bounce limit. *)
Variable epsilon : f32.
Variable bounce_limit : nat.

(** The pseudo-random generator: its state, its seeding from
    [(pixelIndex, frameIndex)], and the scattered direction drawn from it
    (material, incoming direction, normal, generator). *)
Variable Rng : Type.
Variable seed : Z -> Z -> Rng.
Variable scatter : Material -> vec3 -> vec3 -> Rng -> vec3 * Rng.

(** The 8-bit display encoding of a colour whose channels lie in [[0,1]]. *)
Variable encode8 : vec4 -> Z.

(** *** Camera *)

(** Modelled from the spec: Camera.resize (Camera.cpp is not in the source
    file).  "no-op if unchanged; otherwise updates viewport dimensions,
    recomputes the projection, and regenerates all width*height cached ray
    directions"; "Zero or negative viewport dimensions passed to resize:
    no-op".  The second component lists the sizes of the buffers the call
    allocates. *)
Definition Camera_OnResize_alloc (w h : Z) (c : Camera) : Camera * list Z :=
  if (w <=? 0) || (h <=? 0) then (c, [])
  else if (w =? viewportWidth c) && (h =? viewportHeight c) then (c, [])
  else
    let c' := mkCamera (position c) (forwardDirection c) (verticalFOV c)
                       (nearClip c) (farClip c) w h (rayDirections c) in
    (mkCamera (position c) (forwardDirection c) (verticalFOV c)
              (nearClip c) (farClip c) w h
              (map (fun i => ray_direction c' (i mod w) (i / w)) (pixel_indices w h)),
     [w * h]).

(** Modelled from the spec: Camera.resize, the camera it leaves. *)
Definition Camera_OnResize (w h : Z) (c : Camera) : Camera :=
  fst (Camera_OnResize_alloc w h c).

(** Modelled from the spec: Camera.getRayDirection, "O(1) lookup into the
    cached buffer; undefined if called before any resize with nonzero
    dimensions" (the model answers the zero vector where it is undefined). *)
Definition Camera_GetRayDirection (c : Camera) (x y : Z) : vec3 :=
  nth (Z.to_nat (x + y * viewportWidth c)) (rayDirections c) vec3_zero.

(** *** Renderer *)

(** Modelled from the spec: the Renderer before its first resize
    ("Uninitialized (no buffers)", frameIndex an integer >= 1). *)
Definition Renderer_ctor : Renderer :=
  mkRenderer [] None 1 (mkSettings Accumulate_default).

(** Modelled from the spec: Renderer.resetFrameIndex, "sets frameIndex = 1
    and zeroes accumulationBuffer" (Renderer.cpp is not in the source file). *)
Definition Renderer_ResetFrameIndex (r : Renderer) : Renderer :=
  mkRenderer (map (fun _ => vec4_zero) (accumulationBuffer r))
             (finalImage r) 1 (settings r).

Definition same_size (w h : Z) (img : option Image) : bool :=
  match img with
  | Some i => (w =? Width i) && (h =? Height i)
  | None => false
  end.

(** Modelled from the spec: Renderer.onResize, "if dimensions are unchanged
    and buffers already exist, no-op. Otherwise reallocate accumulationBuffer
    and finalImage to width*height, and call resetFrameIndex()"; "Zero or
    negative viewport dimensions passed to resize: no-op, buffers retain
    previous size".  The second component lists the sizes of the buffers the
    call allocates. *)
Definition Renderer_OnResize_alloc (w h : Z) (r : Renderer) : Renderer * list Z :=
  if (w <=? 0) || (h <=? 0) then (r, [])
  else if same_size w h (finalImage r) then (r, [])
  else
    let n := Z.to_nat (w * h) in
    (Renderer_ResetFrameIndex
       (mkRenderer (repeat vec4_zero n) (Some (mkImage w h (repeat 0 n)))
                   (frameIndex r) (settings r)),
     [w * h; w * h]).

(** Modelled from the spec: Renderer.onResize, the renderer it leaves. *)
Definition Renderer_OnResize (w h : Z) (r : Renderer) : Renderer :=
  fst (Renderer_OnResize_alloc w h r).

(** Modelled from the spec: Renderer.getFinalImage, "returns the most
    recently resolved buffer". *)
Definition Renderer_GetFinalImage (r : Renderer) : option Image := finalImage r.

(** Modelled from the spec: the fallback used for an out-of-range material
    index, "albedo mid-gray, roughness 1, metallic 0". *)
Definition default_material : Material :=
  mkMaterial (lit3 0.5 0.5 0.5) (f32_of_Q 1) (f32_of_Q 0).

(** Modelled from the spec: step 2b, "look up the hit sphere's material
    (index-checked; out-of-range uses a default neutral-gray material)". *)
Definition material_at (sc : Scene) (idx : Z) : Material :=
  if (0 <=? idx) && (idx <? Z.of_nat (length (Materials sc)))
  then nth (Z.to_nat idx) (Materials sc) default_material
  else default_material.

(** Modelled from the spec: step 2a, "Intersect the ray against every sphere
    in the scene; keep the closest hit". *)
Fixpoint closest_hit (origin direction : vec3) (spheres : list Sphere)
         (best : option (f32 * Sphere)) : option (f32 * Sphere) :=
  match spheres with
  | [] => best
  | s :: rest =>
      let best' :=
        match intersect origin direction (Position s) (Radius s), best with
        | Some t, Some (tb, _) => if f32_ltb t tb then Some (t, s) else best
        | Some t, None => Some (t, s)
        | None, _ => best
        end in
      closest_hit origin direction rest best'
  end.

(** Modelled from the spec: the bounce loop of step 2.  A miss adds the sky
    term modulated by the throughput and ends the loop (2a); a hit looks up
    the material (2b), takes the normal [(hitPoint - centre)/radius] (2b),
    multiplies the throughput by the albedo (2d; there is no emissive term,
    2c), and continues from [hitPoint + normal*epsilon] in the scattered
    direction (2e). *)
Fixpoint TraceRay (sc : Scene) (bounces : nat) (origin direction : vec3)
         (light throughput : vec3) (g : Rng) : vec3 :=
  match bounces with
  | O => light
  | S bounces' =>
      match closest_hit origin direction (Spheres sc) None with
      | None => vec3_add light (vec3_mul (sky origin direction) throughput)
      | Some (t, sphere) =>
          let material := material_at sc (MaterialIndex sphere) in
          let hitPoint := vec3_add origin (vec3_scale direction t) in
          let normal := vec3_div (vec3_sub hitPoint (Position sphere)) (Radius sphere) in
          let throughput' := vec3_mul throughput (Albedo material) in
          let '(direction', g') := scatter material direction normal g in
          TraceRay sc bounces' (vec3_add hitPoint (vec3_scale normal epsilon))
                   direction' light throughput' g'
      end
  end.

(** Modelled from the spec: steps 1-3 for one pixel of an image [w] pixels
    wide: primary ray from the camera, generator seeded from
    [(pixelIndex, frameIndex)], the traced light as a colour with alpha 1. *)
Definition PerPixel (sc : Scene) (cam : Camera) (w fi pixelIndex : Z) : vec4 :=
  let x := pixelIndex mod w in
  let y := pixelIndex / w in
  let light := TraceRay sc bounce_limit (position cam) (Camera_GetRayDirection cam x y)
                        vec3_zero vec3_one (seed pixelIndex fi) in
  Vec4 (vx light) (vy light) (vz light) f32_one.

(** Modelled from the spec: step 4, "toDisplay clamps each channel to [0,1]
    and converts to the 8-bit display encoding". *)
Definition clamp01 (x : f32) : f32 :=
  if f32_ltb x f32_zero then f32_zero else if f32_ltb f32_one x then f32_one else x.

(** The colour [toDisplay] hands to the display encoding. *)
Definition clamped (c : vec4) : vec4 :=
  Vec4 (clamp01 (cr c)) (clamp01 (cg c)) (clamp01 (cb c)) (clamp01 (ca c)).

(** Modelled from the spec: toDisplay of step 4, the clamped colour in the
    display encoding. *)
Definition toDisplay (c : vec4) : Z :=
  encode8 (Vec4 (clamp01 (cr c)) (clamp01 (cg c)) (clamp01 (cb c)) (clamp01 (ca c))).

(** Modelled from the spec: the sample count a pass divides by, [frameIndex],
    "pinned at 1" when accumulation is off (step 5). *)
Definition pass_index (r : Renderer) : Z :=
  if Accumulate (settings r) then frameIndex r else 1.

Definition image_width (img : option Image) : Z :=
  match img with Some i => Width i | None => 0 end.

(** Modelled from the spec: the colour a pass of renderer [r] samples for
    pixel [pixelIndex] (steps 1-3 at the renderer's image width and frame
    index). *)
Definition Renderer_sample (r : Renderer) (sc : Scene) (cam : Camera)
           (pixelIndex : Z) : vec4 :=
  PerPixel sc cam (image_width (finalImage r)) (pass_index r) pixelIndex.

(** Modelled from the spec: Renderer.render, one full-frame pass.  Each
    pixel's sample is added into its accumulation slot (overwrites it when
    accumulation is off, step 5), the slot divided by the frame index is
    resolved into the image (step 4), and at the end frameIndex is
    incremented if accumulation is enabled and is 1 otherwise. *)
Definition Renderer_Render (sc : Scene) (cam : Camera) (r : Renderer) : Renderer :=
  let accumulate := Accumulate (settings r) in
  let accum :=
    mapi (fun i a =>
            let c := Renderer_sample r sc cam i in
            if accumulate then vec4_add a c else c)
         0 (accumulationBuffer r) in
  let resolved :=
    map (fun a => toDisplay (vec4_div a (f32_of_Z (pass_index r)))) accum in
  mkRenderer accum
             (match finalImage r with
              | Some img => Some (mkImage (Width img) (Height img) resolved)
              | None => None
              end)
             (if accumulate then frameIndex r + 1 else 1)
             (settings r).

(** *** ExampleLayer *)

Record ExampleLayer : Type := mkExampleLayer {
  m_Renderer : Renderer;
  m_Camera : Camera;
  m_Scene : Scene;
  m_ViewportWidth : Z;       (* uint32_t *)
  m_ViewportHeight : Z;      (* uint32_t *)
  m_LastRenderTime : f32
}.

(** A method of the layer: it may read and update the members, it leaves a
    log of the calls it made, and it fails ([None]) on an invalid access such
    as a dereferenced null handle. *)
Definition App (A : Type) : Type :=
  ExampleLayer -> option (A * ExampleLayer * list Call).

Definition ret {A : Type} (a : A) : App A := fun l => Some (a, l, []).

Definition bind {A B : Type} (m : App A) (k : A -> App B) : App B :=
  fun l =>
    match m l with
    | None => None
    | Some (a, l1, log1) =>
        match k a l1 with
        | None => None
        | Some (b, l2, log2) => Some (b, l2, log1 ++ log2)
        end
    end.

Notation "x <- m ;; k" := (bind m (fun x => k))
  (at level 61, m at next level, right associativity).
Notation "m ;;; k" := (bind m (fun _ => k))
  (at level 61, right associativity).

Definition get {A : Type} (f : ExampleLayer -> A) : App A :=
  fun l => Some (f l, l, []).
Definition update (f : ExampleLayer -> ExampleLayer) (log : list Call) : App unit :=
  fun l => Some (tt, f l, log).
Definition invalid_access {A : Type} : App A := fun _ => None.

(** [h->member]: defined only on a non-null handle. *)
Definition deref {A : Type} (h : option A) : App A :=
  match h with Some a => ret a | None => invalid_access end.

Definition with_Renderer (f : Renderer -> Renderer) (l : ExampleLayer) :=
  mkExampleLayer (f (m_Renderer l)) (m_Camera l) (m_Scene l)
                 (m_ViewportWidth l) (m_ViewportHeight l) (m_LastRenderTime l).
Definition with_Camera (f : Camera -> Camera) (l : ExampleLayer) :=
  mkExampleLayer (m_Renderer l) (f (m_Camera l)) (m_Scene l)
                 (m_ViewportWidth l) (m_ViewportHeight l) (m_LastRenderTime l).
Definition with_Scene (f : Scene -> Scene) (l : ExampleLayer) :=
  mkExampleLayer (m_Renderer l) (m_Camera l) (f (m_Scene l))
                 (m_ViewportWidth l) (m_ViewportHeight l) (m_LastRenderTime l).
Definition with_Viewport (w h : Z) (l : ExampleLayer) :=
  mkExampleLayer (m_Renderer l) (m_Camera l) (m_Scene l) w h (m_LastRenderTime l).
Definition with_LastRenderTime (t : f32) (l : ExampleLayer) :=
  mkExampleLayer (m_Renderer l) (m_Camera l) (m_Scene l)
                 (m_ViewportWidth l) (m_ViewportHeight l) t.

(** Calls into the collaborators. *)
Definition call_Camera_OnUpdate (ts : f32) (inp : InputState) : App bool :=
  fun l =>
    let '(c, changed) := Camera_OnUpdate ts inp (m_Camera l) in
    Some (changed, with_Camera (fun _ => c) l, [Call_Camera_OnUpdate changed]).
Definition call_ResetFrameIndex : App unit :=
  update (with_Renderer Renderer_ResetFrameIndex) [Call_ResetFrameIndex].
Definition call_Renderer_OnResize (w h : Z) : App unit :=
  update (with_Renderer (Renderer_OnResize w h)) [Call_Renderer_OnResize w h].
Definition call_Camera_OnResize (w h : Z) : App unit :=
  update (with_Camera (Camera_OnResize w h)) [Call_Camera_OnResize w h].
Definition call_Renderer_Render : App unit :=
  fun l =>
    Some (tt, with_Renderer (Renderer_Render (m_Scene l) (m_Camera l)) l,
          [Call_Renderer_Render]).
Definition call_GetFinalImage : App (option Image) :=
  fun l =>
    let image := Renderer_GetFinalImage (m_Renderer l) in
    Some (image, l, [Call_GetFinalImage (negb (touched image))]).
Definition call_ImGui_Image (w h : Z) : App unit :=
  update (fun l => l) [Call_ImGui_Image w h].

(** [ExampleLayer::ExampleLayer()] *)
Definition ExampleLayer_ctor : ExampleLayer :=
  let sphere1 := Material_ctor in
  let sphere1 := set_Albedo (lit3 1.0 0.0 1.0) sphere1 in
  let sphere1 := set_Roughness (f32_of_Q 0.0) sphere1 in
  let materials := [sphere1] in
  let sphere2 := Material_ctor in
  let sphere2 := set_Albedo (lit3 0.2 0.3 1.0) sphere2 in
  let sphere2 := set_Roughness (f32_of_Q 0.1) sphere2 in
  let materials := materials ++ [sphere2] in
  let sphere := Sphere_ctor in
  let sphere := set_Position (lit3 0.0 0.0 0.0) sphere in
  let sphere := set_Radius (f32_of_Q 1.0) sphere in
  let sphere := set_MaterialIndex 0 sphere in
  let spheres := [sphere] in
  let sphere := Sphere_ctor in
  let sphere := set_Position (lit3 0.0 (-101.0) 0.0) sphere in
  let sphere := set_Radius (f32_of_Q 100.0) sphere in
  let sphere := set_MaterialIndex 1 sphere in
  let spheres := spheres ++ [sphere] in
  mkExampleLayer Renderer_ctor
                 (Camera_ctor (f32_of_Q 45.0) (f32_of_Q 0.1) (f32_of_Q 100.0))
                 (mkScene spheres materials)
                 0 0 (f32_of_Q 0.0).

(** [ExampleLayer::OnUpdate(float ts)] *)
Definition OnUpdate (ts : f32) (inp : InputState) : App unit :=
  changed <- call_Camera_OnUpdate ts inp ;;
  if changed then call_ResetFrameIndex else ret tt.

(** [ExampleLayer::Render()]; [elapsed] is what the timer reads at the end. *)
Definition Render (elapsed : f32) : App unit :=
  w <- get m_ViewportWidth ;;
  h <- get m_ViewportHeight ;;
  call_Renderer_OnResize w h ;;;
  call_Camera_OnResize w h ;;;
  call_Renderer_Render ;;;
  update (with_LastRenderTime elapsed) [].

(** The "Settings" window. *)
Definition Settings_window (ui : UIInput) : App unit :=
  (if Button_Render ui then Render (Elapsed_button ui) else ret tt) ;;;
  update (with_Renderer (fun r =>
            mkRenderer (accumulationBuffer r) (finalImage r) (frameIndex r)
                       (mkSettings (ImGui_Checkbox (Accumulate (settings r))
                                                   (Checkbox_Accumulate ui))))) [] ;;;
  (if Button_Reset ui then call_ResetFrameIndex else ret tt).

(** The "Scene" window. *)
Definition Scene_window (ui : UIInput) : App unit :=
  fun l => Some (tt, with_Scene (edit_Scene ui) l, edit_Scene_log ui (m_Scene l)).

(** The "Viewport" window. *)
Definition Viewport_window (ui : UIInput) : App unit :=
  update (with_Viewport (to_uint32 (fst (ContentRegionAvail ui)))
                        (to_uint32 (snd (ContentRegionAvail ui)))) [] ;;;
  image <- call_GetFinalImage ;;
  if touched image
  then img <- deref image ;; call_ImGui_Image (Width img) (Height img)
  else ret tt.

(** [ExampleLayer::OnUIRender()].  The "Advanced Stats" window between the
    viewport and the closing [Render()] only reads [m_LastRenderTime] and
    updates function-local statistics; it touches no member and makes no
    call into the renderer, the camera or the scene. *)
Definition OnUIRender (ui : UIInput) : App unit :=
  Settings_window ui ;;;
  Scene_window ui ;;;
  Viewport_window ui ;;;
  Render (Elapsed_frame ui).

(** One application frame as the Walnut main loop runs it: the layer's
    [OnUpdate], then its [OnUIRender]. *)
Record FrameInput : Type := mkFrameInput {
  frame_ts : f32;
  frame_input : InputState;
  frame_ui : UIInput
}.

Definition frame (f : FrameInput) : App unit :=
  OnUpdate (frame_ts f) (frame_input f) ;;;
  OnUIRender (frame_ui f).

Fixpoint run (fs : list FrameInput) : App unit :=
  match fs with
  | [] => ret tt
  | f :: fs' => frame f ;;; run fs'
  end.


(** Observations of a run of a method from state [l]: whether it completes
    without an invalid access, the state it leaves, the calls it made. *)
Definition safe {A : Type} (m : App A) (l : ExampleLayer) : bool := touched (m l).
Definition exec {A : Type} (m : App A) (l : ExampleLayer) : ExampleLayer :=
  match m l with Some (_, l', _) => l' | None => l end.
Definition calls {A : Type} (m : App A) (l : ExampleLayer) : list Call :=
  match m l with Some (_, _, log) => log | None => [] end.

(** The three calls one [Render()] makes from state [l]. *)
Definition Render_calls (l : ExampleLayer) : list Call :=
  [Call_Renderer_OnResize (m_ViewportWidth l) (m_ViewportHeight l);
   Call_Camera_OnResize (m_ViewportWidth l) (m_ViewportHeight l);
   Call_Renderer_Render].

(** What the viewport window does with the handle it is given. *)
Definition present (image : option Image) : list Call :=
  match image with
  | None => [Call_GetFinalImage true]
  | Some img => [Call_GetFinalImage false; Call_ImGui_Image (Width img) (Height img)]
  end.

(** The stages of the per-frame pipeline, and the stage a call belongs to
    (resets, edits and draw commands belong to none). *)
Inductive Stage : Type :=
| Stage_Update | Stage_ResizeRenderer | Stage_ResizeCamera | Stage_Render | Stage_Expose.

Definition stage_of (c : Call) : list Stage :=
  match c with
  | Call_Camera_OnUpdate _ => [Stage_Update]
  | Call_Renderer_OnResize _ _ => [Stage_ResizeRenderer]
  | Call_Camera_OnResize _ _ => [Stage_ResizeCamera]
  | Call_Renderer_Render => [Stage_Render]
  | Call_GetFinalImage _ => [Stage_Expose]
  | _ => []
  end.

Definition stages (log : list Call) : list Stage := flat_map stage_of log.

(** The order "update, resize, render, expose", each stage once. *)
Definition update_resize_render_expose : list Stage :=
  [Stage_Update; Stage_ResizeRenderer; Stage_ResizeCamera; Stage_Render; Stage_Expose].

(** The order of calls by which a caller would reset after an edit: every
    render call that follows an edit has a [ResetFrameIndex] between the edit
    and itself; [dirty] tells whether an edit is pending.  This is a property
    of the log alone: what the accumulation buffer holds is told by the
    renderer state, not by this scan. *)
Fixpoint edits_reset_before_render (dirty : bool) (log : list Call) : bool :=
  match log with
  | [] => true
  | Call_Edit _ _ :: rest => edits_reset_before_render true rest
  | Call_ResetFrameIndex :: rest => edits_reset_before_render false rest
  | Call_Renderer_Render :: rest => negb dirty && edits_reset_before_render dirty rest
  | _ :: rest => edits_reset_before_render dirty rest
  end.

(** Every sphere's material index is an index of the material list. *)
Definition index_in_range (nmat : Z) (s : Sphere) : bool :=
  (0 <=? MaterialIndex s) && (MaterialIndex s <? nmat).
Definition indices_in_range (sc : Scene) : bool :=
  forallb (index_in_range (Z.of_nat (length (Materials sc)))) (Spheres sc).

(** The scene of the application as long as material indices are edited by
    dragging: two materials, every index in range. *)
Definition scene_invariant (sc : Scene) : Prop :=
  length (Materials sc) = 2%nat /\ indices_in_range sc = true.

(** No number is typed into the material field of a sphere, of a frame, of
    a run of frames. *)
Definition index_not_typed (d : SphereDrag) : bool :=
  match Drag_Material d with Some (Typed _) => false | _ => true end.
Definition indices_not_typed (ui : UIInput) : bool :=
  forallb index_not_typed (Drags_Spheres ui).
Definition indices_never_typed (fs : list FrameInput) : bool :=
  forallb (fun f => indices_not_typed (frame_ui f)) fs.

(** A well-formed twin of a scene: the fallback material is appended to the
    material list and every sphere whose index is out of range refers to it. *)
Definition repair_Sphere (nmat : Z) (s : Sphere) : Sphere :=
  if index_in_range nmat s then s else set_MaterialIndex nmat s.
Definition repair_Scene (sc : Scene) : Scene :=
  mkScene (map (repair_Sphere (Z.of_nat (length (Materials sc)))) (Spheres sc))
          (Materials sc ++ [default_material]).

Definition repair_hit (nmat : Z) (hit : option (f32 * Sphere)) : option (f32 * Sphere) :=
  match hit with
  | Some (t, s) => Some (t, repair_Sphere nmat s)
  | None => None
  end.

(** [m_LastRenderTime] as the "Advanced Stats" window reads it into
    [frameTime]: after the viewport window, before the closing [Render()]. *)
Definition stats_frameTime (ui : UIInput) (l : ExampleLayer) : f32 :=
  m_LastRenderTime
    (exec (Settings_window ui ;;; Scene_window ui ;;; Viewport_window ui) l).

(** The frame times the window reads over successive frames. *)
Fixpoint stats_frameTimes (fs : list FrameInput) (l : ExampleLayer) : list f32 :=
  match fs with
  | [] => []
  | f :: fs' =>
      stats_frameTime (frame_ui f) (exec (OnUpdate (frame_ts f) (frame_input f)) l)
      :: stats_frameTimes fs' (exec (frame f) l)
  end.

(** The timer readings of the frames, each delayed to the next frame:
    a frame shows the reading of its Render button's pass when the button is
    pressed and the reading [previous] of the pass that closed the frame
    before it otherwise. *)
Fixpoint delayed_readings (previous : f32) (fs : list FrameInput) : list f32 :=
  match fs with
  | [] => []
  | f :: fs' =>
      (if Button_Render (frame_ui f) then Elapsed_button (frame_ui f) else previous)
      :: delayed_readings (Elapsed_frame (frame_ui f)) fs'
  end.

(** ** Properties *)

(** *** binary32 numbers of the unit interval *)

Lemma shr_1_nonneg (mrs : shr_record) : 0 <= shr_m mrs -> 0 <= shr_m (shr_1 mrs).
Proof.
  destruct mrs as [m r s]. cbn [shr_m]. intros H.
  destruct m as [|p|p]; [cbn; lia| |lia].
  destruct p; cbn; lia.
Qed.

Lemma iter_pos_invariant {A : Type} (f : A -> A) (P : A -> Prop)
      (Hf : forall a, P a -> P (f a)) (p : positive) :
  forall a, P a -> P (iter_pos f p a).
Proof. induction p as [p IH|p IH|]; intros a Ha; cbn; auto. Qed.

Lemma shr_fexp_nonneg (prec emax m e : Z) (l : location) :
  0 <= m -> 0 <= shr_m (fst (shr_fexp prec emax m e l)).
Proof.
  intros H. unfold shr_fexp, shr.
  assert (H0 : 0 <= shr_m (shr_record_of_loc m l)).
  { destruct l as [|[]]; exact H. }
  destruct (fexp prec emax (Zdigits2 m + e) - e) as [|p|p]; cbn [fst]; try exact H0.
  apply (iter_pos_invariant shr_1 (fun mrs => 0 <= shr_m mrs)); [apply shr_1_nonneg|exact H0].
Qed.

Lemma round_nearest_even_nonneg (m : Z) (l : location) :
  0 <= m -> 0 <= round_nearest_even m l.
Proof.
  intros H. unfold round_nearest_even.
  destruct l as [|[]]; try lia. destruct (Z.even m); lia.
Qed.

Lemma digits2_pos_lower (p : positive) : 2 ^ (Zpos (digits2_pos p) - 1) <= Zpos p.
Proof.
  induction p as [p IH|p IH|]; cbn [digits2_pos]; [| |cbn; lia].
  - rewrite Pos2Z.inj_succ. replace (Z.succ (Zpos (digits2_pos p)) - 1)
      with (Z.succ (Zpos (digits2_pos p) - 1)) by lia.
    rewrite Z.pow_succ_r by lia. lia.
  - rewrite Pos2Z.inj_succ. replace (Z.succ (Zpos (digits2_pos p)) - 1)
      with (Z.succ (Zpos (digits2_pos p) - 1)) by lia.
    rewrite Z.pow_succ_r by lia. lia.
Qed.

Lemma digits2_pos_upper (p : positive) : Zpos p < 2 ^ Zpos (digits2_pos p).
Proof.
  induction p as [p IH|p IH|]; cbn [digits2_pos]; [| |cbn; lia].
  - rewrite Pos2Z.inj_succ, Z.pow_succ_r by lia. lia.
  - rewrite Pos2Z.inj_succ, Z.pow_succ_r by lia. lia.
Qed.

(** The digits of a mantissa below [2^k]. *)
Lemma Zdigits2_le (m k : Z) : 0 <= m -> 0 <= k -> m <= 2 ^ k -> Zdigits2 m <= k + 1.
Proof.
  intros Hm Hk H. destruct m as [|p|p]; cbn [Zdigits2]; [lia| |lia].
  pose proof (digits2_pos_lower p) as L.
  destruct (Z_le_gt_dec (Zpos (digits2_pos p)) (k + 1)) as [|G]; [assumption|].
  assert (2 ^ (k + 1) <= 2 ^ (Zpos (digits2_pos p) - 1)) by (apply Z.pow_le_mono_r; lia).
  rewrite Z.pow_add_r in * by lia. lia.
Qed.

Lemma iter_pos_count {A : Type} (f : A -> A) (P : nat -> A -> Prop)
      (Hf : forall k a, P k a -> P (S k) (f a)) (p : positive) :
  forall k a, P k a -> P (k + Pos.to_nat p)%nat (iter_pos f p a).
Proof.
  induction p as [p IH|p IH|]; intros k a H; cbn [iter_pos].
  - rewrite Pos2Nat.inj_xI.
    replace (k + S (2 * Pos.to_nat p))%nat with (S k + Pos.to_nat p + Pos.to_nat p)%nat by lia.
    apply IH, IH, Hf, H.
  - rewrite Pos2Nat.inj_xO.
    replace (k + 2 * Pos.to_nat p)%nat with (k + Pos.to_nat p + Pos.to_nat p)%nat by lia.
    apply IH, IH, H.
  - replace (k + Pos.to_nat 1)%nat with (S k) by lia. apply Hf, H.
Qed.

Lemma shr_1_shifted (m0 : Z) (k : nat) (mrs : shr_record) :
  shifted m0 k mrs -> shifted m0 (S k) (shr_1 mrs).
Proof.
  unfold shifted. rewrite Nat2Z.inj_succ, Z.pow_succ_r by lia.
  assert (0 < 2 ^ Z.of_nat k) by (apply Z.pow_pos_nonneg; lia).
  destruct mrs as [m r s]. cbn [shr_m shr_r shr_s]. intros (H0 & H1 & H2).
  destruct m as [|[p|p|]|p]; cbn [shr_1 shr_m shr_r shr_s]; try lia.
  all: repeat split; try lia.
  all: try (intros Hrs; try rewrite orb_false_l in Hrs; try rewrite Hrs in H2; try specialize (H2 eq_refl); lia).
Qed.

Lemma shr_shifted (m e n : Z) :
  0 <= m ->
  let mrs := fst (shr (Build_shr_record m false false) e n) in
  let e' := snd (shr (Build_shr_record m false false) e n) in
  0 <= shr_m mrs /\ e' = e + Z.max 0 n /\
  shr_m mrs * 2 ^ (e' - e) <= m /\
  (loc_of_shr_record mrs <> loc_Exact -> shr_m mrs * 2 ^ (e' - e) < m).
Proof.
  intros Hm. destruct n as [|p|p]; cbn [shr fst snd].
  - rewrite Z.add_0_r, Z.sub_diag. cbn [shr_m loc_of_shr_record Z.pow]. 
    repeat split; try lia. intros H. now contradiction H.
  - pose proof (iter_pos_count shr_1 (shifted m) (shr_1_shifted m) p 0
                  (Build_shr_record m false false)) as H.
    cbn [Nat.add] in H.
    assert (Hb : shifted m 0 (Build_shr_record m false false)).
    { unfold shifted. cbn. repeat split; try lia. }
    specialize (H Hb). unfold shifted in H. rewrite positive_nat_Z in H.
    destruct H as (H0 & H1 & H2).
    replace (e + Z.pos p - e) with (Z.pos p) by lia.
    repeat split; try lia. intros Hl. apply H2.
    destruct (iter_pos shr_1 p _) as [m' [] []]; cbn in *; try reflexivity.
    now contradiction Hl.
  - rewrite Z.add_0_r, Z.sub_diag. cbn [shr_m loc_of_shr_record Z.pow].
    repeat split; try lia. intros H. now contradiction H.
Qed.

(** A right shift to the format keeps a mantissa of [[0,1]] in [[0,1]]. *)
Lemma shr_fexp_unit (m e : Z) :
  0 <= m -> e <= 0 -> m <= 2 ^ (- e) ->
  let mrs := fst (shr_fexp 24 128 m e loc_Exact) in
  let e' := snd (shr_fexp 24 128 m e loc_Exact) in
  0 <= shr_m mrs /\ e' <= 0 /\ shr_m mrs <= 2 ^ (- e') /\
  (loc_of_shr_record mrs <> loc_Exact -> shr_m mrs < 2 ^ (- e')).
Proof.
  intros Hm He Hb. unfold shr_fexp. cbn [shr_record_of_loc].
  pose proof (Zdigits2_le m (- e) Hm ltac:(lia) Hb) as Hd.
  set (n := fexp 24 128 (Zdigits2 m + e) - e).
  assert (Hn : e + Z.max 0 n <= 0).
  { unfold n, fexp, emin. lia. }
  destruct (shr_shifted m e n Hm) as (H0 & He' & H1 & H2).
  cbv zeta. rewrite He' in *.
  replace (e + Z.max 0 n - e) with (Z.max 0 n) in * by lia.
  assert (Hp : 2 ^ (- e) = 2 ^ (- (e + Z.max 0 n)) * 2 ^ Z.max 0 n).
  { rewrite <- Z.pow_add_r by lia. f_equal. lia. }
  assert (0 < 2 ^ Z.max 0 n) by (apply Z.pow_pos_nonneg; lia).
  repeat split; try lia; try nia.
  intros Hl. specialize (H2 Hl). nia.
Qed.

Lemma round_nearest_even_le (m : Z) (l : location) :
  m <= round_nearest_even m l <= m + 1 /\
  (l = loc_Exact -> round_nearest_even m l = m).
Proof.
  unfold round_nearest_even. destruct l as [|[]]; try destruct (Z.even m); split; try lia;
    try reflexivity; discriminate.
Qed.

(** Rounding a mantissa of [[0,1]] yields a number of [[0,1]]. *)
Lemma binary_round_aux_unit (s : bool) (m e : Z) :
  0 <= m -> e <= 0 -> m <= 2 ^ (- e) ->
  match binary_round_aux 24 128 s m e loc_Exact with
  | S754_zero s' => s' = s
  | S754_finite s' m' e' => s' = s /\ e' <= 0 /\ Zpos m' <= 2 ^ (- e')
  | _ => False
  end.
Proof.
  intros Hm He Hb. unfold binary_round_aux.
  pose proof (shr_fexp_unit m e Hm He Hb) as H1. cbv zeta in H1.
  destruct (shr_fexp 24 128 m e loc_Exact) as [mrs' e']. cbn [fst snd] in H1.
  destruct H1 as (H0 & He' & Hb' & Hl').
  pose proof (round_nearest_even_le (shr_m mrs') (loc_of_shr_record mrs')) as [Hr Hx].
  assert (Hb1 : round_nearest_even (shr_m mrs') (loc_of_shr_record mrs') <= 2 ^ (- e')).
  { destruct (loc_of_shr_record mrs') eqn:El.
    - rewrite Hx by reflexivity. exact Hb'.
    - assert (shr_m mrs' < 2 ^ (- e')) by (apply Hl'; discriminate). lia. }
  assert (H01 : 0 <= round_nearest_even (shr_m mrs') (loc_of_shr_record mrs')) by lia.
  pose proof (shr_fexp_unit _ e' H01 He' Hb1) as H2. cbv zeta in H2.
  destruct (shr_fexp 24 128 _ e' loc_Exact) as [mrs'' e'']. cbn [fst snd] in H2.
  destruct H2 as (H0' & He'' & Hb'' & _).
  destruct (shr_m mrs'') as [|p|p]; [reflexivity| |lia].
  destruct (e'' <=? 128 - 24) eqn:E; [repeat split; assumption|].
  apply Z.leb_gt in E. lia.
Qed.

Lemma unit_interval_mul (x y : f32) :
  unit_interval x = true -> unit_interval y = true -> unit_interval (f32_mul x y) = true.
Proof.
  destruct x as [sx|sx| |[] mx ex], y as [sy|sy| |[] my ey]; cbn [unit_interval];
    try discriminate; try reflexivity.
  intros Hx Hy. apply andb_prop in Hx as [Hex Hmx], Hy as [Hey Hmy].
  apply Z.leb_le in Hex, Hmx, Hey, Hmy.
  unfold f32_mul, SFmul. cbn [xorb].
  assert (Hb : Zpos (mx * my) <= 2 ^ (- (ex + ey))).
  { replace (- (ex + ey)) with (- ex + - ey) by lia. rewrite Z.pow_add_r by lia.
    rewrite Pos2Z.inj_mul. apply Z.mul_le_mono_nonneg; lia. }
  pose proof (binary_round_aux_unit false (Zpos (mx * my)) (ex + ey) ltac:(lia) ltac:(lia) Hb)
    as H.
  destruct (binary_round_aux 24 128 false _ _ loc_Exact) as [s|s| |s m e];
    try contradiction; [reflexivity|].
  destruct H as (-> & He & Hm). cbn [unit_interval].
  apply andb_true_intro. split; [now apply Z.leb_le|now apply Z.leb_le].
Qed.

(** *** Signs, sums, quotients and counts *)

(** Rounding a non-negative mantissa keeps the sign it is given. *)
Lemma binary_round_aux_sign (prec emax : Z) (sx : bool) (mx ex : Z) (lx : location) :
  0 <= mx ->
  match binary_round_aux prec emax sx mx ex lx with
  | S754_zero s | S754_infinity s | S754_finite s _ _ => s = sx
  | S754_nan => False
  end.
Proof.
  intros H. unfold binary_round_aux.
  pose proof (shr_fexp_nonneg prec emax mx ex lx H) as H1.
  destruct (shr_fexp prec emax mx ex lx) as [mrs' e']. cbn [fst] in H1.
  pose proof (shr_fexp_nonneg prec emax _ e' loc_Exact
                (round_nearest_even_nonneg _ (loc_of_shr_record mrs') H1)) as H2.
  destruct (shr_fexp prec emax _ e' loc_Exact) as [mrs'' e'']. cbn [fst] in H2.
  destruct (shr_m mrs'') as [|p|p]; [reflexivity| |lia].
  destruct (e'' <=? emax - prec); reflexivity.
Qed.

Lemma unit_interval_not_negative (x : f32) :
  unit_interval x = true -> not_negative x = true.
Proof. destruct x as [s|s| |[] m e]; cbn; congruence. Qed.

Lemma not_negative_not_nan (x : f32) : not_negative x = true -> is_nan x = false.
Proof. destruct x as [s|s| |s m e]; cbn; congruence. Qed.

Lemma not_negative_add (x y : f32) :
  not_negative x = true -> not_negative y = true -> not_negative (f32_add x y) = true.
Proof.
  destruct x as [sx|[]| |[] mx ex], y as [sy|[]| |[] my ey]; cbn [not_negative];
    try discriminate; try reflexivity; intros _ _.
  - destruct sx, sy; reflexivity.
  - unfold f32_add, SFadd. cbn [cond_Zopp Z.add binary_normalize].
    unfold binary_round.
    destruct (shl_align _ _ _) as [mz ez].
    pose proof (binary_round_aux_sign 24 128 false (Zpos mz) ez loc_Exact ltac:(lia)) as H.
    destruct (binary_round_aux 24 128 false (Zpos mz) ez loc_Exact) as [s|s| |s m e];
      try contradiction; subst; reflexivity.
Qed.

Lemma unit_interval_add_zero (x : f32) :
  unit_interval x = true -> unit_interval (f32_add (S754_zero false) x) = true.
Proof. destruct x as [[]|s| |[] m e]; cbn; congruence. Qed.

Lemma Z_div_eucl_nonneg (a b : Z) : 0 <= a -> 0 < b -> 0 <= fst (Z.div_eucl a b).
Proof. intros Ha Hb. change (fst (Z.div_eucl a b)) with (a / b). now apply Z.div_pos. Qed.

Lemma not_negative_div (x : f32) (m : positive) (e : Z) :
  not_negative x = true -> not_negative (f32_div x (S754_finite false m e)) = true.
Proof.
  destruct x as [sx|[]| |[] mx ex]; cbn [not_negative]; try discriminate; try reflexivity.
  intros _. unfold f32_div, SFdiv, SFdiv_core_binary. cbn [xorb].
  set (m' := match _ - _ - _ with Z0 => Zpos mx | Zpos _ => Z.shiftl (Zpos mx) _ | Zneg _ => 0 end).
    assert (Hm' : 0 <= m').
    { unfold m'. destruct (_ - _ - _); try lia. apply Z.shiftl_nonneg. lia. }
    pose proof (Z_div_eucl_nonneg m' (Zpos m) Hm' ltac:(lia)) as Hq.
    destruct (Z.div_eucl m' (Zpos m)) as [q r]. cbn [fst] in Hq.
    pose proof (binary_round_aux_sign 24 128 false q
                  (Z.min (fexp 24 128 (Zdigits2 (Zpos mx) + ex - (Zdigits2 (Zpos m) + e))) (ex - e))
                  (new_location (Zpos m) r) Hq) as H.
    destruct (binary_round_aux _ _ _ _ _ _) as [s|s| |s m0 e0]; try contradiction; subst;
      reflexivity.
Qed.

(** *** Frame counts as binary32 values *)

Lemma digits2_pos_iter_xO (p k : positive) :
  Zpos (digits2_pos (Pos.iter xO p k)) = Zpos (digits2_pos p) + Zpos k.
Proof.
  induction k as [|k IH] using Pos.peano_ind.
  - cbn [Pos.iter digits2_pos]. lia.
  - rewrite Pos.iter_succ. cbn [digits2_pos]. lia.
Qed.

Lemma binary_round_aux_canonical (s : bool) (m : positive) (e : Z) :
  fexp 24 128 (Zpos (digits2_pos m) + e) = e -> e <= 104 ->
  binary_round_aux 24 128 s (Zpos m) e loc_Exact = S754_finite s m e.
Proof.
  intros Hc He.
  assert (E : shr_fexp 24 128 (Zpos m) e loc_Exact = (Build_shr_record (Zpos m) false false, e)).
  { unfold shr_fexp. cbn [Zdigits2]. rewrite Hc, Z.sub_diag. reflexivity. }
  unfold binary_round_aux. rewrite E. cbn [shr_m loc_of_shr_record round_nearest_even].
  rewrite E. cbn [shr_m].
  destruct (e <=? 128 - 24) eqn:L; [reflexivity|]. apply Z.leb_gt in L. lia.
Qed.

(** A count from 1 up to [2^24] is a finite positive binary32 value. *)
Lemma f32_of_Z_count (n : Z) :
  1 <= n < 2 ^ 24 -> exists m e, f32_of_Z n = S754_finite false m e.
Proof.
  intros Hn. destruct n as [|p|p]; try lia.
  unfold f32_of_Z, binary_normalize, binary_round.
  pose proof (digits2_pos_lower p) as L.
  assert (Hd : 1 <= Zpos (digits2_pos p) <= 24).
  { split; [lia|]. destruct (Z_le_gt_dec (Zpos (digits2_pos p)) 24) as [|G]; [assumption|].
    assert (2 ^ 24 <= 2 ^ (Zpos (digits2_pos p) - 1)) by (apply Z.pow_le_mono_r; lia). lia. }
  assert (Hf : fexp 24 128 (Zpos (digits2_pos p) + 0) = Zpos (digits2_pos p) - 24).
  { unfold fexp, emin. lia. }
  rewrite Hf. unfold shl_align.
  destruct (Zpos (digits2_pos p) - 24 - 0) as [|k|k] eqn:E; try lia.
  - exists p, 0. apply binary_round_aux_canonical; [|lia]. rewrite Hf. lia.
  - exists (Pos.iter xO p k), (Zpos (digits2_pos p) - 24).
    apply binary_round_aux_canonical; [|lia].
    rewrite digits2_pos_iter_xO. unfold fexp, emin. lia.
Qed.

Lemma clamp01_not_nan (x : f32) : is_nan x = false -> is_nan (clamp01 x) = false.
Proof.
  intros H. unfold clamp01.
  destruct (f32_ltb x f32_zero); [reflexivity|].
  destruct (f32_ltb f32_one x); [reflexivity|exact H].
Qed.

(** *** binary32 literals *)

(** The literals of the source file as sign, mantissa and exponent. *)
Lemma f32_literals :
  f32_of_Q 1.0 = S754_finite false 8388608 (-23) /\
  f32_of_Q 0.0 = S754_zero false /\
  f32_of_Q 0.2 = S754_finite false 13421773 (-26) /\
  f32_of_Q 0.3 = S754_finite false 10066330 (-25) /\
  f32_of_Q 0.1 = S754_finite false 13421773 (-27) /\
  f32_of_Q (-101.0) = S754_finite true 13238272 (-17) /\
  f32_of_Q 100.0 = S754_finite false 13107200 (-17) /\
  f32_of_Q 0.5 = S754_finite false 8388608 (-24).
Proof. repeat split; reflexivity. Qed.

(** *** Running a method *)

Lemma Render_runs (elapsed : f32) (l : ExampleLayer) :
  Render elapsed l =
  Some (tt,
        with_LastRenderTime elapsed
          (with_Renderer (Renderer_Render (m_Scene l)
                            (Camera_OnResize (m_ViewportWidth l) (m_ViewportHeight l)
                                             (m_Camera l)))
             (with_Camera (Camera_OnResize (m_ViewportWidth l) (m_ViewportHeight l))
                (with_Renderer (Renderer_OnResize (m_ViewportWidth l) (m_ViewportHeight l))
                               l))),
        [Call_Renderer_OnResize (m_ViewportWidth l) (m_ViewportHeight l);
         Call_Camera_OnResize (m_ViewportWidth l) (m_ViewportHeight l);
         Call_Renderer_Render]).
Proof. reflexivity. Qed.

Lemma seq_safe {B : Type} (m : App unit) (k : App B) (l : ExampleLayer) :
  safe m l = true -> safe (m ;;; k) l = safe k (exec m l).
Proof.
  unfold safe, exec, bind. destruct (m l) as [[[[] l1] log1]|]; [|discriminate].
  intros _. destruct (k l1) as [[[b l2] log2]|]; reflexivity.
Qed.

Lemma seq_exec {B : Type} (m : App unit) (k : App B) (l : ExampleLayer) :
  safe m l = true -> safe k (exec m l) = true ->
  exec (m ;;; k) l = exec k (exec m l).
Proof.
  unfold safe, exec, bind. destruct (m l) as [[[[] l1] log1]|]; [|discriminate].
  intros _. destruct (k l1) as [[[b l2] log2]|]; [reflexivity|discriminate].
Qed.

Lemma seq_calls {B : Type} (m : App unit) (k : App B) (l : ExampleLayer) :
  safe m l = true -> safe k (exec m l) = true ->
  calls (m ;;; k) l = calls m l ++ calls k (exec m l).
Proof.
  unfold safe, exec, calls, bind. destruct (m l) as [[[[] l1] log1]|]; [|discriminate].
  intros _. destruct (k l1) as [[[b l2] log2]|]; [reflexivity|discriminate].
Qed.

Lemma Render_safe (elapsed : f32) (l : ExampleLayer) : safe (Render elapsed) l = true.
Proof. reflexivity. Qed.

Lemma Render_calls_eq (elapsed : f32) (l : ExampleLayer) :
  calls (Render elapsed) l = Render_calls l.
Proof. reflexivity. Qed.

Lemma Settings_window_safe (ui : UIInput) (l : ExampleLayer) :
  safe (Settings_window ui) l = true.
Proof.
  unfold Settings_window. destruct (Button_Render ui), (Button_Reset ui); reflexivity.
Qed.

Lemma Settings_window_calls (ui : UIInput) (l : ExampleLayer) :
  calls (Settings_window ui) l =
    (if Button_Render ui then Render_calls l else []) ++
    (if Button_Reset ui then [Call_ResetFrameIndex] else []).
Proof.
  unfold Settings_window. destruct (Button_Render ui), (Button_Reset ui); reflexivity.
Qed.

Lemma Settings_window_Scene (ui : UIInput) (l : ExampleLayer) :
  m_Scene (exec (Settings_window ui) l) = m_Scene l.
Proof.
  unfold Settings_window. destruct (Button_Render ui), (Button_Reset ui); reflexivity.
Qed.

Lemma Scene_window_safe (ui : UIInput) (l : ExampleLayer) :
  safe (Scene_window ui) l = true.
Proof. reflexivity. Qed.

Lemma Viewport_window_safe (ui : UIInput) (l : ExampleLayer) :
  safe (Viewport_window ui) l = true.
Proof.
  unfold safe, Viewport_window, bind, update, call_GetFinalImage, Renderer_GetFinalImage.
  cbn. destruct (finalImage (m_Renderer l)); reflexivity.
Qed.

Lemma Viewport_window_calls (ui : UIInput) (l : ExampleLayer) :
  calls (Viewport_window ui) l = present (Renderer_GetFinalImage (m_Renderer l)).
Proof.
  unfold calls, Viewport_window, bind, update, call_GetFinalImage, Renderer_GetFinalImage.
  cbn. destruct (finalImage (m_Renderer l)); reflexivity.
Qed.

Lemma Viewport_window_exec (ui : UIInput) (l : ExampleLayer) :
  exec (Viewport_window ui) l =
    with_Viewport (to_uint32 (fst (ContentRegionAvail ui)))
                  (to_uint32 (snd (ContentRegionAvail ui))) l.
Proof.
  unfold exec, Viewport_window, bind, update, call_GetFinalImage, Renderer_GetFinalImage.
  cbn. destruct (finalImage (m_Renderer l)); reflexivity.
Qed.

Lemma OnUIRender_safe (ui : UIInput) (l : ExampleLayer) :
  safe (OnUIRender ui) l = true.
Proof.
  unfold OnUIRender.
  rewrite seq_safe by apply Settings_window_safe.
  rewrite seq_safe by apply Scene_window_safe.
  rewrite seq_safe by apply Viewport_window_safe.
  apply Render_safe.
Qed.

(** The state in which each window of [OnUIRender] starts. *)
Lemma OnUIRender_calls (ui : UIInput) (l : ExampleLayer) :
  let l1 := exec (Settings_window ui) l in
  let l2 := exec (Scene_window ui) l1 in
  let l3 := exec (Viewport_window ui) l2 in
  calls (OnUIRender ui) l =
    calls (Settings_window ui) l ++ edit_Scene_log ui (m_Scene l) ++
    present (Renderer_GetFinalImage (m_Renderer l1)) ++ Render_calls l3 /\
  exec (OnUIRender ui) l = exec (Render (Elapsed_frame ui)) l3.
Proof.
  intros l1 l2 l3. unfold OnUIRender.
  assert (S3 : safe (Viewport_window ui ;;; Render (Elapsed_frame ui)) l2 = true).
  { rewrite seq_safe by apply Viewport_window_safe. apply Render_safe. }
  assert (S2 : safe (Scene_window ui ;;; Viewport_window ui ;;; Render (Elapsed_frame ui)) l1
               = true).
  { rewrite seq_safe by apply Scene_window_safe. exact S3. }
  split.
  - rewrite seq_calls by (apply Settings_window_safe || exact S2).
    fold l1. rewrite seq_calls by (apply Scene_window_safe || exact S3).
    fold l2. rewrite seq_calls by (apply Viewport_window_safe || apply Render_safe).
    fold l3. rewrite Viewport_window_calls, Render_calls_eq.
    replace (calls (Scene_window ui) l1) with (edit_Scene_log ui (m_Scene l1)) by reflexivity.
    unfold l1 at 1. rewrite Settings_window_Scene. reflexivity.
  - rewrite seq_exec by (apply Settings_window_safe || exact S2).
    fold l1. rewrite seq_exec by (apply Scene_window_safe || exact S3).
    fold l2. rewrite seq_exec by (apply Viewport_window_safe || apply Render_safe).
    reflexivity.
Qed.

(** The scene editor logs edits and nothing else. *)
Lemma edit_log_only_edits {A : Type} (f : Field) (i : nat) (d : option A) :
  forallb is_edit (edit_log f i d) = true.
Proof. destruct d; reflexivity. Qed.

Lemma for_each_log_only_edits {A D : Type} (none : D) (log : nat -> D -> list Call)
      (Hlog : forall i d, forallb is_edit (log i d) = true)
      (v : list A) : forall (i : nat) (ds : list D),
  forallb is_edit (for_each_log none log i ds v) = true.
Proof.
  induction v as [|a v IH]; intros i ds; cbn [for_each_log]; [reflexivity|].
  rewrite forallb_app, Hlog, IH. reflexivity.
Qed.

Lemma edit_Scene_log_only_edits (ui : UIInput) (sc : Scene) :
  forallb is_edit (edit_Scene_log ui sc) = true.
Proof.
  unfold edit_Scene_log. rewrite forallb_app.
  rewrite !for_each_log_only_edits; [reflexivity| |].
  - intros i d. unfold edit_Material_log. now rewrite !forallb_app, !edit_log_only_edits.
  - intros i d. unfold edit_Sphere_log. now rewrite !forallb_app, !edit_log_only_edits.
Qed.

Lemma only_edits_no (p : Call -> bool) (Hp : forall c, is_edit c = true -> p c = false)
      (log : list Call) :
  forallb is_edit log = true -> existsb p log = false.
Proof.
  induction log as [|c log IH]; cbn; [reflexivity|].
  intros H. apply andb_prop in H as [Hc Hl]. now rewrite (Hp c Hc), IH.
Qed.

Lemma only_edits_no_draw (log : list Call) :
  forallb is_edit log = true -> existsb is_draw log = false.
Proof. apply only_edits_no. now intros []. Qed.

Lemma only_edits_no_reset (log : list Call) :
  forallb is_edit log = true -> existsb is_reset log = false.
Proof. apply only_edits_no. now intros []. Qed.

Lemma only_edits_no_render (log : list Call) :
  forallb is_edit log = true -> existsb is_render log = false.
Proof. apply only_edits_no. now intros []. Qed.

(** *** The camera signal and the accumulated samples *)

Lemma OnUpdate_runs (ts : f32) (inp : InputState) (l : ExampleLayer) :
  let changed := snd (Camera_OnUpdate ts inp (m_Camera l)) in
  safe (OnUpdate ts inp) l = true /\
  calls (OnUpdate ts inp) l =
    Call_Camera_OnUpdate changed :: (if changed then [Call_ResetFrameIndex] else []) /\
  m_Renderer (exec (OnUpdate ts inp) l) =
    (if changed then Renderer_ResetFrameIndex (m_Renderer l) else m_Renderer l) /\
  m_Scene (exec (OnUpdate ts inp) l) = m_Scene l /\
  m_ViewportWidth (exec (OnUpdate ts inp) l) = m_ViewportWidth l /\
  m_ViewportHeight (exec (OnUpdate ts inp) l) = m_ViewportHeight l.
Proof.
  unfold safe, exec, calls, OnUpdate, bind, call_Camera_OnUpdate.
  destruct (Camera_OnUpdate ts inp (m_Camera l)) as [c [|]]; cbn; auto 10.
Qed.

(** C1. On every update tick the layer calls [ResetFrameIndex] exactly when
    [Camera::OnUpdate] returned [true]; when it returned [false] the renderer
    (accumulation buffer, frame index, image) is left as it was. *)
Theorem OnUpdate_resets_iff_camera_changed
        (ts : f32) (inp : InputState) (l : ExampleLayer) :
  let changed := snd (Camera_OnUpdate ts inp (m_Camera l)) in
  safe (OnUpdate ts inp) l = true /\
  calls (OnUpdate ts inp) l =
    Call_Camera_OnUpdate changed :: (if changed then [Call_ResetFrameIndex] else []) /\
  existsb is_reset (calls (OnUpdate ts inp) l) = changed /\
  m_Renderer (exec (OnUpdate ts inp) l) =
    (if changed then Renderer_ResetFrameIndex (m_Renderer l) else m_Renderer l).
Proof.
  intros changed.
  destruct (OnUpdate_runs ts inp l) as (Hs & Hc & Hr & _).
  fold changed in Hc, Hr.
  repeat split; try assumption.
  rewrite Hc. destruct changed; reflexivity.
Qed.

(** *** The initial scene *)

(** C4. The constructor builds exactly two spheres and two materials: the
    unit sphere at the origin with material 0 (albedo (1,0,1), roughness 0)
    and the ground sphere at (0,-101,0) of radius 100 with material 1
    (albedo (0.2,0.3,1), roughness 0.1). *)
Theorem ExampleLayer_ctor_scene :
  let sc := m_Scene ExampleLayer_ctor in
  Spheres sc = [ mkSphere (lit3 0 0 0) (f32_of_Q 1) 0;
                 mkSphere (lit3 0 (-101) 0) (f32_of_Q 100) 1 ] /\
  map Albedo (Materials sc) = [ lit3 1 0 1; lit3 0.2 0.3 1 ] /\
  map Roughness (Materials sc) = [ f32_of_Q 0; f32_of_Q 0.1 ] /\
  length (Spheres sc) = 2%nat /\ length (Materials sc) = 2%nat /\
  map (fun s => Albedo (material_at sc (MaterialIndex s))) (Spheres sc) =
    [ lit3 1 0 1; lit3 0.2 0.3 1 ] /\
  map (fun s => Roughness (material_at sc (MaterialIndex s))) (Spheres sc) =
    [ f32_of_Q 0; f32_of_Q 0.1 ].
Proof. cbv zeta. repeat split; reflexivity. Qed.

(** *** The frame index *)

Lemma Render_settings (sc : Scene) (cam : Camera) (r : Renderer) :
  settings (Renderer_Render sc cam r) = settings r.
Proof. reflexivity. Qed.

Lemma Render_iter_settings (sc : Scene) (cam : Camera) (r : Renderer) (n : nat) :
  settings (Nat.iter n (Renderer_Render sc cam) r) = settings r.
Proof.
  induction n as [|n IH]; [reflexivity|].
  now rewrite Nat.iter_succ, Render_settings.
Qed.

Lemma Render_step_frameIndex (sc : Scene) (cam : Camera) (r : Renderer) :
  frameIndex (Renderer_Render sc cam r) =
    if Accumulate (settings r) then frameIndex r + 1 else 1.
Proof. reflexivity. Qed.

Lemma Render_iter_frameIndex (sc : Scene) (cam : Camera) (r : Renderer) (n : nat) :
  frameIndex (Nat.iter n (Renderer_Render sc cam) r) =
    if Accumulate (settings r) then frameIndex r + Z.of_nat n
    else match n with O => frameIndex r | S _ => 1 end.
Proof.
  induction n as [|n IH].
  - cbn. destruct (Accumulate (settings r)); lia.
  - rewrite Nat.iter_succ, Render_step_frameIndex, Render_iter_settings, IH.
    destruct (Accumulate (settings r)); [lia|reflexivity].
Qed.

(** C5. A render call leaves [frameIndex] one higher when accumulation is on
    and at 1 when it is off; hence [n] accumulating calls that start from
    frame index 1 end at [n + 1]. *)
Theorem Render_frameIndex (sc : Scene) (cam : Camera) (r : Renderer) (n : nat) :
  frameIndex (Renderer_Render sc cam r) =
    (if Accumulate (settings r) then frameIndex r + 1 else 1) /\
  frameIndex (Nat.iter (S n) (Renderer_Render sc cam) r) =
    (if Accumulate (settings r) then frameIndex r + Z.of_nat (S n) else 1) /\
  frameIndex (Nat.iter n (Renderer_Render sc cam) (Renderer_ResetFrameIndex r)) =
    (if Accumulate (settings r) then Z.of_nat n + 1 else 1).
Proof.
  split; [reflexivity|]. split.
  - apply Render_iter_frameIndex.
  - rewrite Render_iter_frameIndex. cbn [Renderer_ResetFrameIndex settings frameIndex].
    destruct (Accumulate (settings r)); [lia|]. destruct n; reflexivity.
Qed.

(** *** Resizing *)

(** C7. A resize of the renderer or of the camera with a zero or negative
    dimension, or with the dimensions already in place, returns the object
    unchanged (buffers keep size and contents) and allocates nothing; no
    resize ever allocates a buffer of size zero; and a [Render()] of the layer
    whose viewport has a zero dimension passes camera and renderer on to the
    pass as they were. *)
Theorem resize_noop (w h : Z) (r : Renderer) (c : Camera)
        (elapsed : f32) (l : ExampleLayer) :
  (w <= 0 \/ h <= 0 \/
   (exists img, finalImage r = Some img /\ Width img = w /\ Height img = h) ->
   Renderer_OnResize_alloc w h r = (r, []) /\ Renderer_OnResize w h r = r) /\
  (w <= 0 \/ h <= 0 \/ (viewportWidth c = w /\ viewportHeight c = h) ->
   Camera_OnResize_alloc w h c = (c, []) /\ Camera_OnResize w h c = c) /\
  (forall n, In n (snd (Renderer_OnResize_alloc w h r)) \/
             In n (snd (Camera_OnResize_alloc w h c)) -> 0 < n) /\
  (m_ViewportWidth l <= 0 \/ m_ViewportHeight l <= 0 ->
   m_Camera (exec (Render elapsed) l) = m_Camera l /\
   m_Renderer (exec (Render elapsed) l) =
     Renderer_Render (m_Scene l) (m_Camera l) (m_Renderer l)).
Proof.
  assert (HR : forall w h r,
             w <= 0 \/ h <= 0 \/
             (exists img, finalImage r = Some img /\ Width img = w /\ Height img = h) ->
             Renderer_OnResize_alloc w h r = (r, [])).
  { clear. intros w h r H. unfold Renderer_OnResize_alloc.
    destruct (w <=? 0) eqn:Hw; [reflexivity|].
    destruct (h <=? 0) eqn:Hh; [reflexivity|]. cbn [orb].
    destruct H as [H|[H|(img & Hi & Hiw & Hih)]]; try lia.
    rewrite Hi. cbn [same_size]. subst w h. now rewrite !Z.eqb_refl. }
  assert (HC : forall w h c,
             w <= 0 \/ h <= 0 \/ (viewportWidth c = w /\ viewportHeight c = h) ->
             Camera_OnResize_alloc w h c = (c, [])).
  { clear HR. intros w' h' c' H. unfold Camera_OnResize_alloc.
    destruct (w' <=? 0) eqn:Hw; [reflexivity|].
    destruct (h' <=? 0) eqn:Hh; [reflexivity|]. cbn [orb].
    destruct H as [H|[H|[Hcw Hch]]]; try lia.
    subst w' h'. now rewrite !Z.eqb_refl. }
  split; [|split; [|split]].
  - intros H. unfold Renderer_OnResize. now rewrite (HR w h r H).
  - intros H. unfold Camera_OnResize. now rewrite (HC w h c H).
  - intros n. unfold Renderer_OnResize_alloc, Camera_OnResize_alloc.
    destruct (w <=? 0) eqn:Hw; [cbn; tauto|].
    destruct (h <=? 0) eqn:Hh; [cbn; tauto|]. cbn [orb].
    assert (0 < w * h) by nia.
    destruct (same_size w h (finalImage r));
      destruct ((w =? viewportWidth c) && (h =? viewportHeight c));
      cbn; intuition lia.
  - intros H. unfold exec. rewrite Render_runs.
    cbn [m_Camera m_Renderer with_LastRenderTime with_Renderer with_Camera m_Scene
         m_ViewportWidth m_ViewportHeight].
    unfold Camera_OnResize, Renderer_OnResize.
    rewrite HR, HC by tauto. split; reflexivity.
Qed.

(** *** Presenting the image *)

(** C9. [OnUIRender] never performs an invalid access; the viewport window
    dereferences the handle of [GetFinalImage] only when it is non-null, and
    with a null handle it draws nothing. *)
Theorem Viewport_null_checked (ui : UIInput) (l : ExampleLayer) :
  safe (Viewport_window ui) l = true /\
  safe (OnUIRender ui) l = true /\
  calls (Viewport_window ui) l =
    match Renderer_GetFinalImage (m_Renderer l) with
    | None => [Call_GetFinalImage true]
    | Some img => [Call_GetFinalImage false; Call_ImGui_Image (Width img) (Height img)]
    end /\
  existsb is_draw (calls (Viewport_window ui) l) =
    touched (Renderer_GetFinalImage (m_Renderer l)) /\
  existsb is_draw (calls (OnUIRender ui) l) =
    touched (Renderer_GetFinalImage (m_Renderer (exec (Settings_window ui) l))).
Proof.
  split; [apply Viewport_window_safe|].
  split; [apply OnUIRender_safe|].
  split; [apply Viewport_window_calls|].
  split.
  - rewrite Viewport_window_calls. destruct (Renderer_GetFinalImage (m_Renderer l)); reflexivity.
  - destruct (OnUIRender_calls ui l) as [E _]. rewrite E.
    rewrite !existsb_app.
    assert (Hs : existsb is_draw (calls (Settings_window ui) l) = false).
    { rewrite Settings_window_calls. destruct (Button_Render ui), (Button_Reset ui); reflexivity. }
    assert (He : existsb is_draw (edit_Scene_log ui (m_Scene l)) = false).
    { apply only_edits_no_draw, edit_Scene_log_only_edits. }
    rewrite Hs, He. cbn [orb].
    destruct (Renderer_GetFinalImage _); reflexivity.
Qed.

(** *** One application frame *)

Lemma stages_app (a b : list Call) : stages (a ++ b) = stages a ++ stages b.
Proof. apply flat_map_app. Qed.

Lemma only_edits_no_stage (log : list Call) :
  forallb is_edit log = true -> stages log = [].
Proof.
  induction log as [|c log IH]; cbn; [reflexivity|].
  intros H. apply andb_prop in H as [Hc Hl].
  destruct c; try discriminate. cbn. now apply IH.
Qed.

Lemma frame_safe (f : FrameInput) (l : ExampleLayer) : safe (frame f) l = true.
Proof.
  unfold frame. rewrite seq_safe by apply OnUpdate_runs. apply OnUIRender_safe.
Qed.

Lemma frame_exec (f : FrameInput) (l : ExampleLayer) :
  exec (frame f) l =
    exec (OnUIRender (frame_ui f)) (exec (OnUpdate (frame_ts f) (frame_input f)) l).
Proof.
  unfold frame. apply seq_exec; [apply OnUpdate_runs|apply OnUIRender_safe].
Qed.

(** Every call of a frame, in order. *)
Lemma frame_calls (f : FrameInput) (l : ExampleLayer) :
  let ui := frame_ui f in
  let changed := snd (Camera_OnUpdate (frame_ts f) (frame_input f) (m_Camera l)) in
  let l0 := exec (OnUpdate (frame_ts f) (frame_input f)) l in
  let l1 := exec (Settings_window ui) l0 in
  let W := to_uint32 (fst (ContentRegionAvail ui)) in
  let H := to_uint32 (snd (ContentRegionAvail ui)) in
  calls (frame f) l =
    [Call_Camera_OnUpdate changed] ++
    (if changed then [Call_ResetFrameIndex] else []) ++
    (if Button_Render ui then Render_calls l else []) ++
    (if Button_Reset ui then [Call_ResetFrameIndex] else []) ++
    edit_Scene_log ui (m_Scene l) ++
    present (Renderer_GetFinalImage (m_Renderer l1)) ++
    [Call_Renderer_OnResize W H; Call_Camera_OnResize W H; Call_Renderer_Render].
Proof.
  intros ui changed l0 l1 W H. unfold frame.
  destruct (OnUpdate_runs (frame_ts f) (frame_input f) l) as (Hs & Hc & _ & Hsc & Hw & Hh).
  fold changed l0 in Hc, Hsc, Hw, Hh.
  rewrite seq_calls by (exact Hs || apply OnUIRender_safe).
  fold ui l0. rewrite Hc.
  destruct (OnUIRender_calls ui l0) as [E _]. rewrite E. fold l1.
  rewrite Settings_window_calls, Viewport_window_exec, Hsc.
  unfold Render_calls at 1. rewrite Hw, Hh. fold (Render_calls l).
  cbn [app]. rewrite <- !app_assoc. reflexivity.
Qed.

(** C3 (as the code has it).  A frame calls [Camera::OnUpdate] once; then,
    only when the Render button is pressed, the resize-resize-render triple
    with the viewport size of the previous frame; then [GetFinalImage] once,
    which exposes the image left by the last render so far (the closing render
    of the previous frame unless the button was pressed); and it ends with
    [Renderer::OnResize] and [Camera::OnResize] at the current viewport size
    followed by [Renderer::Render]. *)
Theorem frame_pipeline_order (f : FrameInput) (l : ExampleLayer) :
  let ui := frame_ui f in
  let changed := snd (Camera_OnUpdate (frame_ts f) (frame_input f) (m_Camera l)) in
  let l0 := exec (OnUpdate (frame_ts f) (frame_input f)) l in
  let l1 := exec (Settings_window ui) l0 in
  let W := to_uint32 (fst (ContentRegionAvail ui)) in
  let H := to_uint32 (snd (ContentRegionAvail ui)) in
  safe (frame f) l = true /\
  calls (frame f) l =
    [Call_Camera_OnUpdate changed] ++
    (if changed then [Call_ResetFrameIndex] else []) ++
    (if Button_Render ui
     then [Call_Renderer_OnResize (m_ViewportWidth l) (m_ViewportHeight l);
           Call_Camera_OnResize (m_ViewportWidth l) (m_ViewportHeight l);
           Call_Renderer_Render]
     else []) ++
    (if Button_Reset ui then [Call_ResetFrameIndex] else []) ++
    edit_Scene_log ui (m_Scene l) ++
    present (Renderer_GetFinalImage (m_Renderer l1)) ++
    [Call_Renderer_OnResize W H; Call_Camera_OnResize W H; Call_Renderer_Render] /\
  stages (calls (frame f) l) =
    [Stage_Update] ++
    (if Button_Render ui
     then [Stage_ResizeRenderer; Stage_ResizeCamera; Stage_Render] else []) ++
    [Stage_Expose; Stage_ResizeRenderer; Stage_ResizeCamera; Stage_Render] /\
  Renderer_GetFinalImage (m_Renderer l1) =
    finalImage (m_Renderer (if Button_Render ui
                            then exec (Render (Elapsed_button ui)) l0 else l)).
Proof.
  intros ui changed l0 l1 W H. split; [apply frame_safe|].
  pose proof (frame_calls f l) as E. cbv zeta in E. fold ui changed l0 l1 W H in E.
  pose proof (edit_Scene_log_only_edits ui (m_Scene l)) as Hed.
  split; [exact E|]. split.
  - rewrite E. rewrite !stages_app, (only_edits_no_stage _ Hed).
    destruct changed, (Button_Render ui), (Button_Reset ui),
      (Renderer_GetFinalImage (m_Renderer l1)); reflexivity.
  - unfold l1, l0, Settings_window, OnUpdate, exec, bind, call_Camera_OnUpdate.
    destruct (Camera_OnUpdate (frame_ts f) (frame_input f) (m_Camera l)) as [c [|]];
      destruct (Button_Render ui), (Button_Reset ui); reflexivity.
Qed.

(** *** The scene editor and the accumulated samples *)

Lemma Render_exec (elapsed : f32) (l : ExampleLayer) :
  m_Scene (exec (Render elapsed) l) = m_Scene l /\
  m_Renderer (exec (Render elapsed) l) =
    Renderer_Render (m_Scene l)
      (Camera_OnResize (m_ViewportWidth l) (m_ViewportHeight l) (m_Camera l))
      (Renderer_OnResize (m_ViewportWidth l) (m_ViewportHeight l) (m_Renderer l)).
Proof. unfold exec. rewrite Render_runs. split; reflexivity. Qed.

Lemma OnUIRender_exec (ui : UIInput) (l : ExampleLayer) :
  let l1 := exec (Settings_window ui) l in
  let W := to_uint32 (fst (ContentRegionAvail ui)) in
  let H := to_uint32 (snd (ContentRegionAvail ui)) in
  m_Scene (exec (OnUIRender ui) l) = edit_Scene ui (m_Scene l) /\
  m_Renderer (exec (OnUIRender ui) l) =
    Renderer_Render (edit_Scene ui (m_Scene l))
      (Camera_OnResize W H (m_Camera l1)) (Renderer_OnResize W H (m_Renderer l1)).
Proof.
  intros l1 W H. destruct (OnUIRender_calls ui l) as [_ E]. rewrite E.
  rewrite Viewport_window_exec. fold l1 W H.
  destruct (Render_exec (Elapsed_frame ui)
              (with_Viewport W H (exec (Scene_window ui) l1))) as [Es Er].
  rewrite Es, Er.
  replace (m_Scene (with_Viewport W H (exec (Scene_window ui) l1)))
    with (edit_Scene ui (m_Scene l1)) by reflexivity.
  unfold l1. rewrite Settings_window_Scene. split; reflexivity.
Qed.

Lemma edits_then (log : list Call) : forall (dirty : bool) (rest : list Call),
  forallb is_edit log = true ->
  edits_reset_before_render dirty (log ++ rest) =
    edits_reset_before_render (dirty || existsb is_edit log) rest.
Proof.
  induction log as [|c log IH]; intros dirty rest H.
  - cbn. now rewrite orb_false_r.
  - cbn in H. apply andb_prop in H as [Hc Hl].
    destruct c; try discriminate. cbn.
    rewrite (IH true rest Hl). cbn. now rewrite orb_true_r.
Qed.

(** C2 (as the code has it).  Edits made in the scene editor trigger no
    [ResetFrameIndex]: the calls of [OnUIRender] are those of the settings
    window, then the edits, then the presentation of the image and the three
    calls of the closing [Render()]; the settings window edits nothing and
    resets exactly when the Reset button is pressed, and no reset is among
    the calls from the first edit on.  The closing render call works on the
    edited scene, from the renderer the settings window left, resized to the
    viewport.  In the order of its calls [OnUIRender] therefore has a reset
    between every edit and the render call after it exactly when no widget
    of the editor reports an edit. *)
Theorem editor_does_not_reset (ui : UIInput) (l : ExampleLayer) :
  let l1 := exec (Settings_window ui) l in
  let W := to_uint32 (fst (ContentRegionAvail ui)) in
  let H := to_uint32 (snd (ContentRegionAvail ui)) in
  let edits := edit_Scene_log ui (m_Scene l) in
  let after := present (Renderer_GetFinalImage (m_Renderer l1)) ++
               [Call_Renderer_OnResize W H; Call_Camera_OnResize W H;
                Call_Renderer_Render] in
  calls (OnUIRender ui) l = calls (Settings_window ui) l ++ edits ++ after /\
  existsb is_edit (calls (Settings_window ui) l) = false /\
  existsb is_reset (calls (Settings_window ui) l) = Button_Reset ui /\
  existsb is_reset (edits ++ after) = false /\
  m_Scene (exec (OnUIRender ui) l) = edit_Scene ui (m_Scene l) /\
  m_Renderer (exec (OnUIRender ui) l) =
    Renderer_Render (edit_Scene ui (m_Scene l))
      (Camera_OnResize W H (m_Camera l1)) (Renderer_OnResize W H (m_Renderer l1)) /\
  edits_reset_before_render false (calls (OnUIRender ui) l) =
    negb (existsb is_edit edits).
Proof.
  intros l1 W H edits after.
  pose proof (edit_Scene_log_only_edits ui (m_Scene l)) as Hed. fold edits in Hed.
  assert (E : calls (OnUIRender ui) l = calls (Settings_window ui) l ++ edits ++ after).
  { destruct (OnUIRender_calls ui l) as [E _]. rewrite E. fold l1 edits.
    rewrite Viewport_window_exec. reflexivity. }
  split; [exact E|].
  split; [rewrite Settings_window_calls;
          destruct (Button_Render ui), (Button_Reset ui); reflexivity|].
  split; [rewrite Settings_window_calls;
          destruct (Button_Render ui), (Button_Reset ui); reflexivity|].
  split.
  { rewrite existsb_app, (only_edits_no_reset _ Hed). unfold after.
    destruct (Renderer_GetFinalImage (m_Renderer l1)); reflexivity. }
  destruct (OnUIRender_exec ui l) as [Es Er].
  split; [exact Es|]. split; [exact Er|].
  rewrite E, Settings_window_calls.
  assert (Hpre : forall rest,
             edits_reset_before_render false
               (((if Button_Render ui then Render_calls l else []) ++
                 (if Button_Reset ui then [Call_ResetFrameIndex] else [])) ++ rest) =
             edits_reset_before_render false rest).
  { intros rest. destruct (Button_Render ui), (Button_Reset ui); reflexivity. }
  rewrite Hpre, (edits_then _ _ _ Hed). cbn [orb]. unfold after.
  destruct (existsb is_edit edits), (Renderer_GetFinalImage (m_Renderer l1)); reflexivity.
Qed.

(** *** Material indices under UI edits *)

Lemma for_each_length {A D : Type} (none : D) (body : D -> A -> A) (v : list A) :
  forall ds, length (for_each none body ds v) = length v.
Proof. induction v as [|a v IH]; intros ds; cbn; [reflexivity|]. now rewrite IH. Qed.

Lemma ImClamp_int_range (raw mn mx : Z) :
  mn <= mx -> mn <= ImClamp_int raw mn mx <= mx.
Proof.
  intros H. unfold ImClamp_int.
  destruct (raw <? mn) eqn:E1; [lia|]. destruct (mx <? raw) eqn:E2; lia.
Qed.

Lemma edit_Sphere_MaterialIndex (nmat : Z) (d : SphereDrag) (s : Sphere) :
  MaterialIndex (edit_Sphere nmat d s) =
    ImGui_DragInt (MaterialIndex s) 0 (to_int nmat - 1) (Drag_Material d).
Proof. reflexivity. Qed.

Lemma edit_Sphere_in_range (d : SphereDrag) (s : Sphere) :
  index_not_typed d = true ->
  index_in_range 2 s = true -> index_in_range 2 (edit_Sphere 2 d s) = true.
Proof.
  unfold index_in_range, index_not_typed. rewrite edit_Sphere_MaterialIndex.
  change (to_int 2 - 1) with 1. unfold ImGui_DragInt.
  destruct (Drag_Material d) as [[raw|raw]|]; [|discriminate|auto].
  intros _ _. change (0 <? 1) with true. cbv iota.
  pose proof (ImClamp_int_range raw 0 1 ltac:(lia)).
  apply andb_true_intro. split; [apply Z.leb_le|apply Z.ltb_lt]; lia.
Qed.

Lemma for_each_forallb_guarded {A D : Type} (none : D) (body : D -> A -> A)
      (P : A -> bool) (G : D -> bool) (Hnone : G none = true)
      (Hbody : forall d a, G d = true -> P a = true -> P (body d a) = true)
      (v : list A) :
  forall ds, forallb G ds = true -> forallb P v = true ->
             forallb P (for_each none body ds v) = true.
Proof.
  induction v as [|a v IH]; intros ds Hds H; cbn; [reflexivity|].
  cbn in H. apply andb_prop in H as [Ha Hv].
  destruct ds as [|d ds]; cbn [hd tl].
  - rewrite (Hbody none a Hnone Ha). now apply IH.
  - cbn in Hds. apply andb_prop in Hds as [Hd Hds].
    rewrite (Hbody d a Hd Ha). now apply IH.
Qed.

Lemma edit_Scene_Materials_length (ui : UIInput) (sc : Scene) :
  length (Materials (edit_Scene ui sc)) = length (Materials sc).
Proof. unfold edit_Scene. cbn [Materials]. apply for_each_length. Qed.

Lemma edit_Scene_invariant (ui : UIInput) (sc : Scene) :
  indices_not_typed ui = true ->
  scene_invariant sc -> scene_invariant (edit_Scene ui sc).
Proof.
  intros Hui [Hlen Hidx]. unfold scene_invariant, indices_in_range in *.
  rewrite edit_Scene_Materials_length, Hlen in *.
  split; [reflexivity|]. unfold edit_Scene. cbn [Spheres Materials]. rewrite Hlen.
  apply for_each_forallb_guarded with (G := index_not_typed);
    [reflexivity|apply edit_Sphere_in_range|exact Hui|exact Hidx].
Qed.

Lemma frame_Scene (f : FrameInput) (l : ExampleLayer) :
  m_Scene (exec (frame f) l) = edit_Scene (frame_ui f) (m_Scene l).
Proof.
  rewrite frame_exec.
  destruct (OnUIRender_exec (frame_ui f) (exec (OnUpdate (frame_ts f) (frame_input f)) l))
    as [Es _].
  rewrite Es. destruct (OnUpdate_runs (frame_ts f) (frame_input f) l) as (_ & _ & _ & E & _).
  now rewrite E.
Qed.

Lemma run_safe (fs : list FrameInput) : forall l, safe (run fs) l = true.
Proof.
  induction fs as [|f fs IH]; intros l; [reflexivity|].
  cbn [run]. rewrite seq_safe by apply frame_safe. apply IH.
Qed.

Lemma run_cons_exec (f : FrameInput) (fs : list FrameInput) (l : ExampleLayer) :
  exec (run (f :: fs)) l = exec (run fs) (exec (frame f) l).
Proof. cbn [run]. apply seq_exec; [apply frame_safe|apply run_safe]. Qed.

Lemma run_Materials_length (fs : list FrameInput) : forall l,
  length (Materials (m_Scene (exec (run fs) l))) = length (Materials (m_Scene l)).
Proof.
  induction fs as [|f fs IH]; intros l; [reflexivity|].
  rewrite run_cons_exec, IH, frame_Scene. apply edit_Scene_Materials_length.
Qed.

Lemma run_invariant (fs : list FrameInput) : forall l,
  indices_never_typed fs = true ->
  scene_invariant (m_Scene l) -> scene_invariant (m_Scene (exec (run fs) l)).
Proof.
  induction fs as [|f fs IH]; intros l Hfs H; [exact H|].
  cbn in Hfs. apply andb_prop in Hfs as [Hf Hfs].
  rewrite run_cons_exec. apply IH; [exact Hfs|].
  rewrite frame_Scene. now apply edit_Scene_invariant.
Qed.

Lemma ctor_invariant : scene_invariant (m_Scene ExampleLayer_ctor).
Proof. split; reflexivity. Qed.

Lemma to_int_small (z : Z) : - 2 ^ 31 <= z < 2 ^ 31 -> to_int z = z.
Proof. intros H. unfold to_int. rewrite Z.mod_small; lia. Qed.

Lemma edit_Sphere_dragged (nmat : Z) (s : Sphere) (d : SphereDrag) (raw : Z) :
  2 <= nmat < 2 ^ 31 ->
  Drag_Material d = Some (Dragged raw) ->
  MaterialIndex (edit_Sphere nmat d s) =
    (if raw <? 0 then 0 else if nmat - 1 <? raw then nmat - 1 else raw) /\
  0 <= MaterialIndex (edit_Sphere nmat d s) <= nmat - 1.
Proof.
  intros Hn Hd. rewrite edit_Sphere_MaterialIndex, Hd, to_int_small by lia.
  unfold ImGui_DragInt. destruct (0 <? nmat - 1) eqn:E; [|lia].
  split; [reflexivity|]. apply ImClamp_int_range. lia.
Qed.

Lemma edit_Sphere_unbounded (nmat : Z) (s : Sphere) (d : SphereDrag) (raw : Z) :
  0 <= nmat <= 1 ->
  Drag_Material d = Some (Dragged raw) ->
  MaterialIndex (edit_Sphere nmat d s) = raw.
Proof.
  intros Hn Hd. rewrite edit_Sphere_MaterialIndex, Hd, to_int_small by lia.
  unfold ImGui_DragInt. destruct (0 <? nmat - 1) eqn:E; [lia|reflexivity].
Qed.

(** C10 (as the code has it).  A drag of a sphere's material field stores
    the dragged value clamped to [[0, Materials.size() - 1]]: the value
    itself when it lies in the range, 0 when it is below, [Materials.size() - 1]
    when it is above; so it is for every material list of two or more
    entries (with fewer the field has no bounds), and in every state the
    application reaches from its constructor the list has two.  A number
    typed into the field is stored as typed.  Hence after frames in which no
    index is typed, and after one more such [OnUIRender], every sphere's
    material index is an index of the material list. *)
Theorem MaterialIndex_drags_clamped (fs : list FrameInput) (ui : UIInput) :
  let l := exec (run fs) ExampleLayer_ctor in
  let nmat := Z.of_nat (length (Materials (m_Scene l))) in
  safe (run fs) ExampleLayer_ctor = true /\
  nmat = 2 /\
  (forall (n : Z) (s : Sphere) (d : SphereDrag) (raw : Z),
      2 <= n < 2 ^ 31 ->
      Drag_Material d = Some (Dragged raw) ->
      MaterialIndex (edit_Sphere n d s) =
        (if raw <? 0 then 0 else if n - 1 <? raw then n - 1 else raw) /\
      0 <= MaterialIndex (edit_Sphere n d s) <= n - 1) /\
  (forall (n : Z) (s : Sphere) (d : SphereDrag) (raw : Z),
      0 <= n <= 1 ->
      Drag_Material d = Some (Dragged raw) ->
      MaterialIndex (edit_Sphere n d s) = raw) /\
  (forall (n : Z) (s : Sphere) (d : SphereDrag) (raw : Z),
      Drag_Material d = Some (Typed raw) ->
      MaterialIndex (edit_Sphere n d s) = raw) /\
  (forall (n : Z) (s : Sphere) (d : SphereDrag),
      Drag_Material d = None ->
      MaterialIndex (edit_Sphere n d s) = MaterialIndex s) /\
  (indices_never_typed fs = true -> indices_in_range (m_Scene l) = true) /\
  (indices_never_typed fs = true -> indices_not_typed ui = true ->
   indices_in_range (m_Scene (exec (OnUIRender ui) l)) = true).
Proof.
  intros l nmat. split; [apply run_safe|].
  assert (Hn : nmat = 2).
  { unfold nmat, l. now rewrite run_Materials_length. }
  split; [exact Hn|].
  split; [intros n s d raw Hn' Hd; now apply edit_Sphere_dragged|].
  split; [intros n s d raw Hn' Hd; now apply edit_Sphere_unbounded|].
  split; [intros n s d raw Hd; now rewrite edit_Sphere_MaterialIndex, Hd|].
  split; [intros n s d Hd; now rewrite edit_Sphere_MaterialIndex, Hd|].
  split.
  - intros Hfs. now destruct (run_invariant fs _ Hfs ctor_invariant).
  - intros Hfs Hui. destruct (OnUIRender_exec ui l) as [Es _]. rewrite Es.
    now apply edit_Scene_invariant, run_invariant, ctor_invariant.
Qed.

(** *** Material lookup *)

Lemma material_at_in_range (sc : Scene) (idx : Z) :
  0 <= idx < Z.of_nat (length (Materials sc)) ->
  material_at sc idx = nth (Z.to_nat idx) (Materials sc) default_material.
Proof.
  intros H. unfold material_at.
  destruct (0 <=? idx) eqn:E1; [|lia]. destruct (idx <? _) eqn:E2; [reflexivity|lia].
Qed.

Lemma material_at_out_of_range (sc : Scene) (idx : Z) :
  idx < 0 \/ Z.of_nat (length (Materials sc)) <= idx ->
  material_at sc idx = default_material.
Proof.
  intros H. unfold material_at.
  destruct (0 <=? idx) eqn:E1; [|reflexivity].
  destruct (idx <? _) eqn:E2; [lia|reflexivity].
Qed.

Lemma index_in_range_spec (nmat : Z) (s : Sphere) :
  index_in_range nmat s = true <-> 0 <= MaterialIndex s < nmat.
Proof.
  unfold index_in_range. rewrite andb_true_iff, Z.leb_le, Z.ltb_lt. reflexivity.
Qed.

Lemma repair_Scene_length (sc : Scene) :
  Z.of_nat (length (Materials (repair_Scene sc))) = Z.of_nat (length (Materials sc)) + 1.
Proof. cbn [repair_Scene Materials]. rewrite length_app. cbn [length]. lia. Qed.

Lemma material_at_repair (sc : Scene) (s : Sphere) :
  material_at (repair_Scene sc)
              (MaterialIndex (repair_Sphere (Z.of_nat (length (Materials sc))) s)) =
  material_at sc (MaterialIndex s).
Proof.
  unfold repair_Sphere.
  destruct (index_in_range (Z.of_nat (length (Materials sc))) s) eqn:E.
  - apply index_in_range_spec in E.
    rewrite material_at_in_range by (rewrite repair_Scene_length; lia).
    rewrite material_at_in_range by exact E.
    cbn [repair_Scene Materials]. apply app_nth1. lia.
  - assert (Hout : MaterialIndex s < 0 \/
                   Z.of_nat (length (Materials sc)) <= MaterialIndex s).
    { destruct (Z_lt_dec (MaterialIndex s) 0); [now left|right].
      destruct (Z_le_dec (Z.of_nat (length (Materials sc))) (MaterialIndex s)); [assumption|].
      assert (index_in_range (Z.of_nat (length (Materials sc))) s = true)
        by (apply index_in_range_spec; lia).
      congruence. }
    rewrite (material_at_out_of_range sc _ Hout).
    cbn [set_MaterialIndex MaterialIndex].
    rewrite material_at_in_range by (rewrite repair_Scene_length; lia).
    cbn [repair_Scene Materials]. rewrite Nat2Z.id, app_nth2 by lia.
    now rewrite Nat.sub_diag.
Qed.

Lemma repair_Sphere_geometry (nmat : Z) (s : Sphere) :
  Position (repair_Sphere nmat s) = Position s /\
  Radius (repair_Sphere nmat s) = Radius s.
Proof. unfold repair_Sphere. destruct (index_in_range nmat s); split; reflexivity. Qed.

Lemma closest_hit_repair (nmat : Z) (origin direction : vec3) (spheres : list Sphere) :
  forall best,
    closest_hit origin direction (map (repair_Sphere nmat) spheres) (repair_hit nmat best) =
    repair_hit nmat (closest_hit origin direction spheres best).
Proof.
  induction spheres as [|s spheres IH]; intros best; cbn [map closest_hit]; [reflexivity|].
  destruct (repair_Sphere_geometry nmat s) as [Hp Hr]. rewrite Hp, Hr.
  rewrite <- IH. f_equal.
  destruct (intersect origin direction (Position s) (Radius s)) as [t|];
    destruct best as [[tb sb]|]; cbn [repair_hit]; try reflexivity.
  destruct (f32_ltb t tb); reflexivity.
Qed.

Lemma TraceRay_repair (sc : Scene) (bounces : nat) :
  forall origin direction light throughput g,
    TraceRay (repair_Scene sc) bounces origin direction light throughput g =
    TraceRay sc bounces origin direction light throughput g.
Proof.
  induction bounces as [|n IH]; intros origin direction light throughput g;
    cbn [TraceRay]; [reflexivity|].
  change (Spheres (repair_Scene sc))
    with (map (repair_Sphere (Z.of_nat (length (Materials sc)))) (Spheres sc)).
  change (@None (f32 * Sphere))
    with (repair_hit (Z.of_nat (length (Materials sc))) None) at 1.
  rewrite closest_hit_repair.
  destruct (closest_hit origin direction (Spheres sc) None) as [[t s]|];
    cbn [repair_hit]; [|reflexivity].
  rewrite material_at_repair.
  destruct (repair_Sphere_geometry (Z.of_nat (length (Materials sc))) s) as [Hp Hr].
  rewrite Hp, Hr.
  destruct (scatter _ _ _ g) as [direction' g']. apply IH.
Qed.

Lemma repair_Scene_in_range (sc : Scene) : indices_in_range (repair_Scene sc) = true.
Proof.
  unfold indices_in_range. rewrite repair_Scene_length.
  cbn [repair_Scene Spheres]. apply forallb_forall. intros s' Hin.
  apply in_map_iff in Hin as (s & <- & _).
  unfold repair_Sphere.
  destruct (index_in_range (Z.of_nat (length (Materials sc))) s) eqn:E.
  - apply index_in_range_spec in E. apply index_in_range_spec. lia.
  - apply index_in_range_spec. cbn [set_MaterialIndex MaterialIndex]. lia.
Qed.

Lemma mapi_length {A B : Type} (f : Z -> A -> B) (l : list A) :
  forall i, length (mapi f i l) = length l.
Proof. induction l as [|a l IH]; intros i; cbn; [reflexivity|]. now rewrite IH. Qed.

Lemma f32_zero_eq : f32_zero = S754_zero false.
Proof. vm_compute. reflexivity. Qed.

Lemma vec3_unit_mul (a b : vec3) :
  vec3_unit a = true -> vec3_unit b = true -> vec3_unit (vec3_mul a b) = true.
Proof.
  unfold vec3_unit. cbn [vec3_mul vec3_map2 vx vy vz]. rewrite !andb_true_iff.
  intros [[? ?] ?] [[? ?] ?]. repeat split; now apply unit_interval_mul.
Qed.

Lemma vec3_unit_add_zero (a : vec3) :
  vec3_unit a = true -> vec3_unit (vec3_add vec3_zero a) = true.
Proof.
  unfold vec3_unit. cbn [vec3_add vec3_map2 vec3_zero vx vy vz].
  rewrite f32_zero_eq, !andb_true_iff.
  intros [[? ?] ?]. repeat split; now apply unit_interval_add_zero.
Qed.

Lemma material_at_unit (sc : Scene) (idx : Z) :
  forallb (fun m => vec3_unit (Albedo m)) (Materials sc) = true ->
  vec3_unit (Albedo (material_at sc idx)) = true.
Proof.
  intros H. unfold material_at.
  destruct ((0 <=? idx) && (idx <? Z.of_nat (length (Materials sc)))) eqn:E;
    [|vm_compute; reflexivity].
  apply andb_prop in E as [E1 E2]. apply Z.leb_le in E1. apply Z.ltb_lt in E2.
  rewrite forallb_forall in H. apply H, nth_In. lia.
Qed.

(** The light of a path whose materials and sky are colours of the unit
    cube is one. *)
Lemma TraceRay_unit (sc : Scene)
      (Hsky : forall origin direction, vec3_unit (sky origin direction) = true)
      (Hmat : forallb (fun m => vec3_unit (Albedo m)) (Materials sc) = true)
      (bounces : nat) :
  forall origin direction throughput g,
    vec3_unit throughput = true ->
    vec3_unit (TraceRay sc bounces origin direction vec3_zero throughput g) = true.
Proof.
  induction bounces as [|n IH]; intros origin direction throughput g Ht; cbn [TraceRay].
  - vm_compute. reflexivity.
  - destruct (closest_hit origin direction (Spheres sc) None) as [[t sphere]|].
    + destruct (scatter _ _ _ g) as [direction' g']. apply IH.
      apply vec3_unit_mul; [exact Ht|now apply material_at_unit].
    + apply vec3_unit_add_zero, vec3_unit_mul; [apply Hsky|exact Ht].
Qed.

Lemma PerPixel_unit (sc : Scene)
      (Hsky : forall origin direction, vec3_unit (sky origin direction) = true)
      (Hmat : forallb (fun m => vec3_unit (Albedo m)) (Materials sc) = true)
      (cam : Camera) (w fi pixelIndex : Z) :
  vec4_unit (PerPixel sc cam w fi pixelIndex) = true.
Proof.
  unfold PerPixel. cbv zeta.
  pose proof (TraceRay_unit sc Hsky Hmat bounce_limit (position cam)
                (Camera_GetRayDirection cam (pixelIndex mod w) (pixelIndex / w))
                vec3_one (seed pixelIndex fi) ltac:(vm_compute; reflexivity)) as H.
  unfold vec3_unit in H. unfold vec4_unit. cbn [cr cg cb ca]. rewrite H.
  vm_compute. reflexivity.
Qed.

Lemma vec4_unit_not_negative (c : vec4) :
  vec4_unit c = true -> vec4_not_negative c = true.
Proof.
  unfold vec4_unit, vec4_not_negative. rewrite !andb_true_iff.
  intros [[[? ?] ?] ?]. repeat split; now apply unit_interval_not_negative.
Qed.

Lemma vec4_not_negative_add (a c : vec4) :
  vec4_not_negative a = true -> vec4_not_negative c = true ->
  vec4_not_negative (vec4_add a c) = true.
Proof.
  unfold vec4_not_negative. cbn [vec4_add cr cg cb ca]. rewrite !andb_true_iff.
  intros [[[? ?] ?] ?] [[[? ?] ?] ?]. repeat split; now apply not_negative_add.
Qed.

Lemma vec4_not_negative_nan_free (c : vec4) :
  vec4_not_negative c = true -> vec4_nan_free c = true.
Proof.
  unfold vec4_not_negative, vec4_nan_free. rewrite !andb_true_iff, !negb_true_iff.
  intros [[[? ?] ?] ?]. repeat split; now apply not_negative_not_nan.
Qed.

(** The colour resolved from a slot without negative channels and a sample
    count of up to [2^24] has no NaN channel. *)
Lemma clamped_nan_free (a : vec4) (n : Z) :
  vec4_not_negative a = true -> 1 <= n < 2 ^ 24 ->
  vec4_nan_free (clamped (vec4_div a (f32_of_Z n))) = true.
Proof.
  intros Ha Hn. destruct (f32_of_Z_count n Hn) as (m & e & ->).
  unfold vec4_not_negative in Ha. unfold vec4_nan_free, clamped.
  cbn [vec4_div cr cg cb ca]. rewrite !andb_true_iff in Ha. rewrite !andb_true_iff, !negb_true_iff.
  destruct Ha as [[[? ?] ?] ?].
  repeat split; now apply clamp01_not_nan, not_negative_not_nan, not_negative_div.
Qed.

Lemma Forall_mapi {A B : Type} (P : A -> Prop) (Q : B -> Prop) (f : Z -> A -> B)
      (Hf : forall i a, P a -> Q (f i a)) (l : list A) :
  forall i, Forall P l -> Forall Q (mapi f i l).
Proof.
  induction l as [|a l IH]; intros i H; cbn [mapi]; [constructor|].
  inversion H; subst. constructor; [now apply Hf|now apply IH].
Qed.

Lemma OnResize_allocates (w h : Z) (r : Renderer) :
  0 < w -> 0 < h -> same_size w h (finalImage r) = false ->
  Renderer_OnResize w h r =
    mkRenderer (repeat vec4_zero (Z.to_nat (w * h)))
               (Some (mkImage w h (repeat 0 (Z.to_nat (w * h))))) 1 (settings r).
Proof.
  intros Hw Hh Hs. unfold Renderer_OnResize, Renderer_OnResize_alloc. rewrite Hs.
  destruct (w <=? 0) eqn:Ew; [apply Z.leb_le in Ew; lia|].
  destruct (h <=? 0) eqn:Eh; [apply Z.leb_le in Eh; lia|].
  cbn [orb fst]. unfold Renderer_ResetFrameIndex. cbn [accumulationBuffer finalImage settings].
  now rewrite map_repeat.
Qed.

Lemma Render_not_negative (sc : Scene)
      (Hsky : forall origin direction, vec3_unit (sky origin direction) = true)
      (Hmat : forallb (fun m => vec3_unit (Albedo m)) (Materials sc) = true)
      (cam : Camera) (r : Renderer) :
  Forall (fun a => vec4_not_negative a = true) (accumulationBuffer r) ->
  Forall (fun a => vec4_not_negative a = true)
         (accumulationBuffer (Renderer_Render sc cam r)).
Proof.
  intros H. unfold Renderer_Render. cbn [accumulationBuffer].
  apply Forall_mapi with (P := fun a => vec4_not_negative a = true); [|exact H].
  intros i a Ha.
  assert (Hc : vec4_not_negative (Renderer_sample r sc cam i) = true)
    by (apply vec4_unit_not_negative, PerPixel_unit; assumption).
  destruct (Accumulate (settings r)); [now apply vec4_not_negative_add|exact Hc].
Qed.

(** The renderer after a resize that allocates and [k] passes. *)
Lemma Render_iter_buffers (sc : Scene)
      (Hsky : forall origin direction, vec3_unit (sky origin direction) = true)
      (Hmat : forallb (fun m => vec3_unit (Albedo m)) (Materials sc) = true)
      (cam : Camera) (w h : Z) (r : Renderer) :
  0 < w -> 0 < h -> same_size w h (finalImage r) = false ->
  forall k : nat,
    let rk := Nat.iter k (Renderer_Render sc cam) (Renderer_OnResize w h r) in
    length (accumulationBuffer rk) = Z.to_nat (w * h) /\
    Forall (fun a => vec4_not_negative a = true) (accumulationBuffer rk) /\
    (exists pixels, finalImage rk = Some (mkImage w h pixels)) /\
    1 <= pass_index rk <= 1 + Z.of_nat k.
Proof.
  intros Hw Hh Hs k. cbv zeta.
  assert (Hp : 1 <= pass_index (Nat.iter k (Renderer_Render sc cam) (Renderer_OnResize w h r))
               <= 1 + Z.of_nat k).
  { unfold pass_index. rewrite Render_iter_frameIndex, Render_iter_settings.
    rewrite (OnResize_allocates w h r Hw Hh Hs). cbn [settings frameIndex].
    destruct (Accumulate (settings r)); lia. }
  split; [|split; [|split; [|exact Hp]]]; clear Hp.
  - induction k as [|k IH].
    + cbn [Nat.iter]. rewrite (OnResize_allocates w h r Hw Hh Hs). cbn [accumulationBuffer].
      apply repeat_length.
    + rewrite Nat.iter_succ. unfold Renderer_Render at 1. cbn [accumulationBuffer].
      now rewrite mapi_length.
  - induction k as [|k IH].
    + cbn [Nat.iter]. rewrite (OnResize_allocates w h r Hw Hh Hs). cbn [accumulationBuffer].
      apply Forall_forall. intros a Ha. apply repeat_spec in Ha. subst a.
      vm_compute. reflexivity.
    + rewrite Nat.iter_succ. now apply Render_not_negative.
  - induction k as [|k IH].
    + cbn [Nat.iter]. rewrite (OnResize_allocates w h r Hw Hh Hs). cbn [finalImage].
      now eexists.
    + rewrite Nat.iter_succ. destruct IH as [pixels IH].
      unfold Renderer_Render at 1. cbn [finalImage]. rewrite IH. cbn [Width Height].
      now eexists.
Qed.


(** *** The frame time the statistics see *)

Lemma stats_frameTime_eq (ui : UIInput) (l : ExampleLayer) :
  stats_frameTime ui l =
    if Button_Render ui then Elapsed_button ui else m_LastRenderTime l.
Proof.
  unfold stats_frameTime.
  assert (S3 : safe (Viewport_window ui) (exec (Scene_window ui) (exec (Settings_window ui) l))
               = true) by apply Viewport_window_safe.
  assert (S2 : safe (Scene_window ui ;;; Viewport_window ui) (exec (Settings_window ui) l)
               = true).
  { rewrite seq_safe by apply Scene_window_safe. exact S3. }
  rewrite seq_exec by (apply Settings_window_safe || exact S2).
  rewrite seq_exec by (apply Scene_window_safe || exact S3).
  rewrite Viewport_window_exec.
  unfold Settings_window. destruct (Button_Render ui), (Button_Reset ui); reflexivity.
Qed.

Lemma frame_LastRenderTime (f : FrameInput) (l : ExampleLayer) :
  m_LastRenderTime (exec (frame f) l) = Elapsed_frame (frame_ui f).
Proof.
  rewrite frame_exec. destruct (OnUIRender_calls (frame_ui f)
    (exec (OnUpdate (frame_ts f) (frame_input f)) l)) as [_ E].
  rewrite E. unfold exec at 1. rewrite Render_runs. reflexivity.
Qed.

Lemma OnUpdate_LastRenderTime (ts : f32) (inp : InputState) (l : ExampleLayer) :
  m_LastRenderTime (exec (OnUpdate ts inp) l) = m_LastRenderTime l.
Proof.
  unfold exec, OnUpdate, bind, call_Camera_OnUpdate.
  destruct (Camera_OnUpdate ts inp (m_Camera l)) as [c [|]]; reflexivity.
Qed.

(** X7. The frame time the statistics record in a frame is not the time of
    that frame's closing render pass but the latest timer reading before the
    window: the reading of the Render button's pass if the button is pressed,
    else the reading of the pass that closed the previous frame.  Over a run
    from the constructor the recorded times are therefore the readings
    delayed by one frame, beginning with 0.0f, for which the "FPS" line
    divides 1000 by zero and shows infinity. *)
Theorem statistics_lag_one_frame (fs : list FrameInput) (l : ExampleLayer) :
  stats_frameTimes fs l = delayed_readings (m_LastRenderTime l) fs /\
  stats_frameTimes fs ExampleLayer_ctor = delayed_readings (f32_of_Q 0) fs /\
  (forall ui, Button_Render ui = false ->
              stats_frameTime ui ExampleLayer_ctor = f32_of_Q 0 /\
              f32_div (f32_of_Q 1000) (stats_frameTime ui ExampleLayer_ctor) =
                S754_infinity false).
Proof.
  assert (H : forall fs l, stats_frameTimes fs l = delayed_readings (m_LastRenderTime l) fs).
  { clear. induction fs as [|f fs IH]; intros l; cbn [stats_frameTimes delayed_readings];
      [reflexivity|].
    rewrite stats_frameTime_eq, OnUpdate_LastRenderTime, IH, frame_LastRenderTime.
    reflexivity. }
  split; [apply H|]. split; [apply H|].
  intros ui Hb. rewrite stats_frameTime_eq, Hb. split; reflexivity.
Qed.

End Application.

(** ** The model on explicit inputs *)

Abbreviation still_ctor :=
  (ExampleLayer_ctor still_Material still_Sphere still_Camera true).
Abbreviation still_OnUIRender :=
  (OnUIRender still_ray_direction still_intersect still_sky (f32_of_Q 0.0001) 5%nat
              Z still_seed still_scatter still_encode8).
Abbreviation still_frame :=
  (frame unit still_OnUpdate still_ray_direction still_intersect still_sky
         (f32_of_Q 0.0001) 5%nat Z still_seed still_scatter still_encode8).
Abbreviation idle_frame := (mkFrameInput unit (f32_of_Q 0.016) tt idle_ui).

(** C3, as stated, fails on the first frame without any click: the image is
    exposed before the frame's resize and render, not after them. *)
Lemma frame_exposes_before_render :
  stages (calls (still_frame idle_frame) still_ctor) =
    [Stage_Update; Stage_Expose; Stage_ResizeRenderer; Stage_ResizeCamera; Stage_Render] /\
  stages (calls (still_frame idle_frame) still_ctor) <> update_resize_render_expose.
Proof. split; [vm_compute; reflexivity|vm_compute; discriminate]. Qed.

(** C2, as stated, fails in the frame after an idle one when the radius of
    sphere 0 is dragged: the radius changes, no [ResetFrameIndex] separates
    the edit from the frame's render call, and the frame index moves from 2 to
    3, so that the sample of the edited scene is averaged with the sample of
    the scene before the edit. *)
Lemma radius_drag_renders_without_reset :
  edits_reset_before_render false
    (calls (still_OnUIRender radius_drag_ui) (exec (still_frame idle_frame) still_ctor))
    = false /\
  calls (still_OnUIRender radius_drag_ui) (exec (still_frame idle_frame) still_ctor) =
    [Call_Edit Sphere_Radius 0; Call_GetFinalImage false; Call_ImGui_Image 2 2;
     Call_Renderer_OnResize 2 2; Call_Camera_OnResize 2 2; Call_Renderer_Render] /\
  map Radius (Spheres (m_Scene (exec (still_frame idle_frame) still_ctor))) =
    [f32_of_Q 1; f32_of_Q 100] /\
  map Radius
      (Spheres (m_Scene (exec (still_OnUIRender radius_drag_ui)
                              (exec (still_frame idle_frame) still_ctor)))) =
    [f32_of_Q 2; f32_of_Q 100] /\
  frameIndex (m_Renderer (exec (still_frame idle_frame) still_ctor)) = 2 /\
  frameIndex (m_Renderer (exec (still_OnUIRender radius_drag_ui)
                               (exec (still_frame idle_frame) still_ctor))) = 3.
Proof. repeat split; vm_compute; reflexivity. Qed.

(** C10, as stated, fails in the first frame when 7 is typed into the
    material field of sphere 0: the scene of the constructor has every index
    in range, the edit is logged, 7 is stored although the list has two
    materials, and the scene leaves the frame with an index out of range. *)
Lemma typed_index_leaves_range :
  indices_in_range (m_Scene still_ctor) = true /\
  calls (still_OnUIRender typed_index_ui) still_ctor =
    [Call_Edit Sphere_MaterialIndex 0; Call_GetFinalImage true;
     Call_Renderer_OnResize 2 2; Call_Camera_OnResize 2 2; Call_Renderer_Render] /\
  length (Materials (m_Scene (exec (still_OnUIRender typed_index_ui) still_ctor))) = 2%nat /\
  map MaterialIndex
      (Spheres (m_Scene (exec (still_OnUIRender typed_index_ui) still_ctor))) = [7; 1] /\
  indices_in_range (m_Scene (exec (still_OnUIRender typed_index_ui) still_ctor)) = false.
Proof. repeat split; vm_compute; reflexivity. Qed.

Abbreviation facing_Render :=
  (Renderer_Render facing_intersect still_sky (f32_of_Q 0.0001) 5%nat Z still_seed
                   still_scatter still_encode8 stray_scene facing_Camera).


(** ** The order of binary32 values *)

Ltac compare_cases :=
  repeat match goal with
         | |- context [Z.compare ?a ?b] => destruct (Z.compare_spec a b)
         | H : context [Z.compare ?a ?b] |- _ => destruct (Z.compare_spec a b)
         | |- context [Pos.compare_cont Eq ?a ?b] =>
             change (Pos.compare_cont Eq a b) with (Pos.compare a b);
             destruct (Pos.compare_spec a b)
         | H : context [Pos.compare_cont Eq ?a ?b] |- _ =>
             change (Pos.compare_cont Eq a b) with (Pos.compare a b) in H;
             destruct (Pos.compare_spec a b)
         end.

Lemma f32_ltb_irrefl (x : f32) : f32_ltb x x = false.
Proof.
  unfold f32_ltb, SFltb. destruct x as [s|s| |s m e]; try destruct s; cbn; try reflexivity;
    rewrite Z.compare_refl; change (Pos.compare_cont Eq m m) with (Pos.compare m m);
    rewrite Pos.compare_refl; reflexivity.
Qed.

Lemma f32_ltb_trans (x y z : f32) :
  f32_ltb x y = true -> f32_ltb y z = true -> f32_ltb x z = true.
Proof.
  unfold f32_ltb, SFltb.
  destruct x as [sx|sx| |sx mx ex], y as [sy|sy| |sy my ey], z as [sz|sz| |sz mz ez];
    try destruct sx; try destruct sy; try destruct sz; cbn;
    try discriminate; try reflexivity; intros H1 H2;
    compare_cases; cbn in *; try discriminate; try reflexivity; subst; try lia.
Qed.

Lemma f32_ltb_not_nan (x y : f32) :
  f32_ltb x y = true -> is_nan x = false /\ is_nan y = false.
Proof. destruct x, y; cbn; try discriminate; auto. Qed.

(** Among numbers, "not above" is transitive and is [<=]. *)
Lemma f32_not_above_trans (x y z : f32) :
  is_nan y = false ->
  f32_ltb y x = false -> f32_ltb z y = false -> f32_ltb z x = false.
Proof.
  unfold f32_ltb, SFltb.
  destruct x as [sx|sx| |sx mx ex], y as [sy|sy| |sy my ey], z as [sz|sz| |sz mz ez];
    try destruct sx; try destruct sy; try destruct sz; cbn;
    try discriminate; try reflexivity; intros _ H1 H2;
    compare_cases; cbn in *; try discriminate; try reflexivity; subst; try lia.
Qed.

Lemma f32_not_above_leb (x y : f32) :
  is_nan x = false -> is_nan y = false ->
  f32_ltb y x = false -> SFleb x y = true.
Proof.
  unfold f32_ltb, SFltb, SFleb.
  destruct x as [sx|sx| |sx mx ex], y as [sy|sy| |sy my ey];
    try destruct sx; try destruct sy; cbn;
    try discriminate; try reflexivity; intros _ _ H;
    compare_cases; cbn in *; try discriminate; try reflexivity; subst; try lia.
Qed.

Lemma below_refl (x : f32) : below x x.
Proof. now left. Qed.

Lemma below_trans (x y z : f32) : below x y -> below y z -> below x z.
Proof.
  intros [->|H1] [->|H2]; try (now left); try (now right).
  right. eapply f32_ltb_trans; eassumption.
Qed.

Lemma below_not_above (x y t : f32) :
  below x y -> f32_ltb x t = false -> f32_ltb y t = true -> False.
Proof.
  intros [->|H] Hx Hy; [congruence|].
  rewrite (f32_ltb_trans _ _ _ H Hy) in Hx. discriminate.
Qed.

Lemma below_not_under (x y t : f32) :
  below x y -> f32_ltb t y = false -> f32_ltb t x = true -> False.
Proof.
  intros [->|H] Hy Hx; [congruence|].
  rewrite (f32_ltb_trans _ _ _ Hx H) in Hy. discriminate.
Qed.

(** ** The "Advanced Stats" window *)

Lemma array_set_spec {A : Type} (i : Z) (v : A) (a a' : list A) :
  AdvancedStats.array_set i v a = Some a' ->
  0 <= i < Z.of_nat (length a) /\
  length a' = length a /\
  nth_error a' (Z.to_nat i) = Some v /\
  (forall j, j <> Z.to_nat i -> nth_error a' j = nth_error a j).
Proof.
  unfold AdvancedStats.array_set.
  destruct ((0 <=? i) && (i <? Z.of_nat (length a))) eqn:E; [|discriminate].
  apply andb_prop in E as [E1 E2]. apply Z.leb_le in E1. apply Z.ltb_lt in E2.
  intros H. injection H as <-.
  change (match a with [] => [] | _ :: l => skipn (Z.to_nat i) l end)
    with (skipn (S (Z.to_nat i)) a).
  assert (Hi : (Z.to_nat i < length a)%nat) by lia.
  assert (Hf : length (firstn (Z.to_nat i) a) = Z.to_nat i)
    by (rewrite length_firstn; lia).
  split; [lia|]. split; [|split].
  - rewrite length_app, length_cons, Hf, length_skipn. lia.
  - rewrite nth_error_app2 by lia. rewrite Hf, Nat.sub_diag. reflexivity.
  - intros j Hj. destruct (Nat.lt_ge_cases j (Z.to_nat i)) as [Hlt|Hge].
    + rewrite nth_error_app1 by lia. rewrite nth_error_firstn.
      destruct (j <? Z.to_nat i)%nat eqn:E; [reflexivity|].
      apply Nat.ltb_ge in E. lia.
    + rewrite nth_error_app2 by lia. rewrite Hf.
      destruct (j - Z.to_nat i)%nat as [|k] eqn:Ek; [lia|].
      cbn [nth_error]. rewrite nth_error_skipn. f_equal. lia.
Qed.

Lemma array_set_Forall {A : Type} (P : A -> Prop) (i : Z) (v : A) (a a' : list A) :
  AdvancedStats.array_set i v a = Some a' -> P v -> Forall P a -> Forall P a'.
Proof.
  intros Hset Hv Ha. destruct (array_set_spec _ _ _ _ Hset) as (_ & _ & Hnew & Hold).
  apply Forall_forall. intros x Hx. apply In_nth_error in Hx as [j Hj].
  destruct (Nat.eq_dec j (Z.to_nat i)) as [->|Hne].
  - rewrite Hnew in Hj. now injection Hj as <-.
  - rewrite (Hold j Hne) in Hj. apply nth_error_In in Hj.
    revert x Hj. now apply Forall_forall.
Qed.

Lemma array_get_in_bounds {A : Type} (i : Z) (a : list A) :
  0 <= i < Z.of_nat (length a) -> exists v, AdvancedStats.array_get i a = Some v.
Proof.
  intros H. unfold AdvancedStats.array_get.
  destruct (0 <=? i) eqn:E; [|lia].
  destruct (nth_error a (Z.to_nat i)) as [v|] eqn:En; [now exists v|].
  apply nth_error_None in En. lia.
Qed.

Lemma percentile_index_100 :
  AdvancedStats.percentile_index 100 0.99 = Some 99 /\
  AdvancedStats.percentile_index 100 0.95 = Some 95.
Proof. split; vm_compute; reflexivity. Qed.

(** What each block of the window leaves alone. *)
Lemma percentiles_keeps (std_sort : list f32 -> list f32) (s s' : AdvancedStats.Statics) :
  AdvancedStats.percentiles std_sort s = Some s' ->
  AdvancedStats.frameTimes s' = AdvancedStats.frameTimes s /\
  AdvancedStats.frameIndex s' = AdvancedStats.frameIndex s /\
  AdvancedStats.maxFrameTime s' = AdvancedStats.maxFrameTime s /\
  AdvancedStats.frameTimeMin s' = AdvancedStats.frameTimeMin s /\
  AdvancedStats.frameTimeMax s' = AdvancedStats.frameTimeMax s /\
  AdvancedStats.allocSizes s' = AdvancedStats.allocSizes s /\
  AdvancedStats.totalAllocations s' = AdvancedStats.totalAllocations s /\
  AdvancedStats.maxAllocationSize s' = AdvancedStats.maxAllocationSize s.
Proof.
  unfold AdvancedStats.percentiles.
  destruct (AdvancedStats.std_copy _ _ _) as [copied|]; [|discriminate].
  destruct (AdvancedStats.percentile_index _ 0.99) as [i99|]; [|discriminate].
  destruct (AdvancedStats.percentile_index _ 0.95) as [i95|]; [|discriminate].
  destruct (AdvancedStats.array_get i99 _) as [p99|]; [|discriminate].
  destruct (AdvancedStats.array_get i95 _) as [p95|]; [|discriminate].
  intros [= <-]. cbn. auto 10.
Qed.

Lemma track_allocation_keeps (inp : AdvancedStats.Input) (s : AdvancedStats.Statics) :
  let s' := AdvancedStats.track_allocation inp s in
  AdvancedStats.frameTimes s' = AdvancedStats.frameTimes s /\
  AdvancedStats.frameIndex s' = AdvancedStats.frameIndex s /\
  AdvancedStats.maxFrameTime s' = AdvancedStats.maxFrameTime s /\
  AdvancedStats.frameTimeMin s' = AdvancedStats.frameTimeMin s /\
  AdvancedStats.frameTimeMax s' = AdvancedStats.frameTimeMax s /\
  AdvancedStats.frameTimePercentile99 s' = AdvancedStats.frameTimePercentile99 s /\
  AdvancedStats.frameTimePercentile95 s' = AdvancedStats.frameTimePercentile95 s /\
  AdvancedStats.sortedFrameTimes s' = AdvancedStats.sortedFrameTimes s.
Proof.
  unfold AdvancedStats.track_allocation.
  destruct (Z.rem (AdvancedStats.rand_gate inp) 10 =? 0); cbn; auto 10.
Qed.

Lemma reset_option_keeps (b : bool) (s : AdvancedStats.Statics) :
  let s' := if b then AdvancedStats.reset_stats s else s in
  AdvancedStats.frameTimes s' = AdvancedStats.frameTimes s /\
  AdvancedStats.frameIndex s' = AdvancedStats.frameIndex s /\
  AdvancedStats.maxFrameTime s' = AdvancedStats.maxFrameTime s /\
  AdvancedStats.frameTimePercentile99 s' = AdvancedStats.frameTimePercentile99 s /\
  AdvancedStats.frameTimePercentile95 s' = AdvancedStats.frameTimePercentile95 s /\
  AdvancedStats.sortedFrameTimes s' = AdvancedStats.sortedFrameTimes s.
Proof. destruct b; cbn; auto 10. Qed.

(** The window as the composition of its blocks. *)
Lemma Window_blocks (std_sort : list f32 -> list f32) (inp : AdvancedStats.Input)
      (frameTime : f32) (s s' : AdvancedStats.Statics) :
  AdvancedStats.Window std_sort inp frameTime s = Some s' ->
  exists s1 s2,
    AdvancedStats.record_frame_time frameTime s = Some s1 /\
    AdvancedStats.percentiles std_sort
      (AdvancedStats.update_min_max frameTime (AdvancedStats.scan_max s1)) = Some s2 /\
    s' = (if AdvancedStats.Button_ResetStats inp
          then AdvancedStats.reset_stats (AdvancedStats.track_allocation inp s2)
          else AdvancedStats.track_allocation inp s2).
Proof.
  unfold AdvancedStats.Window.
  destruct (AdvancedStats.record_frame_time frameTime s) as [s1|]; [|discriminate].
  destruct (AdvancedStats.percentiles std_sort _) as [s2|] eqn:E; [|discriminate].
  intros [= <-]. exists s1, s2. auto.
Qed.

Lemma record_frame_time_spec (frameTime : f32) (s s1 : AdvancedStats.Statics) :
  AdvancedStats.record_frame_time frameTime s = Some s1 ->
  AdvancedStats.array_set (AdvancedStats.frameIndex s) frameTime (AdvancedStats.frameTimes s)
    = Some (AdvancedStats.frameTimes s1) /\
  AdvancedStats.frameIndex s1 = Z.rem (to_int (AdvancedStats.frameIndex s + 1)) 100 /\
  AdvancedStats.sortedFrameTimes s1 = AdvancedStats.sortedFrameTimes s /\
  AdvancedStats.frameTimeMin s1 = AdvancedStats.frameTimeMin s /\
  AdvancedStats.frameTimeMax s1 = AdvancedStats.frameTimeMax s /\
  AdvancedStats.allocSizes s1 = AdvancedStats.allocSizes s /\
  AdvancedStats.totalAllocations s1 = AdvancedStats.totalAllocations s /\
  AdvancedStats.maxAllocationSize s1 = AdvancedStats.maxAllocationSize s.
Proof.
  unfold AdvancedStats.record_frame_time.
  destruct (AdvancedStats.array_set _ _ _) as [a|]; [|discriminate].
  intros [= <-]. cbn. auto 10.
Qed.

Lemma Window_ring (std_sort : list f32 -> list f32) (inp : AdvancedStats.Input)
      (frameTime : f32) (s s' : AdvancedStats.Statics) :
  AdvancedStats.Window std_sort inp frameTime s = Some s' ->
  AdvancedStats.array_set (AdvancedStats.frameIndex s) frameTime (AdvancedStats.frameTimes s)
    = Some (AdvancedStats.frameTimes s') /\
  AdvancedStats.frameIndex s' = Z.rem (to_int (AdvancedStats.frameIndex s + 1)) 100.
Proof.
  intros H. destruct (Window_blocks _ _ _ _ _ H) as (s1 & s2 & H1 & H2 & ->).
  destruct (record_frame_time_spec _ _ _ H1) as (Ha & Hi & _).
  destruct (percentiles_keeps _ _ _ H2) as (Hf2 & Hi2 & _). cbn in Hf2, Hi2.
  destruct (track_allocation_keeps inp s2) as (Hf3 & Hi3 & _).
  destruct (reset_option_keeps (AdvancedStats.Button_ResetStats inp)
              (AdvancedStats.track_allocation inp s2)) as (Hf4 & Hi4 & _).
  cbv zeta in Hf3, Hi3, Hf4, Hi4.
  rewrite Hf4, Hf3, Hf2, Hi4, Hi3, Hi2. auto.
Qed.

Lemma array_set_in_bounds {A : Type} (i : Z) (v : A) (a : list A) :
  0 <= i < Z.of_nat (length a) -> exists a', AdvancedStats.array_set i v a = Some a'.
Proof.
  intros H. unfold AdvancedStats.array_set.
  destruct ((0 <=? i) && (i <? Z.of_nat (length a))) eqn:E; [eauto|].
  apply andb_false_iff in E as [E|E]; [apply Z.leb_gt in E|apply Z.ltb_ge in E]; lia.
Qed.

Lemma ring_index_step (i : Z) :
  0 <= i < 100 -> Z.rem (to_int (i + 1)) 100 = (i + 1) mod 100.
Proof.
  intros H. rewrite to_int_small by lia. apply Z.rem_mod_nonneg; lia.
Qed.

Lemma percentiles_total (std_sort : list f32 -> list f32) (s : AdvancedStats.Statics) :
  AdvancedStats.sort_keeps_size std_sort ->
  length (AdvancedStats.frameTimes s) = 100%nat ->
  length (AdvancedStats.sortedFrameTimes s) = 100%nat ->
  exists s2, AdvancedStats.percentiles std_sort s = Some s2 /\
             length (AdvancedStats.sortedFrameTimes s2) = 100%nat.
Proof.
  intros Hlen Hf Hs. unfold AdvancedStats.percentiles, AdvancedStats.std_copy.
  rewrite Hf, Hs. change ((100 <=? 100)%nat && (100 <=? 100)%nat) with true. cbv iota.
  set (copied := firstn 100 (AdvancedStats.frameTimes s) ++
                 skipn 100 (AdvancedStats.sortedFrameTimes s)).
  assert (Hc : length (std_sort copied) = 100%nat).
  { rewrite Hlen. unfold copied. rewrite length_app, length_firstn, length_skipn. lia. }
  rewrite Hc. destruct percentile_index_100 as [-> ->].
  destruct (array_get_in_bounds 99 (std_sort copied)) as [p99 ->]; [rewrite Hc; lia|].
  destruct (array_get_in_bounds 95 (std_sort copied)) as [p95 ->]; [rewrite Hc; lia|].
  eexists. split; [reflexivity|exact Hc].
Qed.

(** From a well-shaped state the window completes and leaves one. *)
Lemma Window_total (std_sort : list f32 -> list f32) (inp : AdvancedStats.Input)
      (frameTime : f32) (s : AdvancedStats.Statics) :
  AdvancedStats.sort_keeps_size std_sort ->
  AdvancedStats.wf s ->
  exists s', AdvancedStats.Window std_sort inp frameTime s = Some s' /\ AdvancedStats.wf s'.
Proof.
  intros Hlen (Hf & Hs & Hi).
  destruct (array_set_in_bounds (AdvancedStats.frameIndex s) frameTime
              (AdvancedStats.frameTimes s)) as [a Ha]; [rewrite Hf; lia|].
  destruct (array_set_spec _ _ _ _ Ha) as (_ & Hla & _).
  destruct (AdvancedStats.record_frame_time frameTime s) as [s1|] eqn:H1;
    [|unfold AdvancedStats.record_frame_time in H1; rewrite Ha in H1; discriminate].
  destruct (record_frame_time_spec _ _ _ H1) as (Ha1 & _ & Hs1 & _).
  rewrite Ha in Ha1. injection Ha1 as Ha1.
  destruct (percentiles_total std_sort
              (AdvancedStats.update_min_max frameTime (AdvancedStats.scan_max s1)) Hlen)
    as (s2 & H2 & Hs2).
  { cbn. rewrite <- Ha1. congruence. }
  { cbn. congruence. }
  assert (HW : AdvancedStats.Window std_sort inp frameTime s =
               Some (if AdvancedStats.Button_ResetStats inp
                     then AdvancedStats.reset_stats (AdvancedStats.track_allocation inp s2)
                     else AdvancedStats.track_allocation inp s2)).
  { unfold AdvancedStats.Window. now rewrite H1, H2. }
  eexists. split; [exact HW|].
  destruct (Window_ring _ _ _ _ _ HW) as (Hset & Hi').
  destruct (array_set_spec _ _ _ _ Hset) as (_ & Hl' & _).
  destruct (track_allocation_keeps inp s2) as (_ & _ & _ & _ & _ & _ & _ & Hs3).
  destruct (reset_option_keeps (AdvancedStats.Button_ResetStats inp)
              (AdvancedStats.track_allocation inp s2)) as (_ & _ & _ & _ & _ & Hs4).
  cbv zeta in Hs3, Hs4.
  split; [congruence|]. split; [congruence|].
  rewrite Hi', ring_index_step by lia. apply Z.mod_pos_bound. lia.
Qed.

Lemma run_app (std_sort : list f32 -> list f32) (a b : list (AdvancedStats.Input * f32)) :
  forall s,
    AdvancedStats.run std_sort (a ++ b) s =
    match AdvancedStats.run std_sort a s with
    | Some s1 => AdvancedStats.run std_sort b s1
    | None => None
    end.
Proof.
  induction a as [|[inp t] a IH]; intros s; cbn [app AdvancedStats.run]; [reflexivity|].
  destruct (AdvancedStats.Window std_sort inp t s); [apply IH|reflexivity].
Qed.

Lemma initial_wf : AdvancedStats.wf AdvancedStats.initial.
Proof. repeat split; cbn; lia. Qed.

Lemma mod_100_differ (k n : nat) :
  (k < n)%nat -> (n <= k + 99)%nat -> (k mod 100 <> n mod 100)%nat.
Proof.
  intros H1 H2 E.
  pose proof (Nat.Div0.div_mod k 100) as Hk. pose proof (Nat.Div0.div_mod n 100) as Hn.
  rewrite E in Hk. lia.
Qed.

Lemma run_ring (std_sort : list f32 -> list f32)
      (Hlen : AdvancedStats.sort_keeps_size std_sort)
      (frames : list (AdvancedStats.Input * f32)) :
  exists s, AdvancedStats.run std_sort frames AdvancedStats.initial = Some s /\
            ring_invariant frames s.
Proof.
  induction frames as [|[inp t] frames IH] using rev_ind.
  - exists AdvancedStats.initial. split; [reflexivity|].
    split; [apply initial_wf|]. split; [reflexivity|]. split.
    + intros k Hk. cbn in Hk. lia.
    + intros i _ Hi. cbn [AdvancedStats.initial AdvancedStats.frameTimes].
      apply nth_error_repeat. exact Hi.
  - destruct IH as (s & Hrun & Hwf & Hidx & Hlast & Hrest).
    destruct (Window_total std_sort inp t s Hlen Hwf) as (s' & HW & Hwf').
    exists s'. split.
    { rewrite run_app, Hrun. cbn [AdvancedStats.run]. now rewrite HW. }
    destruct (Window_ring _ _ _ _ _ HW) as (Hset & Hi').
    destruct (array_set_spec _ _ _ _ Hset) as (_ & _ & Hnew & Hold).
    rewrite Hidx, Nat2Z.id in Hnew, Hold.
    unfold ring_invariant. rewrite length_app, map_app. cbn [length map snd].
    set (n := length frames) in *.
    split; [exact Hwf'|]. split; [|split].
    + rewrite Hi', Hidx, ring_index_step
        by (rewrite Nat2Z.inj_mod; apply Z.mod_pos_bound; lia).
      rewrite !Nat2Z.inj_mod, Nat2Z.inj_add. change (Z.of_nat 100) with 100.
      change (Z.of_nat 1) with 1. apply Zplus_mod_idemp_l.
    + intros k Hk1 Hk2. destruct (Nat.eq_dec k n) as [->|Hne].
      * rewrite Hnew, nth_error_app2 by (rewrite length_map; lia).
        rewrite length_map. fold n. now rewrite Nat.sub_diag.
      * rewrite Hold by (apply mod_100_differ; lia).
        rewrite nth_error_app1 by (rewrite length_map; fold n; lia).
        apply Hlast; lia.
    + intros i Hi1 Hi2. rewrite Hold.
      * apply Hrest; lia.
      * rewrite Nat.mod_small by lia. lia.
Qed.

(** X1. Whatever the frame times, the random draws and the clicks, the
    window never reads or writes outside [frameTimes] or [sortedFrameTimes]:
    after any number of frames both still hold 100 floats and [frameIndex] is
    the number of frames modulo 100. *)
Theorem stats_window_stays_in_bounds (std_sort : list f32 -> list f32)
        (frames : list (AdvancedStats.Input * f32)) :
  AdvancedStats.sort_keeps_size std_sort ->
  exists s,
    AdvancedStats.run std_sort frames AdvancedStats.initial = Some s /\
    length (AdvancedStats.frameTimes s) = 100%nat /\
    length (AdvancedStats.sortedFrameTimes s) = 100%nat /\
    AdvancedStats.frameIndex s = Z.of_nat (length frames) mod 100 /\
    0 <= AdvancedStats.frameIndex s < 100.
Proof.
  intros Hlen. destruct (run_ring std_sort Hlen frames) as (s & Hrun & (Hf & Hs & Hb) & Hi & _).
  exists s. rewrite Nat2Z.inj_mod in Hi. auto 10.
Qed.

(** X2. [frameTimes] is a ring of the last 100 frame times: after [n] frames
    the time of frame [k] (counted from 0) sits in slot [k mod 100] for each
    of the last 100 frames, and the slots not yet written hold 0.0f. *)
Theorem frameTimes_holds_last_100 (std_sort : list f32 -> list f32)
        (frames : list (AdvancedStats.Input * f32)) :
  AdvancedStats.sort_keeps_size std_sort ->
  exists s,
    AdvancedStats.run std_sort frames AdvancedStats.initial = Some s /\
    (forall k, (k < length frames)%nat -> (length frames <= k + 100)%nat ->
               nth_error (AdvancedStats.frameTimes s) (k mod 100) =
               nth_error (map snd frames) k) /\
    (forall i, (length frames <= i)%nat -> (i < 100)%nat ->
               nth_error (AdvancedStats.frameTimes s) i = Some f32_zero).
Proof.
  intros Hlen. destruct (run_ring std_sort Hlen frames) as (s & Hrun & _ & _ & H1 & H2).
  exists s. auto.
Qed.

(** *** The largest time of the window *)

Lemma fold_max_below (ts : list f32) : forall m,
  below m (fold_left (fun m t => if f32_ltb m t then t else m) ts m).
Proof.
  induction ts as [|t ts IH]; intros m; cbn [fold_left]; [apply below_refl|].
  eapply below_trans; [|apply IH].
  destruct (f32_ltb m t) eqn:E; [now right|apply below_refl].
Qed.

Lemma fold_max_not_above (ts : list f32) : forall m t,
  In t ts -> f32_ltb (fold_left (fun m t => if f32_ltb m t then t else m) ts m) t = false.
Proof.
  induction ts as [|t0 ts IH]; intros m t Hin; [destruct Hin|].
  cbn [fold_left]. destruct Hin as [->|Hin]; [|now apply IH].
  assert (H1 : exists m1, (if f32_ltb m t then t else m) = m1 /\ f32_ltb m1 t = false).
  { destruct (f32_ltb m t) eqn:E; eexists; split; try reflexivity;
      [apply f32_ltb_irrefl|exact E]. }
  destruct H1 as (m1 & -> & H1).
  destruct (f32_ltb (fold_left _ ts m1) t) eqn:E; [|reflexivity].
  exfalso. exact (below_not_above _ _ _ (fold_max_below ts m1) H1 E).
Qed.

Lemma fold_max_origin (ts : list f32) : forall m,
  let r := fold_left (fun m t => if f32_ltb m t then t else m) ts m in
  r = m \/ In r ts.
Proof.
  induction ts as [|t ts IH]; intros m; cbn [fold_left]; [now left|].
  destruct (IH (if f32_ltb m t then t else m)) as [H|H]; [|right; now right].
  cbv zeta in H. rewrite H. destruct (f32_ltb m t); [right; now left|now left].
Qed.

Lemma fold_max_not_nan (ts : list f32) : forall m,
  is_nan m = false ->
  is_nan (fold_left (fun m t => if f32_ltb m t then t else m) ts m) = false.
Proof.
  induction ts as [|t ts IH]; intros m Hm; cbn [fold_left]; [exact Hm|].
  apply IH. destruct (f32_ltb m t) eqn:E; [|exact Hm].
  now apply f32_ltb_not_nan in E.
Qed.

Lemma Window_maxFrameTime (std_sort : list f32 -> list f32) (inp : AdvancedStats.Input)
      (frameTime : f32) (s s' : AdvancedStats.Statics) :
  AdvancedStats.Window std_sort inp frameTime s = Some s' ->
  AdvancedStats.maxFrameTime s' = AdvancedStats.window_max (AdvancedStats.frameTimes s').
Proof.
  intros H. destruct (Window_blocks _ _ _ _ _ H) as (s1 & s2 & H1 & H2 & ->).
  destruct (percentiles_keeps _ _ _ H2) as (Hf2 & _ & Hm2 & _). cbn in Hf2, Hm2.
  destruct (track_allocation_keeps inp s2) as (Hf3 & _ & Hm3 & _).
  destruct (reset_option_keeps (AdvancedStats.Button_ResetStats inp)
              (AdvancedStats.track_allocation inp s2)) as (Hf4 & _ & Hm4 & _).
  cbv zeta in *. congruence.
Qed.

(** X3. After the window has run, [maxFrameTime] is the largest of the 100
    recorded frame times or 0.0f: no recorded time, the frame's own time
    included, is above it; it is one of them or 0.0f; and it is never a NaN
    and never negative, whatever the buffer holds. *)
Theorem maxFrameTime_bounds_window (std_sort : list f32 -> list f32)
        (inp : AdvancedStats.Input) (frameTime : f32) (s : AdvancedStats.Statics) :
  AdvancedStats.sort_keeps_size std_sort ->
  AdvancedStats.wf s ->
  exists s',
    AdvancedStats.Window std_sort inp frameTime s = Some s' /\
    In frameTime (AdvancedStats.frameTimes s') /\
    (forall t, In t (AdvancedStats.frameTimes s') ->
               f32_ltb (AdvancedStats.maxFrameTime s') t = false) /\
    (AdvancedStats.maxFrameTime s' = f32_zero \/
     In (AdvancedStats.maxFrameTime s') (AdvancedStats.frameTimes s')) /\
    is_nan (AdvancedStats.maxFrameTime s') = false /\
    f32_ltb (AdvancedStats.maxFrameTime s') f32_zero = false.
Proof.
  intros Hlen Hwf. destruct (Window_total std_sort inp frameTime s Hlen Hwf) as (s' & HW & _).
  exists s'. split; [exact HW|].
  rewrite (Window_maxFrameTime _ _ _ _ _ HW). unfold AdvancedStats.window_max.
  destruct (Window_ring _ _ _ _ _ HW) as (Hset & _).
  destruct (array_set_spec _ _ _ _ Hset) as (_ & _ & Hnew & _).
  split; [eapply nth_error_In; exact Hnew|].
  split; [intros t Ht; now apply fold_max_not_above|].
  split; [apply fold_max_origin|].
  split; [now apply fold_max_not_nan|].
  destruct (f32_ltb _ f32_zero) eqn:E; [|reflexivity].
  exfalso. destruct (fold_max_below (AdvancedStats.frameTimes s') f32_zero) as [H|H].
  - rewrite <- H in E. now rewrite f32_ltb_irrefl in E.
  - pose proof (f32_ltb_trans _ _ _ H E) as C. rewrite f32_ltb_irrefl in C. discriminate.
Qed.

(** *** The running minimum and maximum *)

Lemma Window_min_max (std_sort : list f32 -> list f32) (inp : AdvancedStats.Input)
      (frameTime : f32) (s s' : AdvancedStats.Statics) :
  AdvancedStats.Window std_sort inp frameTime s = Some s' ->
  AdvancedStats.frameTimeMin s' =
    (if AdvancedStats.Button_ResetStats inp then AdvancedStats.FLT_MAX
     else if f32_ltb frameTime (AdvancedStats.frameTimeMin s)
          then frameTime else AdvancedStats.frameTimeMin s) /\
  AdvancedStats.frameTimeMax s' =
    (if AdvancedStats.Button_ResetStats inp then f32_zero
     else if f32_ltb (AdvancedStats.frameTimeMax s) frameTime
          then frameTime else AdvancedStats.frameTimeMax s).
Proof.
  intros H. destruct (Window_blocks _ _ _ _ _ H) as (s1 & s2 & H1 & H2 & ->).
  destruct (record_frame_time_spec _ _ _ H1) as (_ & _ & _ & Hmin1 & Hmax1 & _).
  destruct (percentiles_keeps _ _ _ H2) as (_ & _ & _ & Hmin2 & Hmax2 & _).
  cbn in Hmin2, Hmax2. rewrite Hmin1, Hmax1 in *.
  destruct (track_allocation_keeps inp s2) as (_ & _ & _ & Hmin3 & Hmax3 & _).
  cbv zeta in Hmin3, Hmax3.
  destruct (AdvancedStats.Button_ResetStats inp); cbn; [auto|]. split; congruence.
Qed.

Lemma run_min_max (std_sort : list f32 -> list f32)
      (Hlen : AdvancedStats.sort_keeps_size std_sort)
      (frames : list (AdvancedStats.Input * f32)) :
  forall s,
    AdvancedStats.wf s -> no_reset frames = true ->
    exists s',
      AdvancedStats.run std_sort frames s = Some s' /\
      (forall t, In t (map snd frames) ->
                 f32_ltb t (AdvancedStats.frameTimeMin s') = false /\
                 f32_ltb (AdvancedStats.frameTimeMax s') t = false) /\
      below (AdvancedStats.frameTimeMin s') (AdvancedStats.frameTimeMin s) /\
      below (AdvancedStats.frameTimeMax s) (AdvancedStats.frameTimeMax s') /\
      (AdvancedStats.frameTimeMin s' = AdvancedStats.frameTimeMin s \/
       In (AdvancedStats.frameTimeMin s') (map snd frames)) /\
      (AdvancedStats.frameTimeMax s' = AdvancedStats.frameTimeMax s \/
       In (AdvancedStats.frameTimeMax s') (map snd frames)).
Proof.
  induction frames as [|[inp t] frames IH]; intros s Hwf Hnr.
  - exists s. split; [reflexivity|]. split; [intros t []|].
    split; [apply below_refl|]. split; [apply below_refl|]. split; now left.
  - cbn in Hnr. apply andb_prop in Hnr as [Hb Hnr]. apply negb_true_iff in Hb.
    destruct (Window_total std_sort inp t s Hlen Hwf) as (s1 & HW & Hwf1).
    destruct (Window_min_max _ _ _ _ _ HW) as (Hmin & Hmax). rewrite Hb in Hmin, Hmax.
    destruct (IH s1 Hwf1 Hnr) as (s' & Hrun & Hall & Hbmin & Hbmax & Homin & Homax).
    exists s'. cbn [AdvancedStats.run]. rewrite HW. split; [exact Hrun|].
    assert (Hmin1 : f32_ltb t (AdvancedStats.frameTimeMin s1) = false /\
                    below (AdvancedStats.frameTimeMin s1) (AdvancedStats.frameTimeMin s) /\
                    (AdvancedStats.frameTimeMin s1 = AdvancedStats.frameTimeMin s \/
                     AdvancedStats.frameTimeMin s1 = t)).
    { rewrite Hmin. destruct (f32_ltb t (AdvancedStats.frameTimeMin s)) eqn:E.
      - split; [apply f32_ltb_irrefl|]. split; [now right|now right].
      - split; [exact E|]. split; [apply below_refl|now left]. }
    assert (Hmax1 : f32_ltb (AdvancedStats.frameTimeMax s1) t = false /\
                    below (AdvancedStats.frameTimeMax s) (AdvancedStats.frameTimeMax s1) /\
                    (AdvancedStats.frameTimeMax s1 = AdvancedStats.frameTimeMax s \/
                     AdvancedStats.frameTimeMax s1 = t)).
    { rewrite Hmax. destruct (f32_ltb (AdvancedStats.frameTimeMax s) t) eqn:E.
      - split; [apply f32_ltb_irrefl|]. split; [now right|now right].
      - split; [exact E|]. split; [apply below_refl|now left]. }
    destruct Hmin1 as (Hm1 & Hm2 & Hm3). destruct Hmax1 as (Hx1 & Hx2 & Hx3).
    cbn [map snd].
    split; [|split; [|split; [|split]]].
    + intros t0 [<-|Hin]; [|now apply Hall]. split.
      * destruct (f32_ltb t (AdvancedStats.frameTimeMin s')) eqn:E; [|reflexivity].
        exfalso. exact (below_not_under _ _ _ Hbmin Hm1 E).
      * destruct (f32_ltb (AdvancedStats.frameTimeMax s') t) eqn:E; [|reflexivity].
        exfalso. exact (below_not_above _ _ _ Hbmax Hx1 E).
    + eapply below_trans; eassumption.
    + eapply below_trans; eassumption.
    + destruct Homin as [E|Hin]; [|right; now right].
      rewrite E. destruct Hm3 as [->| ->]; [now left|right; now left].
    + destruct Homax as [E|Hin]; [|right; now right].
      rewrite E. destruct Hx3 as [->| ->]; [now left|right; now left].
Qed.

(** X4. Over frames in which "Reset Stats" is not pressed, [frameTimeMin]
    and [frameTimeMax] are a running minimum and maximum: no frame time of
    those frames is below the one or above the other, the minimum only falls
    and the maximum only rises, and each is its old value or one of those
    frame times.  A frame in which the button is pressed ends with
    [FLT_MAX] and 0, its own frame time forgotten. *)
Theorem frameTime_min_max_running (std_sort : list f32 -> list f32)
        (frames : list (AdvancedStats.Input * f32)) (s : AdvancedStats.Statics) :
  AdvancedStats.sort_keeps_size std_sort ->
  AdvancedStats.wf s ->
  no_reset frames = true ->
  (exists s',
      AdvancedStats.run std_sort frames s = Some s' /\
      (forall t, In t (map snd frames) ->
                 f32_ltb t (AdvancedStats.frameTimeMin s') = false /\
                 f32_ltb (AdvancedStats.frameTimeMax s') t = false) /\
      below (AdvancedStats.frameTimeMin s') (AdvancedStats.frameTimeMin s) /\
      below (AdvancedStats.frameTimeMax s) (AdvancedStats.frameTimeMax s') /\
      (AdvancedStats.frameTimeMin s' = AdvancedStats.frameTimeMin s \/
       In (AdvancedStats.frameTimeMin s') (map snd frames)) /\
      (AdvancedStats.frameTimeMax s' = AdvancedStats.frameTimeMax s \/
       In (AdvancedStats.frameTimeMax s') (map snd frames))) /\
  (forall inp frameTime,
      AdvancedStats.Button_ResetStats inp = true ->
      exists s1,
        AdvancedStats.Window std_sort inp frameTime s = Some s1 /\
        AdvancedStats.frameTimeMin s1 = AdvancedStats.FLT_MAX /\
        AdvancedStats.frameTimeMax s1 = f32_zero).
Proof.
  intros Hlen Hwf Hnr. split; [now apply run_min_max|].
  intros inp t Hb. destruct (Window_total std_sort inp t s Hlen Hwf) as (s1 & HW & _).
  exists s1. split; [exact HW|].
  destruct (Window_min_max _ _ _ _ _ HW) as (Hmin & Hmax). now rewrite Hb in Hmin, Hmax.
Qed.

(** *** The allocation sizes *)

Lemma allocation_invariant_fields (s s' : AdvancedStats.Statics) :
  AdvancedStats.allocSizes s' = AdvancedStats.allocSizes s ->
  AdvancedStats.maxAllocationSize s' = AdvancedStats.maxAllocationSize s ->
  allocation_invariant s -> allocation_invariant s'.
Proof. unfold allocation_invariant. intros -> ->. auto. Qed.

Lemma track_allocation_invariant (inp : AdvancedStats.Input) (s : AdvancedStats.Statics) :
  0 <= AdvancedStats.rand_size inp ->
  allocation_invariant s -> allocation_invariant (AdvancedStats.track_allocation inp s).
Proof.
  intros Hr (Hlen & Hrange & Hmax). unfold AdvancedStats.track_allocation.
  destruct (Z.rem (AdvancedStats.rand_gate inp) 10 =? 0); [|repeat split; assumption].
  set (size := f32_of_Z (Z.rem (AdvancedStats.rand_size inp) 1024 + 1)).
  set (max' := if f32_ltb (AdvancedStats.maxAllocationSize s) size
               then size else AdvancedStats.maxAllocationSize s).
  assert (Hb : below (AdvancedStats.maxAllocationSize s) max').
  { unfold max'. destruct (f32_ltb _ size) eqn:E; [now right|apply below_refl]. }
  assert (Hs : f32_ltb max' size = false).
  { unfold max'. destruct (f32_ltb _ size) eqn:E; [apply f32_ltb_irrefl|exact E]. }
  assert (Hr' : Forall (fun x => exists k, 1 <= k <= 1024 /\ x = f32_of_Z k)
                       (AdvancedStats.allocSizes s ++ [size])).
  { apply Forall_app. split; [exact Hrange|]. constructor; [|constructor].
    exists (Z.rem (AdvancedStats.rand_size inp) 1024 + 1). split; [|reflexivity].
    pose proof (Z.rem_bound_pos (AdvancedStats.rand_size inp) 1024 Hr ltac:(lia)). lia. }
  assert (Hm' : Forall (fun x => f32_ltb max' x = false) (AdvancedStats.allocSizes s ++ [size])).
  { apply Forall_app. split; [|constructor; [exact Hs|constructor]].
    eapply Forall_impl; [|exact Hmax]. cbn beta. intros x Hx.
    destruct (f32_ltb max' x) eqn:E; [|reflexivity].
    exfalso. exact (below_not_above _ _ _ Hb Hx E). }
  assert (Htl : forall (P : f32 -> Prop) l, Forall P l -> Forall P (tl l)).
  { intros P [|x l] H; [exact H|]. now inversion H. }
  unfold allocation_invariant.
  cbn [AdvancedStats.allocSizes AdvancedStats.maxAllocationSize].
  fold size. fold max'.
  destruct (100 <? length (AdvancedStats.allocSizes s ++ [size]))%nat eqn:E.
  - split; [|split; apply Htl; assumption].
    rewrite length_app in E. cbn [length] in E. apply Nat.ltb_lt in E.
    destruct (AdvancedStats.allocSizes s) as [|x l]; cbn [app tl length] in *; [lia|].
    rewrite length_app. cbn [length]. lia.
  - split; [|split; assumption]. apply Nat.ltb_ge in E. exact E.
Qed.

Lemma Window_allocation (std_sort : list f32 -> list f32) (inp : AdvancedStats.Input)
      (frameTime : f32) (s s' : AdvancedStats.Statics) :
  AdvancedStats.Window std_sort inp frameTime s = Some s' ->
  0 <= AdvancedStats.rand_size inp ->
  allocation_invariant s -> allocation_invariant s'.
Proof.
  intros H Hr Hinv. destruct (Window_blocks _ _ _ _ _ H) as (s1 & s2 & H1 & H2 & ->).
  destruct (record_frame_time_spec _ _ _ H1) as (_ & _ & _ & _ & _ & Ha1 & _ & Hm1).
  destruct (percentiles_keeps _ _ _ H2) as (_ & _ & _ & _ & _ & Ha2 & _ & Hm2).
  cbn in Ha2, Hm2.
  assert (Hinv2 : allocation_invariant s2).
  { eapply allocation_invariant_fields; [| |exact Hinv]; congruence. }
  destruct (AdvancedStats.Button_ResetStats inp).
  - unfold allocation_invariant. cbn. repeat split; try constructor. lia.
  - now apply track_allocation_invariant.
Qed.

(** X6. As long as [rand()] returns non-negative values, after any number
    of frames [allocSizes] holds at most 100 entries, each of them the float
    of an integer from 1 to 1024, and none of them is above
    [maxAllocationSize]. *)
Theorem allocSizes_bounded (std_sort : list f32 -> list f32)
        (frames : list (AdvancedStats.Input * f32)) :
  AdvancedStats.sort_keeps_size std_sort ->
  Forall (fun f => 0 <= AdvancedStats.rand_size (fst f)) frames ->
  exists s,
    AdvancedStats.run std_sort frames AdvancedStats.initial = Some s /\
    (length (AdvancedStats.allocSizes s) <= 100)%nat /\
    Forall (fun x => exists k, 1 <= k <= 1024 /\ x = f32_of_Z k) (AdvancedStats.allocSizes s) /\
    Forall (fun x => f32_ltb (AdvancedStats.maxAllocationSize s) x = false)
           (AdvancedStats.allocSizes s).
Proof.
  intros Hlen Hr.
  assert (H : forall s0, AdvancedStats.wf s0 -> allocation_invariant s0 ->
                         exists s, AdvancedStats.run std_sort frames s0 = Some s /\
                                   allocation_invariant s).
  { induction Hr as [|[inp t] frames Hr0 Hr IH]; intros s0 Hwf Hinv; [now exists s0|].
    destruct (Window_total std_sort inp t s0 Hlen Hwf) as (s1 & HW & Hwf1).
    cbn [AdvancedStats.run]. rewrite HW. apply IH; [exact Hwf1|].
    exact (Window_allocation _ _ _ _ _ HW Hr0 Hinv). }
  apply H; [apply initial_wf|].
  unfold allocation_invariant. cbn. repeat split; try constructor. lia.
Qed.

(** *** The percentiles *)

Lemma percentiles_spec (std_sort : list f32 -> list f32) (s s2 : AdvancedStats.Statics) :
  AdvancedStats.sort_keeps_size std_sort ->
  length (AdvancedStats.frameTimes s) = 100%nat ->
  length (AdvancedStats.sortedFrameTimes s) = 100%nat ->
  AdvancedStats.percentiles std_sort s = Some s2 ->
  AdvancedStats.sortedFrameTimes s2 = std_sort (AdvancedStats.frameTimes s) /\
  AdvancedStats.array_get 99 (std_sort (AdvancedStats.frameTimes s)) =
    Some (AdvancedStats.frameTimePercentile99 s2) /\
  AdvancedStats.array_get 95 (std_sort (AdvancedStats.frameTimes s)) =
    Some (AdvancedStats.frameTimePercentile95 s2).
Proof.
  intros Hlen Hf Hs. unfold AdvancedStats.percentiles, AdvancedStats.std_copy.
  rewrite Hf, Hs. change ((100 <=? 100)%nat && (100 <=? 100)%nat) with true. cbv iota.
  rewrite firstn_all2, skipn_all2, app_nil_r by lia.
  rewrite Hlen, Hf. destruct percentile_index_100 as [-> ->].
  destruct (AdvancedStats.array_get 99 _) as [p99|]; [|discriminate].
  destruct (AdvancedStats.array_get 95 _) as [p95|]; [|discriminate].
  intros [= <-]. cbn. auto.
Qed.

Lemma Window_percentiles (std_sort : list f32 -> list f32) (inp : AdvancedStats.Input)
      (frameTime : f32) (s s' : AdvancedStats.Statics) :
  AdvancedStats.sort_keeps_size std_sort ->
  AdvancedStats.wf s ->
  AdvancedStats.Window std_sort inp frameTime s = Some s' ->
  AdvancedStats.sortedFrameTimes s' = std_sort (AdvancedStats.frameTimes s') /\
  AdvancedStats.array_get 99 (std_sort (AdvancedStats.frameTimes s')) =
    Some (AdvancedStats.frameTimePercentile99 s') /\
  AdvancedStats.array_get 95 (std_sort (AdvancedStats.frameTimes s')) =
    Some (AdvancedStats.frameTimePercentile95 s').
Proof.
  intros Hlen (Hf & Hs & _) H.
  destruct (Window_blocks _ _ _ _ _ H) as (s1 & s2 & H1 & H2 & ->).
  destruct (record_frame_time_spec _ _ _ H1) as (Hset & _ & Hs1 & _).
  destruct (array_set_spec _ _ _ _ Hset) as (_ & Hl1 & _).
  assert (Hf1 : length (AdvancedStats.frameTimes
                         (AdvancedStats.update_min_max frameTime (AdvancedStats.scan_max s1)))
                = 100%nat) by (cbn; congruence).
  assert (Hso1 : length (AdvancedStats.sortedFrameTimes
                          (AdvancedStats.update_min_max frameTime (AdvancedStats.scan_max s1)))
                 = 100%nat) by (cbn; congruence).
  destruct (percentiles_spec std_sort _ s2 Hlen Hf1 Hso1 H2) as (E1 & E2 & E3).
  cbn in E1, E2, E3.
  destruct (percentiles_keeps _ _ _ H2) as (Hf2 & _). cbn in Hf2.
  destruct (track_allocation_keeps inp s2) as (Hf3 & _ & _ & _ & _ & Hp3 & Hq3 & Hs3).
  destruct (reset_option_keeps (AdvancedStats.Button_ResetStats inp)
              (AdvancedStats.track_allocation inp s2)) as (Hf4 & _ & _ & Hp4 & Hq4 & Hs4).
  cbv zeta in *. rewrite Hf4, Hf3, Hf2, Hp4, Hp3, Hq4, Hq3, Hs4, Hs3. auto.
Qed.

(** In a sorted vector of numbers nothing that comes later is below what
    comes earlier. *)
Lemma sorted_later_not_below (y : f32) (m : list f32) :
  Forall (fun x => is_nan x = false) (y :: m) ->
  Sorted (fun a b => f32_ltb b a = false) (y :: m) ->
  Forall (fun z => f32_ltb z y = false) m.
Proof.
  revert y. induction m as [|z m IH]; intros y Hn Hs; [constructor|].
  apply Sorted_inv in Hs as [Hs Hd]. apply HdRel_inv in Hd.
  inversion Hn as [|? ? _ Hn']; subst.
  constructor; [exact Hd|].
  pose proof (IH z Hn' Hs) as Hz. inversion Hn' as [|? ? Hzn _]; subst.
  eapply Forall_impl; [|exact Hz]. cbn beta. intros w Hw.
  exact (f32_not_above_trans y z w Hzn Hd Hw).
Qed.

Lemma sorted_earlier_not_above (l1 : list f32) : forall (x : f32) (l2 : list f32),
  Forall (fun x => is_nan x = false) (l1 ++ x :: l2) ->
  Sorted (fun a b => f32_ltb b a = false) (l1 ++ x :: l2) ->
  Forall (fun y => f32_ltb x y = false) l1.
Proof.
  induction l1 as [|y l1 IH]; intros x l2 Hn Hs; [constructor|].
  cbn [app] in Hn, Hs. constructor.
  - pose proof (sorted_later_not_below y _ Hn Hs) as H.
    apply Forall_app in H as [_ H]. now inversion H.
  - apply (IH x l2); [now inversion Hn|now apply Sorted_inv in Hs].
Qed.

Lemma filter_none (f : f32 -> bool) (l : list f32) :
  Forall (fun y => f y = false) l -> filter f l = [].
Proof. induction 1 as [|y l Hy _ IH]; cbn; [reflexivity|]. now rewrite Hy. Qed.

Lemma filter_length_bound (f : f32 -> bool) (l : list f32) :
  (length (filter f l) <= length l)%nat.
Proof. induction l as [|y l IH]; cbn; [lia|]. destruct (f y); cbn; lia. Qed.

Lemma Permutation_filter_length (f : f32 -> bool) (l l' : list f32) :
  Permutation l l' -> length (filter f l) = length (filter f l').
Proof.
  induction 1 as [|x l l' _ IH|x y l|l l' l'' _ IH1 _ IH2]; cbn; try reflexivity.
  - destruct (f x); cbn; now rewrite IH.
  - destruct (f x), (f y); reflexivity.
  - now rewrite IH1.
Qed.

Lemma array_get_split (i : nat) (l : list f32) (p : f32) :
  AdvancedStats.array_get (Z.of_nat i) l = Some p ->
  exists l1 l2, l = l1 ++ p :: l2 /\ length l1 = i.
Proof.
  unfold AdvancedStats.array_get. destruct (0 <=? Z.of_nat i) eqn:E; [|discriminate].
  rewrite Nat2Z.id. apply nth_error_split.
Qed.

(** A sorted vector of 100 numbers read at an index: nothing before the
    index is above the value, so at most [99 - index] entries are. *)
Lemma sorted_read (i : nat) (l : list f32) (p : f32) :
  Forall (fun x => is_nan x = false) l ->
  Sorted (fun a b => f32_ltb b a = false) l ->
  length l = 100%nat ->
  AdvancedStats.array_get (Z.of_nat i) l = Some p ->
  In p l /\ (length (filter (f32_ltb p) l) <= 99 - i)%nat.
Proof.
  intros Hn Hs Hl Hg. destruct (array_get_split i l p Hg) as (l1 & l2 & -> & Hl1).
  split; [apply in_elt|].
  rewrite filter_app, (filter_none _ _ (sorted_earlier_not_above l1 p l2 Hn Hs)).
  cbn [app filter]. rewrite f32_ltb_irrefl.
  pose proof (filter_length_bound (f32_ltb p) l2) as Hb.
  rewrite length_app in Hl. cbn [length] in Hl. lia.
Qed.

(** X5. When no recorded frame time is a NaN, the value shown as the 99th
    percentile is the largest of the 100 recorded frame times (none is above
    it), the value shown as the 95th percentile has at most four of them
    above it, both are recorded frame times, and [sortedFrameTimes] is a
    rearrangement of [frameTimes]. *)
Theorem percentiles_of_window (std_sort : list f32 -> list f32)
        (inp : AdvancedStats.Input) (frameTime : f32) (s : AdvancedStats.Statics) :
  AdvancedStats.sort_keeps_size std_sort ->
  AdvancedStats.sort_contract std_sort ->
  AdvancedStats.wf s ->
  Forall (fun x => is_nan x = false) (AdvancedStats.frameTimes s) ->
  is_nan frameTime = false ->
  exists s',
    AdvancedStats.Window std_sort inp frameTime s = Some s' /\
    Permutation (AdvancedStats.frameTimes s') (AdvancedStats.sortedFrameTimes s') /\
    In (AdvancedStats.frameTimePercentile99 s') (AdvancedStats.frameTimes s') /\
    (forall t, In t (AdvancedStats.frameTimes s') ->
               f32_ltb (AdvancedStats.frameTimePercentile99 s') t = false) /\
    In (AdvancedStats.frameTimePercentile95 s') (AdvancedStats.frameTimes s') /\
    (length (filter (f32_ltb (AdvancedStats.frameTimePercentile95 s'))
                    (AdvancedStats.frameTimes s')) <= 4)%nat.
Proof.
  intros Hlen Hsort Hwf Hn Ht.
  destruct (Window_total std_sort inp frameTime s Hlen Hwf) as (s' & HW & (Hf' & _)).
  exists s'. split; [exact HW|].
  destruct (Window_percentiles _ _ _ _ _ Hlen Hwf HW) as (Es & E99 & E95).
  assert (Hn' : Forall (fun x => is_nan x = false) (AdvancedStats.frameTimes s')).
  { destruct (Window_ring _ _ _ _ _ HW) as (Hset & _).
    exact (array_set_Forall _ _ _ _ _ Hset Ht Hn). }
  destruct (Hsort _ Hn') as (Hperm & Hsorted).
  assert (Hns : Forall (fun x => is_nan x = false) (std_sort (AdvancedStats.frameTimes s'))).
  { apply Forall_forall. intros x Hx.
    pose proof (Permutation_in _ (Permutation_sym Hperm) Hx) as Hin.
    exact (proj1 (Forall_forall _ _) Hn' x Hin). }
  assert (Hls : length (std_sort (AdvancedStats.frameTimes s')) = 100%nat)
    by (rewrite Hlen; exact Hf').
  destruct (sorted_read 99 _ _ Hns Hsorted Hls E99) as (Hin99 & Hc99).
  destruct (sorted_read 95 _ _ Hns Hsorted Hls E95) as (Hin95 & Hc95).
  rewrite Es. split; [exact Hperm|].
  split; [exact (Permutation_in _ (Permutation_sym Hperm) Hin99)|]. split.
  - intros t Hin. pose proof (Permutation_in _ Hperm Hin) as Hin'.
    destruct (f32_ltb (AdvancedStats.frameTimePercentile99 s') t) eqn:E; [|reflexivity].
    exfalso.
    assert (In t (filter (f32_ltb (AdvancedStats.frameTimePercentile99 s'))
                         (std_sort (AdvancedStats.frameTimes s'))))
      by (apply filter_In; split; assumption).
    destruct (filter _ _); [contradiction|cbn in Hc99; lia].
  - split; [exact (Permutation_in _ (Permutation_sym Hperm) Hin95)|].
    rewrite (Permutation_filter_length _ _ _ Hperm). exact Hc95.
Qed.

(** *** The reference sort meets what is assumed of [std::sort] *)

Lemma f32_ltb_asym (x y : f32) : f32_ltb x y = true -> f32_ltb y x = false.
Proof.
  intros H. destruct (f32_ltb y x) eqn:E; [|reflexivity].
  pose proof (f32_ltb_trans _ _ _ H E) as C. rewrite f32_ltb_irrefl in C. discriminate.
Qed.

Lemma insert_length (x : f32) (l : list f32) :
  length (AdvancedStats.insert x l) = S (length l).
Proof.
  induction l as [|y l IH]; cbn; [reflexivity|].
  destruct (f32_ltb y x); cbn; [now rewrite IH|reflexivity].
Qed.

Lemma insertion_sort_keeps_size : AdvancedStats.sort_keeps_size AdvancedStats.insertion_sort.
Proof.
  intros l. induction l as [|x l IH]; cbn; [reflexivity|].
  change (fold_right AdvancedStats.insert [] l) with (AdvancedStats.insertion_sort l).
  now rewrite insert_length, IH.
Qed.

Lemma insert_Permutation (x : f32) (l : list f32) :
  Permutation (x :: l) (AdvancedStats.insert x l).
Proof.
  induction l as [|y l IH]; cbn; [apply Permutation_refl|].
  destruct (f32_ltb y x); [|apply Permutation_refl].
  eapply Permutation_trans; [apply perm_swap|]. now apply perm_skip.
Qed.

Lemma insert_Sorted (x : f32) (l : list f32) :
  Sorted (fun a b => f32_ltb b a = false) l ->
  Sorted (fun a b => f32_ltb b a = false) (AdvancedStats.insert x l).
Proof.
  induction l as [|y l IH]; intros Hs; cbn [AdvancedStats.insert].
  - repeat constructor.
  - destruct (f32_ltb y x) eqn:E.
    + apply Sorted_inv in Hs as [Hs Hd]. constructor; [now apply IH|].
      destruct l as [|z l]; cbn [AdvancedStats.insert].
      * constructor. now apply f32_ltb_asym.
      * apply HdRel_inv in Hd. destruct (f32_ltb z x); constructor;
          [exact Hd|now apply f32_ltb_asym].
    + constructor; [exact Hs|]. constructor. exact E.
Qed.

Lemma insertion_sort_contract : AdvancedStats.sort_contract AdvancedStats.insertion_sort.
Proof.
  intros l _. induction l as [|x l [IHp IHs]]; cbn.
  - split; constructor.
  - change (fold_right AdvancedStats.insert [] l) with (AdvancedStats.insertion_sort l).
    split; [|now apply insert_Sorted].
    eapply Permutation_trans; [apply perm_skip; exact IHp|apply insert_Permutation].
Qed.

Lemma initial_frameTimes_nan_free :
  Forall (fun x => is_nan x = false) (AdvancedStats.frameTimes AdvancedStats.initial).
Proof.
  apply Forall_forall. intros x Hx. apply repeat_spec in Hx. now subst.
Qed.

(** *** The window on three frames *)

Lemma stats_window_stays_in_bounds_witness :
  exists s,
    AdvancedStats.run AdvancedStats.insertion_sort sample_frames AdvancedStats.initial
      = Some s /\
    length (AdvancedStats.frameTimes s) = 100%nat /\
    length (AdvancedStats.sortedFrameTimes s) = 100%nat /\
    AdvancedStats.frameIndex s = Z.of_nat (length sample_frames) mod 100 /\
    0 <= AdvancedStats.frameIndex s < 100.
Proof.
  exact (stats_window_stays_in_bounds AdvancedStats.insertion_sort sample_frames
           insertion_sort_keeps_size).
Defined.

Lemma frameTimes_holds_last_100_witness :
  exists s,
    AdvancedStats.run AdvancedStats.insertion_sort sample_frames AdvancedStats.initial
      = Some s /\
    (forall k, (k < length sample_frames)%nat -> (length sample_frames <= k + 100)%nat ->
               nth_error (AdvancedStats.frameTimes s) (k mod 100) =
               nth_error (map snd sample_frames) k) /\
    (forall i, (length sample_frames <= i)%nat -> (i < 100)%nat ->
               nth_error (AdvancedStats.frameTimes s) i = Some f32_zero).
Proof.
  exact (frameTimes_holds_last_100 AdvancedStats.insertion_sort sample_frames
           insertion_sort_keeps_size).
Defined.

Lemma maxFrameTime_bounds_window_witness :
  exists s',
    AdvancedStats.Window AdvancedStats.insertion_sort (AdvancedStats.mkInput 0 5 false)
                         (f32_of_Q 16) AdvancedStats.initial = Some s' /\
    AdvancedStats.maxFrameTime s' = f32_of_Q 16.
Proof.
  destruct (maxFrameTime_bounds_window AdvancedStats.insertion_sort
              (AdvancedStats.mkInput 0 5 false) (f32_of_Q 16) AdvancedStats.initial
              insertion_sort_keeps_size initial_wf) as (s' & HW & _).
  exists s'. split; [exact HW|].
  vm_compute in HW. injection HW as <-. reflexivity.
Defined.

Lemma frameTime_min_max_running_witness :
  no_reset sample_frames = true /\
  exists s',
    AdvancedStats.run AdvancedStats.insertion_sort sample_frames AdvancedStats.initial
      = Some s' /\
    AdvancedStats.frameTimeMin s' = f32_of_Q 8 /\
    AdvancedStats.frameTimeMax s' = f32_of_Q 33.
Proof.
  split; [reflexivity|].
  destruct (frameTime_min_max_running AdvancedStats.insertion_sort sample_frames
              AdvancedStats.initial insertion_sort_keeps_size initial_wf eq_refl)
    as ((s' & Hrun & _) & _).
  exists s'. split; [exact Hrun|].
  vm_compute in Hrun. injection Hrun as <-. split; reflexivity.
Defined.

Lemma percentiles_of_window_witness :
  is_nan (f32_of_Q 16) = false /\
  exists s',
    AdvancedStats.Window AdvancedStats.insertion_sort (AdvancedStats.mkInput 0 5 false)
                         (f32_of_Q 16) AdvancedStats.initial = Some s' /\
    AdvancedStats.frameTimePercentile99 s' = f32_of_Q 16 /\
    AdvancedStats.frameTimePercentile95 s' = f32_of_Q 0.
Proof.
  split; [reflexivity|].
  destruct (percentiles_of_window AdvancedStats.insertion_sort
              (AdvancedStats.mkInput 0 5 false) (f32_of_Q 16) AdvancedStats.initial
              insertion_sort_keeps_size insertion_sort_contract initial_wf
              initial_frameTimes_nan_free eq_refl) as (s' & HW & _).
  exists s'. split; [exact HW|].
  vm_compute in HW. injection HW as <-. split; reflexivity.
Defined.

Lemma allocSizes_bounded_witness :
  Forall (fun f => 0 <= AdvancedStats.rand_size (fst f)) sample_frames /\
  exists s,
    AdvancedStats.run AdvancedStats.insertion_sort sample_frames AdvancedStats.initial
      = Some s /\
    AdvancedStats.allocSizes s = [f32_of_Z 6; f32_of_Z 1024] /\
    AdvancedStats.maxAllocationSize s = f32_of_Z 1024.
Proof.
  assert (H : Forall (fun f => 0 <= AdvancedStats.rand_size (fst f)) sample_frames).
  { repeat constructor; cbn; lia. }
  split; [exact H|].
  destruct (allocSizes_bounded AdvancedStats.insertion_sort sample_frames
              insertion_sort_keeps_size H) as (s & Hrun & _).
  exists s. split; [exact Hrun|].
  vm_compute in Hrun. injection Hrun as <-. split; reflexivity.
Defined.

(** ** The scene editor *)

Lemma for_each_nth_error {A D : Type} (none : D) (body : D -> A -> A) (v : list A) :
  forall (ds : list D) (i : nat),
    nth_error (for_each none body ds v) i =
    option_map (body (nth i ds none)) (nth_error v i).
Proof.
  induction v as [|a v IH]; intros ds i.
  - destruct i; reflexivity.
  - destruct i as [|i]; cbn [for_each nth_error option_map].
    + destruct ds; reflexivity.
    + rewrite IH. destruct ds as [|d ds]; cbn [tl nth]; [destruct i|]; reflexivity.
Qed.

Lemma for_each_untouched {A D : Type} (none : D) (body : D -> A -> A)
      (log : nat -> D -> list Call)
      (Hlog : forall i d a, log i d = [] -> body d a = a) (v : list A) :
  forall (i : nat) (ds : list D),
    for_each_log none log i ds v = [] -> for_each none body ds v = v.
Proof.
  induction v as [|a v IH]; intros i ds H; cbn [for_each]; [reflexivity|].
  cbn [for_each_log] in H. apply app_eq_nil in H as [H1 H2].
  now rewrite (Hlog i _ a H1), (IH _ _ H2).
Qed.

Lemma edit_log_nil {A : Type} (f : Field) (i : nat) (d : option A) :
  edit_log f i d = [] -> d = None.
Proof. destruct d; [discriminate|reflexivity]. Qed.

Lemma edit_Sphere_untouched (nmat : Z) (i : nat) (d : SphereDrag) (s : Sphere) :
  edit_Sphere_log i d = [] -> edit_Sphere nmat d s = s.
Proof.
  unfold edit_Sphere_log. intros H.
  apply app_eq_nil in H as [H1 H]. apply app_eq_nil in H as [H2 H3].
  apply edit_log_nil in H1, H2, H3. unfold edit_Sphere. rewrite H1, H2, H3.
  destruct s. reflexivity.
Qed.

Lemma edit_Material_untouched (i : nat) (d : MaterialDrag) (m : Material) :
  edit_Material_log i d = [] -> edit_Material d m = m.
Proof.
  unfold edit_Material_log. intros H.
  apply app_eq_nil in H as [H1 H]. apply app_eq_nil in H as [H2 H3].
  apply edit_log_nil in H1, H2, H3. unfold edit_Material. rewrite H1, H2, H3.
  destruct m. reflexivity.
Qed.

(** X8. The scene editor edits in place: it never adds or removes a sphere
    or a material, entry [i] is changed by the widgets under [PushID(i)] alone
    (with the material count taken before the edits as the bound of the
    index widget), and when no widget reports an edit the scene is exactly
    as before. *)
Theorem scene_editor_edits_in_place (ui : UIInput) (sc : Scene) :
  length (Spheres (edit_Scene ui sc)) = length (Spheres sc) /\
  length (Materials (edit_Scene ui sc)) = length (Materials sc) /\
  (forall i,
      nth_error (Spheres (edit_Scene ui sc)) i =
      option_map (edit_Sphere (Z.of_nat (length (Materials sc)))
                              (nth i (Drags_Spheres ui) no_SphereDrag))
                 (nth_error (Spheres sc) i)) /\
  (forall i,
      nth_error (Materials (edit_Scene ui sc)) i =
      option_map (edit_Material (nth i (Drags_Materials ui) no_MaterialDrag))
                 (nth_error (Materials sc) i)) /\
  (edit_Scene_log ui sc = [] -> edit_Scene ui sc = sc).
Proof.
  unfold edit_Scene. cbn [Spheres Materials].
  split; [apply for_each_length|]. split; [apply for_each_length|].
  split; [intros i; apply for_each_nth_error|].
  split; [intros i; apply for_each_nth_error|].
  unfold edit_Scene_log. intros H. apply app_eq_nil in H as [H1 H2].
  rewrite (for_each_untouched _ _ _ (fun i d a => edit_Sphere_untouched _ i d a) _ _ _ H1).
  rewrite (for_each_untouched _ _ _ (fun i d a => edit_Material_untouched i d a) _ _ _ H2).
  destruct sc. reflexivity.
Qed.

(** ** The ImGui calls of a frame *)

Lemma nesting_app (a b : list ImGuiCall) : forall stack,
  nesting stack (a ++ b) =
  match nesting stack a with Some st => nesting st b | None => None end.
Proof.
  induction a as [|c a IH]; intros stack; cbn [app nesting]; [reflexivity|].
  destruct c as [w| |i| | | |[|]| |item], stack as [|[] st]; cbn;
    try reflexivity; try apply IH;
    match goal with
    | |- context [if ?b then _ else _] => destruct b; [apply IH|reflexivity]
    end.
Qed.

Lemma nesting_loop (body : nat -> list ImGuiCall) (stack : list ImGuiScope)
      (Hbody : forall i, nesting stack (body i) = Some stack) (n : nat) :
  forall k, nesting stack (flat_map body (seq k n)) = Some stack.
Proof.
  induction n as [|n IH]; intros k; cbn [seq flat_map]; [reflexivity|].
  now rewrite nesting_app, Hbody, IH.
Qed.

(** X10. For every scene, whatever is shown and clicked, the ImGui calls of
    [OnUIRender] are properly nested and leave nothing open: each [Begin] has
    its [End], each [PushID] inside the loops its [PopID] before the next
    iteration, the [PushStyleVar] before the viewport its [PopStyleVar] after
    the last window, and every widget is submitted inside a window.  The menu
    bar callback calls [EndMenu] exactly when [BeginMenu] opened the menu and
    closes the application only when the menu is open and "Exit" is
    clicked. *)
Theorem ImGui_calls_nested (sc : Scene) (image meminfo allocs opened clicked : bool) :
  nesting [] (OnUIRender_ImGui sc image meminfo allocs) = Some [] /\
  nesting [In_Window] (fst (Menubar opened clicked)) = Some [In_Window] /\
  snd (Menubar opened clicked) = opened && clicked /\
  existsb (fun c => match c with IG_EndMenu => true | _ => false end)
          (fst (Menubar opened clicked)) = opened.
Proof.
  split; [|destruct opened, clicked; repeat split].
  unfold OnUIRender_ImGui.
  rewrite nesting_app. cbn [nesting submits_inside existsb orb].
  rewrite nesting_app. cbn [nesting].
  rewrite nesting_app, nesting_loop by reflexivity.
  rewrite nesting_app, nesting_loop by reflexivity.
  destruct image, meminfo, allocs; reflexivity.
Qed.

(** *** The allocation counter *)

Lemma track_allocation_counter (inp : AdvancedStats.Input) (s : AdvancedStats.Statics)
      (k : Z) :
  Z.of_nat (length (AdvancedStats.allocSizes s)) <= AdvancedStats.totalAllocations s <= k ->
  k + 1 < 2 ^ 31 ->
  let s' := AdvancedStats.track_allocation inp s in
  Z.of_nat (length (AdvancedStats.allocSizes s')) <= AdvancedStats.totalAllocations s' <= k + 1.
Proof.
  intros H Hk. unfold AdvancedStats.track_allocation.
  destruct (Z.rem (AdvancedStats.rand_gate inp) 10 =? 0); cbv zeta; [|lia].
  cbn [AdvancedStats.allocSizes AdvancedStats.totalAllocations].
  rewrite to_int_small by lia.
  destruct (100 <? _)%nat.
  - destruct (AdvancedStats.allocSizes s) as [|x l]; cbn [app tl length] in *; [lia|].
    rewrite length_app. cbn [length]. lia.
  - rewrite length_app. cbn [length]. lia.
Qed.

Lemma Window_counter (std_sort : list f32 -> list f32) (inp : AdvancedStats.Input)
      (frameTime : f32) (s s' : AdvancedStats.Statics) (k : Z) :
  AdvancedStats.Window std_sort inp frameTime s = Some s' ->
  Z.of_nat (length (AdvancedStats.allocSizes s)) <= AdvancedStats.totalAllocations s <= k ->
  k + 1 < 2 ^ 31 ->
  Z.of_nat (length (AdvancedStats.allocSizes s')) <= AdvancedStats.totalAllocations s' <= k + 1.
Proof.
  intros H Hinv Hk. destruct (Window_blocks _ _ _ _ _ H) as (s1 & s2 & H1 & H2 & ->).
  destruct (record_frame_time_spec _ _ _ H1) as (_ & _ & _ & _ & _ & Ha1 & Ht1 & _).
  destruct (percentiles_keeps _ _ _ H2) as (_ & _ & _ & _ & _ & Ha2 & Ht2 & _).
  cbn in Ha2, Ht2.
  assert (Hinv2 : Z.of_nat (length (AdvancedStats.allocSizes s2))
                  <= AdvancedStats.totalAllocations s2 <= k) by (rewrite Ha2, Ht2, Ha1, Ht1; lia).
  pose proof (track_allocation_counter inp s2 k Hinv2 Hk) as H3. cbv zeta in H3.
  destruct (AdvancedStats.Button_ResetStats inp); [cbn; lia|exact H3].
Qed.

(** X11. Over fewer than 2^31 frames the allocation counter does not
    overflow: after [n] frames [totalAllocations] is at most [n], never
    negative and never less than the number of sizes held in [allocSizes]. *)
Theorem totalAllocations_counts (std_sort : list f32 -> list f32)
        (frames : list (AdvancedStats.Input * f32)) :
  AdvancedStats.sort_keeps_size std_sort ->
  Z.of_nat (length frames) < 2 ^ 31 ->
  exists s,
    AdvancedStats.run std_sort frames AdvancedStats.initial = Some s /\
    Z.of_nat (length (AdvancedStats.allocSizes s)) <= AdvancedStats.totalAllocations s /\
    0 <= AdvancedStats.totalAllocations s <= Z.of_nat (length frames).
Proof.
  intros Hlen Hn.
  assert (H : forall s0 k,
             AdvancedStats.wf s0 ->
             Z.of_nat (length (AdvancedStats.allocSizes s0))
               <= AdvancedStats.totalAllocations s0 <= k ->
             k + Z.of_nat (length frames) < 2 ^ 31 ->
             exists s,
               AdvancedStats.run std_sort frames s0 = Some s /\
               Z.of_nat (length (AdvancedStats.allocSizes s))
                 <= AdvancedStats.totalAllocations s <= k + Z.of_nat (length frames)).
  { clear Hn. induction frames as [|[inp t] frames IH]; intros s0 k Hwf Hinv Hk.
    - exists s0. split; [reflexivity|]. cbn. lia.
    - destruct (Window_total std_sort inp t s0 Hlen Hwf) as (s1 & HW & Hwf1).
      cbn [AdvancedStats.run]. rewrite HW. cbn [length] in Hk.
      destruct (IH s1 (k + 1) Hwf1) as (s & Hrun & Hs).
      + eapply Window_counter; [exact HW|exact Hinv|lia].
      + lia.
      + exists s. split; [exact Hrun|]. cbn [length]. lia. }
  destruct (H AdvancedStats.initial 0 initial_wf) as (s & Hrun & Hs); [cbn; lia|lia|].
  exists s. split; [exact Hrun|]. lia.
Qed.

Lemma totalAllocations_counts_witness :
  Z.of_nat (length sample_frames) < 2 ^ 31 /\
  exists s,
    AdvancedStats.run AdvancedStats.insertion_sort sample_frames AdvancedStats.initial
      = Some s /\
    AdvancedStats.totalAllocations s = 2.
Proof.
  split; [reflexivity|].
  destruct (totalAllocations_counts AdvancedStats.insertion_sort sample_frames
              insertion_sort_keeps_size eq_refl) as (s & Hrun & _).
  exists s. split; [exact Hrun|].
  vm_compute in Hrun. injection Hrun as <-. reflexivity.
Defined.
